(** * The KLIFS-ID notebook ([opencadd/data/klifs_ids.ipynb])

    The notebook fetches the table of all KLIFS structures, keeps the seven
    identifier columns, sorts the rows by structure ID, checks for
    duplicated identifiers, stores the table as a zipped CSV file named
    after the day, loads the file again, and repeats the duplicate check on
    the table of all ligands.

    The code cells are embedded as steps of an error monad over the
    variables of the kernel ([cell_2] to [cell_11], in the order of the
    notebook).  The remote KLIFS session, the clock and the operating
    system are inputs ([Env]).

    The pandas and Python operations that the cells call are modelled by
    functions of the same names over a row-major data frame: selection by
    a list of labels, [sort_values], [groupby(...).size()], [isin],
    [to_csv] through the writer of Python's [csv] module, and [read_csv]
    with the tokenizer, the markers of missing values and the dtype
    inference of its defaults.  Where the model leaves something of
    pandas out, the definition concerned says so. *)

From Stdlib Require Import ZArith String Ascii Bool Lia.
From Stdlib Require Import DecimalString DecimalZ.
From Stdlib Require Import List Permutation Sorted.
Import ListNotations.

Local Open Scope string_scope.
Local Open Scope Z_scope.
Local Open Scope list_scope.

(** ** Exceptions *)

Inductive exn : Type :=
| KeyError (label : string)     (* a column label that the frame lacks *)
| ValueError (what : string)
| TypeError                     (* ordering values of unlike types *)
| NameError (variable : string) (* a cell run before the one that assigns *)
| EmptyDataError                (* read_csv: no header line *)
| ParserError (what : string)   (* read_csv: tokenizer errors *)
| BadZipFile
| FileNotFoundError (path : string)
| Raised (what : string).       (* raised inside a collaborator *)

Definition result (A : Type) : Type := (exn + A)%type.

Definition ret {A} (a : A) : result A := inr a.
Definition raise {A} (e : exn) : result A := inl e.
Definition bind {A B} (c : result A) (k : A -> result B) : result B :=
  match c with
  | inl e => inl e
  | inr a => k a
  end.

Notation "x <- c ;; k" := (bind c (fun x => k))
  (at level 61, c at next level, right associativity).

Fixpoint mapM {A B} (f : A -> result B) (l : list A) : result (list B) :=
  match l with
  | [] => ret []
  | a :: l' => b <- f a ;; bs <- mapM f l' ;; ret (b :: bs)
  end.

(** ** Data frames *)

(** A cell of a frame.  The ID columns hold [int64] numbers and text;
    a missing value is [CNaN].  [CFloat] and [CBool] are what the dtype
    inference of [read_csv] makes of a column of numerals or of truth
    values; a float is carried by its numeral, since nothing in the
    notebook computes with one. *)
Inductive cell : Type :=
| CInt (z : Z)
| CStr (s : string)
| CNaN
| CFloat (numeral : string)
| CBool (b : bool).

Definition cell_eqb (a b : cell) : bool :=
  match a, b with
  | CInt x, CInt y => x =? y
  | CStr x, CStr y => String.eqb x y
  | CNaN, CNaN => true
  | CFloat x, CFloat y => String.eqb x y
  | CBool x, CBool y => Bool.eqb x y
  | _, _ => false
  end.

Definition isna (c : cell) : bool :=
  match c with CNaN => true | _ => false end.

(** A row is its index label and its cells, one per column. *)
Definition row : Type := (Z * list cell)%type.

Record DataFrame : Type := mkDataFrame {
  columns : list string;
  rows : list row
}.

Definition shape (df : DataFrame) : nat * nat :=
  (length (rows df), length (columns df)).

Definition head (n : nat) (df : DataFrame) : DataFrame :=
  mkDataFrame (columns df) (firstn n (rows df)).

(** Every row is as wide as the header. *)
Definition well_formed (df : DataFrame) : Prop :=
  Forall (fun r : row => length (snd r) = length (columns df)) (rows df).

(** *** Column selection *)

(** All positions at which [label] occurs among the column labels,
    counted from [i]. *)
Fixpoint positions_from (i : nat) (label : string) (cols : list string)
  : list nat :=
  match cols with
  | [] => []
  | c :: cs =>
      if String.eqb c label
      then i :: positions_from (S i) label cs
      else positions_from (S i) label cs
  end.

Definition positions (label : string) (cols : list string) : list nat :=
  positions_from 0 label cols.

(** The columns a label selects in [df[[...]]]: all that carry it;
    [KeyError] when none does. *)
Definition locate (cols : list string) (label : string) : result (list nat) :=
  match positions label cols with
  | [] => raise (KeyError label)
  | ps => ret ps
  end.

(** The one column a single label selects in [sort_values] and [groupby],
    which refuse a label that several columns carry. *)
Definition locate_unique (cols : list string) (label : string) : result nat :=
  match positions label cols with
  | [] => raise (KeyError label)
  | [p] => ret p
  | _ => raise (ValueError "label is not unique")
  end.

Definition take_cells (ps : list nat) (cells : list cell) : list cell :=
  map (fun p => nth p cells CNaN) ps.

Definition take_row (ps : list nat) (r : row) : row :=
  (fst r, take_cells ps (snd r)).

(** [df[labels]] with a list of labels. *)
Definition getitem_columns (labels : list string) (df : DataFrame)
  : result DataFrame :=
  pss <- mapM (locate (columns df)) labels ;;
  let ps := concat pss in
  ret (mkDataFrame (map (fun p => nth p (columns df) EmptyString) ps)
                   (map (take_row ps) (rows df))).

(** [df[mask]] with a Boolean mask computed row by row. *)
Definition getitem_mask (mask : row -> bool) (df : DataFrame) : DataFrame :=
  mkDataFrame (columns df) (filter mask (rows df)).

(** *** Sorting *)

Section Insertion.
Context {A : Type} (leb : A -> A -> bool).

Fixpoint insert_sorted (x : A) (l : list A) : list A :=
  match l with
  | [] => [x]
  | y :: l' => if leb x y then x :: l else y :: insert_sorted x l'
  end.

Definition sort_by (l : list A) : list A :=
  fold_right insert_sorted [] l.
End Insertion.

(** The dtype of a key column decides how it is ordered. *)
Inductive key_kind : Type := IntKeys | TextKeys.

Definition is_int (c : cell) : bool :=
  match c with CInt _ => true | _ => false end.

Definition is_text_or_nan (c : cell) : bool :=
  match c with CStr _ | CNaN => true | _ => false end.

(** Ascending order of keys, missing values last ([na_position="last"]).
    Numbers compare by value and text by code point.  [key_kind_of] lets
    through a column of [int64] numbers and a column of text (with missing
    values); Python refuses to order text against numbers with a
    [TypeError].  Key columns of floats (in pandas a column of numbers
    with a missing value is one) or of truth values do not occur in the
    notebook; pandas sorts them, their order is not modelled here, and
    they are refused alike. *)
Definition key_leb (a b : cell) : bool :=
  match a, b with
  | _, CNaN => true
  | CNaN, _ => false
  | CInt x, CInt y => x <=? y
  | CStr x, CStr y => String.leb x y
  | _, _ => true
  end.

Definition key_kind_of (keys : list cell) : result key_kind :=
  if forallb is_int keys then ret IntKeys
  else if forallb is_text_or_nan keys then ret TextKeys
  else raise TypeError.

Definition key_at (p : nat) (r : row) : cell := nth p (snd r) CNaN.

Definition row_leb (p : nat) (r1 r2 : row) : bool :=
  key_leb (key_at p r1) (key_at p r2).

(** [df.sort_values(by)], ascending.  The order in which pandas leaves
    rows of equal key is not fixed by its default sort; here they keep
    their relative order. *)
Definition sort_values (by_ : string) (df : DataFrame) : result DataFrame :=
  p <- locate_unique (columns df) by_ ;;
  _ <- key_kind_of (map (key_at p) (rows df)) ;;
  ret (mkDataFrame (columns df) (sort_by (row_leb p) (rows df))).

(** *** Grouping *)

Definition key_eqb (k1 k2 : list cell) : bool :=
  (Nat.eqb (length k1) (length k2))
  && forallb (fun ab => cell_eqb (fst ab) (snd ab)) (combine k1 k2).

(** Group sizes, one entry per key. *)
Definition sizes_t : Type := list (list cell * nat).

Fixpoint count_in (k : list cell) (s : sizes_t) : sizes_t :=
  match s with
  | [] => [(k, 1%nat)]
  | (k', n) :: s' =>
      if key_eqb k' k then (k', S n) :: s' else (k', n) :: count_in k s'
  end.

(** [df.groupby(labels).size()]: rows with a missing key cell belong to no
    group.  Entries are listed in the order in which the keys first occur;
    the order in which pandas lists them is not modelled. *)
Definition add_row (ps : list nat) (acc : sizes_t) (r : row) : sizes_t :=
  let k := take_cells ps (snd r) in
  if existsb isna k then acc else count_in k acc.

Definition groupby_size (labels : list string) (df : DataFrame)
  : result sizes_t :=
  ps <- mapM (locate_unique (columns df)) labels ;;
  ret (fold_left (add_row ps) (rows df) []).

(** [sizes[sizes > 1]] *)
Definition larger_than_one (s : sizes_t) : sizes_t :=
  filter (fun kn => (1 <? snd kn)%nat) s.

(** ** Text *)

Definition delimiter : ascii := ","%char.
Definition quotechar : ascii := "034"%char.
Definition LF : ascii := "010"%char.
Definition CR : ascii := "013"%char.
Definition SPACE : ascii := " "%char.
Definition TAB : ascii := "009"%char.
Definition NUL : ascii := "000"%char.

Fixpoint string_forallb (p : ascii -> bool) (s : string) : bool :=
  match s with
  | EmptyString => true
  | String c r => p c && string_forallb p r
  end.

Fixpoint string_existsb (p : ascii -> bool) (s : string) : bool :=
  match s with
  | EmptyString => false
  | String c r => p c || string_existsb p r
  end.

Definition is_empty (s : string) : bool :=
  match s with EmptyString => true | _ => false end.

(** [s.endswith(suffix)] *)
Fixpoint ends_with (suffix s : string) : bool :=
  String.eqb s suffix
  || match s with
     | EmptyString => false
     | String _ r => ends_with suffix r
     end.

Fixpoint unlines (ls : list string) : string :=
  match ls with
  | [] => EmptyString
  | l :: ls' => l ++ String "010"%char (unlines ls')
  end.

(** [str(z)] *)
Definition str_of_int (z : Z) : string :=
  NilZero.string_of_int (Z.to_int z).

(** ** Writing CSV: [DataFrame.to_csv] *)

(** The text of a cell; a missing value is written as the empty field
    ([na_rep] is left at its default). *)
Definition cell_text (c : cell) : string :=
  match c with
  | CInt z => str_of_int z
  | CStr s => s
  | CNaN => EmptyString
  | CFloat numeral => numeral
  | CBool true => "True"
  | CBool false => "False"
  end.

(** pandas hands the rows to Python's [csv.writer] with minimal quoting
    and the line terminator of the platform, a line feed.  A field is
    quoted when it holds the delimiter, the quote character or a character
    of the line terminator; quote characters inside it are doubled.
    (Whether a NUL in a field makes the writer quote it depends on the
    version of Python; it is written without quotes here, and the parser
    stops reading the field at the NUL in either case.) *)
Definition special (c : ascii) : bool :=
  Ascii.eqb c delimiter || Ascii.eqb c quotechar || Ascii.eqb c LF.

Definition needs_quoting (s : string) : bool := string_existsb special s.

Fixpoint double_quotes (s : string) : string :=
  match s with
  | EmptyString => EmptyString
  | String c r =>
      if Ascii.eqb c quotechar
      then String quotechar (String quotechar (double_quotes r))
      else String c (double_quotes r)
  end.

Definition write_field (s : string) : string :=
  if needs_quoting s
  then String quotechar (double_quotes s ++ String quotechar EmptyString)
  else s.

Fixpoint join_fields (fs : list string) : string :=
  match fs with
  | [] => EmptyString
  | [f] => f
  | f :: fs' => f ++ String delimiter (join_fields fs')
  end.

(** A record of one empty field is written as a pair of quotes, so that
    the line is not blank. *)
Definition writerow (fields : list string) : string :=
  match fields with
  | [EmptyString] => String quotechar (String quotechar (String LF EmptyString))
  | _ => join_fields (map write_field fields) ++ String LF EmptyString
  end.

Fixpoint writerows (records : list (list string)) : string :=
  match records with
  | [] => EmptyString
  | r :: rs => writerow r ++ writerows rs
  end.

(** The CSV text of a frame with [index=None]: the header line, then one
    line per row, without the index labels. *)
Definition to_csv_text (df : DataFrame) : string :=
  writerows (columns df :: map (fun r : row => map cell_text (snd r)) (rows df)).

(** ** Reading CSV: [pandas.read_csv] *)

(** *** The tokenizer

    The states of the C tokenizer that the default options reach (no
    comment character, no escape character, quoting minimal, blank lines
    skipped). *)
Inductive tstate : Type :=
| START_RECORD
| START_FIELD
| IN_FIELD
| IN_QUOTED_FIELD
| QUOTE_IN_QUOTED_FIELD
| EAT_CRNL
| EAT_CRNL_NOP
| WHITESPACE_LINE.

Record tokenizer : Type := mkTokenizer {
  state : tstate;
  word : string;              (* the field being read *)
  line : list string;         (* the fields of the line being read *)
  lines : list (list string)  (* the lines read *)
}.

Definition set_state (st : tstate) (t : tokenizer) : tokenizer :=
  mkTokenizer st (word t) (line t) (lines t).

Definition push_char (c : ascii) (t : tokenizer) : tokenizer :=
  mkTokenizer (state t) (word t ++ String c EmptyString) (line t) (lines t).

Definition end_field (t : tokenizer) : tokenizer :=
  mkTokenizer (state t) EmptyString (line t ++ [word t]) (lines t).

Definition end_line (t : tokenizer) : tokenizer :=
  mkTokenizer START_RECORD EmptyString [] (lines t ++ [line t]).

Definition drop_word (t : tokenizer) : tokenizer :=
  mkTokenizer (state t) EmptyString (line t) (lines t).

Definition is_blank (c : ascii) : bool :=
  Ascii.eqb c SPACE || Ascii.eqb c TAB.

Definition start_field (t : tokenizer) (c : ascii) : tokenizer :=
  if Ascii.eqb c LF then end_line (end_field t)
  else if Ascii.eqb c CR then set_state EAT_CRNL (end_field t)
  else if Ascii.eqb c quotechar then set_state IN_QUOTED_FIELD t
  else if Ascii.eqb c delimiter then set_state START_FIELD (end_field t)
  else set_state IN_FIELD (push_char c t).

Definition in_field (t : tokenizer) (c : ascii) : tokenizer :=
  if Ascii.eqb c LF then end_line (end_field t)
  else if Ascii.eqb c CR then set_state EAT_CRNL (end_field t)
  else if Ascii.eqb c delimiter then set_state START_FIELD (end_field t)
  else set_state IN_FIELD (push_char c t).

(** A line that is empty or holds only blanks is skipped.  The tokenizer
    reads on through leading blanks and, when the line turns out to hold
    more, goes back to its start; here the blanks are kept in [word], so
    that going back is going on inside the field they begin.  (The
    tokenizer goes back to the last line feed, or to the start of its
    buffer.  After a line that a lone carriage return ended that is
    further back than the start of the line; this case is not modelled,
    and no theorem is about text with a carriage return outside quotes
    followed by a blank.) *)
Definition start_record (t : tokenizer) (c : ascii) : tokenizer :=
  if Ascii.eqb c LF then set_state START_RECORD t
  else if Ascii.eqb c CR then set_state EAT_CRNL_NOP t
  else if is_blank c then set_state WHITESPACE_LINE (push_char c t)
  else start_field t c.

Definition whitespace_line (t : tokenizer) (c : ascii) : tokenizer :=
  if Ascii.eqb c LF then set_state START_RECORD (drop_word t)
  else if Ascii.eqb c CR then set_state EAT_CRNL_NOP (drop_word t)
  else if is_blank c then push_char c t
  else in_field t c.

Definition in_quoted_field (t : tokenizer) (c : ascii) : tokenizer :=
  if Ascii.eqb c quotechar then set_state QUOTE_IN_QUOTED_FIELD t
  else push_char c t.

Definition quote_in_quoted_field (t : tokenizer) (c : ascii) : tokenizer :=
  if Ascii.eqb c quotechar then set_state IN_QUOTED_FIELD (push_char c t)
  else if Ascii.eqb c delimiter then set_state START_FIELD (end_field t)
  else if Ascii.eqb c LF then end_line (end_field t)
  else if Ascii.eqb c CR then set_state EAT_CRNL (end_field t)
  else set_state IN_FIELD (push_char c t).

(** After a carriage return that ended a line: a line feed belongs to the
    same line end, any other character is the first of the next line. *)
Definition eat_crnl (t : tokenizer) (c : ascii) : tokenizer :=
  if Ascii.eqb c LF then end_line t
  else start_record (end_line t) c.

(** After a carriage return that ended a skipped line. *)
Definition eat_crnl_nop (t : tokenizer) (c : ascii) : tokenizer :=
  if Ascii.eqb c LF || Ascii.eqb c delimiter then set_state START_RECORD t
  else start_record (set_state START_RECORD t) c.

Definition step (t : tokenizer) (c : ascii) : tokenizer :=
  match state t with
  | START_RECORD => start_record t c
  | START_FIELD => start_field t c
  | IN_FIELD => in_field t c
  | IN_QUOTED_FIELD => in_quoted_field t c
  | QUOTE_IN_QUOTED_FIELD => quote_in_quoted_field t c
  | EAT_CRNL => eat_crnl t c
  | EAT_CRNL_NOP => eat_crnl_nop t c
  | WHITESPACE_LINE => whitespace_line t c
  end.

Fixpoint feed (t : tokenizer) (text : string) : tokenizer :=
  match text with
  | EmptyString => t
  | String c rest => feed (step t c) rest
  end.

(** At the end of the input the open field and line are closed; the end
    inside a quoted field is an error. *)
Definition handle_eof (t : tokenizer) : result (list (list string)) :=
  match state t with
  | START_RECORD | WHITESPACE_LINE | EAT_CRNL_NOP => ret (lines t)
  | IN_QUOTED_FIELD => raise (ParserError "EOF inside string")
  | START_FIELD | IN_FIELD | QUOTE_IN_QUOTED_FIELD =>
      ret (lines (end_line (end_field t)))
  | EAT_CRNL => ret (lines (end_line t))
  end.

Definition tokenize (text : string) : result (list (list string)) :=
  handle_eof (feed (mkTokenizer START_RECORD EmptyString [] []) text).

(** *** Missing values and dtypes *)

(** The fields read as missing ([keep_default_na] is left on). *)
Definition NA_VALUES : list string :=
  [ EmptyString; "#N/A"; "#N/A N/A"; "#NA"; "-1.#IND"; "-1.#QNAN"; "-NaN";
    "-nan"; "1.#IND"; "1.#QNAN"; "<NA>"; "N/A"; "NA"; "NULL"; "NaN";
    "n/a"; "nan"; "null" ].

Definition is_na_value (s : string) : bool :=
  existsb (String.eqb s) NA_VALUES.

Definition TRUE_VALUES : list string := [ "True"; "TRUE"; "true" ].
Definition FALSE_VALUES : list string := [ "False"; "FALSE"; "false" ].

Definition is_space (c : ascii) : bool :=
  let n := nat_of_ascii c in
  (n =? 32)%nat || ((9 <=? n)%nat && (n <=? 13)%nat).

Definition is_digit (c : ascii) : bool :=
  let n := nat_of_ascii c in
  (48 <=? n)%nat && (n <=? 57)%nat.

Fixpoint skip_spaces (s : string) : string :=
  match s with
  | String c r => if is_space c then skip_spaces r else s
  | EmptyString => s
  end.

Definition skip_sign (s : string) : bool * string :=
  match s with
  | String c r =>
      if Ascii.eqb c "-"%char then (true, r)
      else if Ascii.eqb c "+"%char then (false, r)
      else (false, s)
  | EmptyString => (false, s)
  end.

(** The leading digits of [s] and what follows them. *)
Fixpoint span_digits (s : string) : string * string :=
  match s with
  | String c r =>
      if is_digit c
      then let (ds, rest) := span_digits r in (String c ds, rest)
      else (EmptyString, s)
  | EmptyString => (EmptyString, s)
  end.

Definition INT64_MIN : Z := - 2 ^ 63.
Definition INT64_MAX : Z := 2 ^ 63 - 1.

Definition in_int64 (z : Z) : bool :=
  (INT64_MIN <=? z) && (z <=? INT64_MAX).

(** The integer converter: blanks, a sign, digits, blanks, and nothing
    else; a value outside [int64] is refused. *)
Definition str_to_int64 (s : string) : option Z :=
  let (negative, p) := skip_sign (skip_spaces s) in
  let (ds, rest) := span_digits p in
  if is_empty ds then None
  else if negb (is_empty (skip_spaces rest)) then None
  else match NilEmpty.uint_of_string ds with
       | Some d =>
           let v := if negative then - Z.of_uint d else Z.of_uint d in
           if in_int64 v then Some v else None
       | None => None
       end.

Definition to_lower (c : ascii) : ascii :=
  let n := nat_of_ascii c in
  if (65 <=? n)%nat && (n <=? 90)%nat then ascii_of_nat (n + 32) else c.

Fixpoint lower (s : string) : string :=
  match s with
  | EmptyString => EmptyString
  | String c r => String (to_lower c) (lower r)
  end.

Definition INFINITIES : list string :=
  [ "inf"; "+inf"; "-inf"; "infinity"; "+infinity"; "-infinity" ].

(** The shape of what the float converter accepts: blanks, a sign, digits
    with an optional decimal point and at least one digit, an optional
    exponent with at least one digit, blanks; or an infinity in any case.
    The converter also refuses numerals too large for a double; that
    bound is not modelled, so this is the converter's shape only. *)
Definition float_like (s : string) : bool :=
  let (_, p) := skip_sign (skip_spaces s) in
  let (ds1, p) := span_digits p in
  let (ds2, p) :=
    match p with
    | String c r => if Ascii.eqb c "."%char then span_digits r
                    else (EmptyString, p)
    | EmptyString => (EmptyString, p)
    end in
  let mantissa_ok := negb (is_empty ds1 && is_empty ds2) in
  let (exponent_ok, p) :=
    match p with
    | String c r =>
        if Ascii.eqb (to_lower c) "e"%char
        then let (_, r') := skip_sign r in
             let (ds3, r'') := span_digits r' in
             (negb (is_empty ds3), r'')
        else (true, p)
    | EmptyString => (true, p)
    end in
  (mantissa_ok && exponent_ok && is_empty (skip_spaces p))
  || existsb (String.eqb (lower s)) INFINITIES.

Definition bool_like (s : string) : bool :=
  existsb (String.eqb s) TRUE_VALUES || existsb (String.eqb s) FALSE_VALUES.

Inductive dtype : Type := int64 | float64 | bool_ | object_.

(** The dtypes are tried in this order on the fields of a column: [int64]
    takes no missing value, the others do; a column without rows is left
    as [object].  (After a numeral beyond [int64] pandas tries [uint64]
    before it goes on; that path is not modelled, such a column is taken
    for [float64] here, and no theorem is about numerals beyond
    [int64].) *)
Definition infer_dtype (fields : list string) : dtype :=
  match fields with
  | [] => object_
  | _ =>
    if forallb (fun s => negb (is_na_value s)
                           && match str_to_int64 s with
                              | Some _ => true
                              | None => false
                              end) fields
    then int64
    else if forallb (fun s => is_na_value s || float_like s) fields
    then float64
    else if forallb (fun s => is_na_value s || bool_like s) fields
    then bool_
    else object_
  end.

Definition convert (t : dtype) (s : string) : cell :=
  if is_na_value s then CNaN
  else match t with
       | int64 => match str_to_int64 s with
                  | Some z => CInt z
                  | None => CNaN
                  end
       | float64 => CFloat s
       | bool_ => CBool (existsb (String.eqb s) TRUE_VALUES)
       | object_ => CStr s
       end.

(** *** The parser *)

(** A line shorter than the header is filled up with missing fields, a
    longer one is an error.  (pandas reads the surplus fields of a longer
    first line as row labels; that case is not modelled.) *)
Definition fit (width : nat) (fields : list string) : result (list string) :=
  if (width <? length fields)%nat
  then raise (ParserError "Expected fewer fields")
  else ret (fields ++ repeat EmptyString (width - length fields)).

Definition column_fields (j : nat) (body : list (list string)) : list string :=
  map (fun l => nth j l EmptyString) body.

Fixpoint convert_row (dtypes : list dtype) (fields : list string) : list cell :=
  match dtypes, fields with
  | t :: ts, f :: fs => convert t f :: convert_row ts fs
  | _, _ => []
  end.

(** Row labels [0, 1, 2, ...] *)
Fixpoint range_index (start : Z) (cells : list (list cell)) : list row :=
  match cells with
  | [] => []
  | c :: cs => (start, c) :: range_index (start + 1) cs
  end.


(** The parser holds a field as a C string: what follows a NUL character
    in it is not read. *)
Fixpoint c_string (s : string) : string :=
  match s with
  | EmptyString => EmptyString
  | String c r => if Ascii.eqb c NUL then EmptyString else String c (c_string r)
  end.

(** *** Reading in chunks

    With [low_memory] left on, the parser converts the rows in chunks of
    [buffer_lines] rows and infers the dtypes chunk by chunk.  The number
    is the largest power of two whose double is below 2^20 divided by the
    number of columns: [while buffer_lines * 2 < heuristic]. *)
Fixpoint double_while (fuel : nat) (lines heuristic : Z) : Z :=
  match fuel with
  | O => lines
  | S fuel' =>
      if lines * 2 <? heuristic
      then double_while fuel' (lines * 2) heuristic
      else lines
  end.

(** The loop ends within twenty rounds, the heuristic being 2^20 at
    most. *)
Definition buffer_lines (width : nat) : nat :=
  Z.to_nat (double_while 20 1 (2 ^ 20 / Z.of_nat width)).

Fixpoint chunks_of {A} (fuel n : nat) (l : list A) : list (list A) :=
  match fuel, l with
  | _, [] => []
  | O, _ => [l]
  | S fuel', _ => firstn n l :: chunks_of fuel' n (skipn n l)
  end.

(** The rows in chunks of [n]. *)
Definition chunks {A} (n : nat) (l : list A) : list (list A) :=
  chunks_of (length l) n l.

(** The dtype of the array that a chunk gives for a column: truth values
    with a missing value among them are kept in an array of objects. *)
Definition array_dtype (fields : list string) : dtype :=
  match infer_dtype fields with
  | bool_ => if existsb is_na_value fields then object_ else bool_
  | t => t
  end.

(** The chunks are joined by [numpy.concatenate], which finds the dtype
    of the result by promotion: objects take all, then numbers with a
    point, then whole numbers, then truth values. *)
Definition promote (t1 t2 : dtype) : dtype :=
  match t1, t2 with
  | object_, _ | _, object_ => object_
  | float64, _ | _, float64 => float64
  | int64, _ | _, int64 => int64
  | bool_, bool_ => bool_
  end.

Definition result_dtype (ts : list dtype) : dtype :=
  match ts with
  | [] => object_
  | t :: ts' => fold_left promote ts' t
  end.

(** A value in an array of dtype [t].  A whole number among numbers with
    a point becomes the nearest of them, named here by its own numeral as
    a number with a point is by the numeral it was read from, and a truth
    value among numbers becomes 1 or 0; in an array of objects every value
    stays what it is. *)
Definition cast (t : dtype) (c : cell) : cell :=
  match t, c with
  | float64, CInt z => CFloat (str_of_int z)
  | float64, CBool true => CFloat "1"
  | float64, CBool false => CFloat "0"
  | int64, CBool true => CInt 1
  | int64, CBool false => CInt 0
  | _, _ => c
  end.

Fixpoint cast_row (ts : list dtype) (cells : list cell) : list cell :=
  match ts, cells with
  | t :: ts', c :: cs => cast t c :: cast_row ts' cs
  | _, _ => []
  end.

(** The dtypes that a chunk infers, column by column. *)
Definition chunk_dtypes (width : nat) (chunk : list (list string))
  : list dtype :=
  map (fun j => infer_dtype (column_fields j chunk)) (seq 0 width).

(** The dtypes of the columns of the result. *)
Definition common_dtypes (width : nat) (cs : list (list (list string)))
  : list dtype :=
  map (fun j =>
         result_dtype (map (fun chunk => array_dtype (column_fields j chunk)) cs))
      (seq 0 width).

Definition convert_chunk (width : nat) (common : list dtype)
    (chunk : list (list string)) : list (list cell) :=
  map (fun fields =>
         cast_row common (convert_row (chunk_dtypes width chunk) fields))
      chunk.

Definition convert_body (width : nat) (body : list (list string))
  : list (list cell) :=
  let cs := chunks (buffer_lines width) body in
  concat (map (convert_chunk width (common_dtypes width cs)) cs).

(** The first line read is the header.  (The renaming of repeated and of
    empty labels is not modelled.) *)
Definition read_csv_text (text : string) : result DataFrame :=
  all <- tokenize text ;;
  match map (map c_string) all with
  | [] => raise EmptyDataError
  | header :: data =>
      body <- mapM (fit (length header)) data ;;
      ret (mkDataFrame header
             (range_index 0 (convert_body (length header) body)))
  end.

(** ** Files *)

(** A file is plain text or a zip archive, given by its members.  The
    archive keeps its payload as it is: compression loses nothing and is
    not modelled further. *)
Inductive file : Type :=
| Plain (text : string)
| ZipArchive (members : list (string * string)).

Definition fs : Type := list (string * file).

Fixpoint fs_lookup (disk : fs) (path : string) : option file :=
  match disk with
  | [] => None
  | (p, f) :: disk' => if String.eqb p path then Some f else fs_lookup disk' path
  end.

Definition fs_write (disk : fs) (path : string) (f : file) : fs :=
  (path, f) :: disk.

(** [df.to_csv(path, index=None, compression="zip")]: one archive with one
    member, named like the archive.  (Later versions of pandas leave the
    ending [.zip] out of the name of the member; [read_csv] reads the one
    member whatever its name.)  [os_open] is the operating system's answer
    to opening [path] for writing. *)
Definition to_csv (os_open : string -> option exn) (disk : fs)
    (path : string) (df : DataFrame) : result fs :=
  match os_open path with
  | Some e => raise e
  | None => ret (fs_write disk path (ZipArchive [(path, to_csv_text df)]))
  end.

(** [pd.read_csv(path)]: the compression is inferred from the extension. *)
Definition read_csv (disk : fs) (path : string) : result DataFrame :=
  match fs_lookup disk path with
  | None => raise (FileNotFoundError path)
  | Some f =>
      if ends_with ".zip" path then
        match f with
        | ZipArchive [(_, payload)] => read_csv_text payload
        | ZipArchive [] => raise (ValueError "Zero files found in ZIP file")
        | ZipArchive _ => raise (ValueError "Multiple files found in ZIP file")
        | Plain _ => raise BadZipFile
        end
      else
        match f with
        | Plain text => read_csv_text text
        | ZipArchive _ => raise (ParserError "not text")
        end
  end.

(** ** The collaborators *)

(** The remote session: what its two listings answer. *)
Record Remote : Type := mkRemote {
  all_structures : result DataFrame;
  all_ligands : result DataFrame
}.

Record date : Type := mkDate {
  year : Z;
  month : Z;
  day : Z
}.

Record Env : Type := mkEnv {
  setup_remote : result Remote;       (* opencadd.databases.klifs.api *)
  today : date;                       (* date.today() *)
  os_open : string -> option exn;     (* opening a path for writing *)
  files : fs                          (* the files at the start *)
}.

(** Zeros in front, up to [width] characters. *)
Definition zfill (width : nat) (s : string) : string :=
  string_of_list_ascii (repeat "0"%char (width - String.length s)) ++ s.

(** [d.strftime('%Y%m%d')].  The month and the day are padded to two
    digits; the year is printed as the C library prints it, unpadded. *)
Definition strftime_Ymd (d : date) : string :=
  str_of_int (year d) ++ zfill 2 (str_of_int (month d))
                      ++ zfill 2 (str_of_int (day d)).

(** ** The notebook *)

Definition ID_COLUMNS : list string :=
  [ "structure.klifs_id"; "structure.pdb_id"; "structure.alternate_model";
    "structure.chain"; "kinase.klifs_name"; "kinase.klifs_id";
    "ligand.expo_id" ].

Definition STRUCTURE_KEY : list string :=
  [ "structure.pdb_id"; "structure.alternate_model"; "structure.chain" ].

(** What a cell prints or shows. *)
Inductive display : Type :=
| Text (s : string)
| ShapeOf (size : nat * nat)
| Frame (df : DataFrame)
| Sizes (s : sizes_t).

(** The variables of the kernel, the disk and the output so far. *)
Record Notebook : Type := mkNotebook {
  remote : option Remote;
  structures_all : option DataFrame;
  sizes : option sizes_t;
  filename : option string;
  ligands_all : option DataFrame;
  disk : fs;
  output : list display
}.

Definition initial (env : Env) : Notebook :=
  mkNotebook None None None None None (files env) [].

Definition var {A} (name : string) (v : option A) : result A :=
  match v with
  | Some a => ret a
  | None => raise (NameError name)
  end.

(** [remote = setup_remote()] *)
Definition cell_2 (env : Env) (nb : Notebook) : result Notebook :=
  r <- setup_remote env ;;
  ret (mkNotebook (Some r) (structures_all nb) (sizes nb) (filename nb)
                  (ligands_all nb) (disk nb) (output nb)).

(** Fetch all structures, keep the ID columns, sort by structure ID in
    place, print the shape and show the head. *)
Definition cell_4 (nb : Notebook) : result Notebook :=
  r <- var "remote" (remote nb) ;;
  fetched <- all_structures r ;;
  projected <- getitem_columns ID_COLUMNS fetched ;;
  sorted <- sort_values "structure.klifs_id" projected ;;
  ret (mkNotebook (remote nb) (Some sorted) (sizes nb) (filename nb)
                  (ligands_all nb) (disk nb)
                  (output nb ++ [ShapeOf (shape sorted); Frame (head 5 sorted)])).

(** The sanity check on the structures. *)
Definition cell_5 (nb : Notebook) : result Notebook :=
  let banner :=
    Text "Sanity check: Are there multiple structure KLIFS IDs for one KLIFS structure?" in
  df <- var "structures_all" (structures_all nb) ;;
  s <- groupby_size STRUCTURE_KEY df ;;
  let report :=
    if (0 <? length (larger_than_one s))%nat
    then Sizes (larger_than_one s)
    else Text "All good!" in
  ret (mkNotebook (remote nb) (structures_all nb) (Some s) (filename nb)
                  (ligands_all nb) (disk nb)
                  (output nb ++ [banner; report])).

(** Save the local copy of the KLIFS IDs. *)
Definition cell_6 (env : Env) (nb : Notebook) : result Notebook :=
  let name := ("klifs_ids." ++ strftime_Ymd (today env) ++ ".csv.zip")%string in
  df <- var "structures_all" (structures_all nb) ;;
  disk' <- to_csv (os_open env) (disk nb) name df ;;
  ret (mkNotebook (remote nb) (structures_all nb) (sizes nb) (Some name)
                  (ligands_all nb) disk' (output nb)).

(** Load the file and show its head. *)
Definition cell_8 (nb : Notebook) : result Notebook :=
  name <- var "filename" (filename nb) ;;
  loaded <- read_csv (disk nb) name ;;
  ret (mkNotebook (remote nb) (structures_all nb) (sizes nb) (filename nb)
                  (ligands_all nb) (disk nb)
                  (output nb ++ [Frame (head 5 loaded)])).

(** [ligands_all = remote.ligands.all_ligands()] *)
Definition cell_10 (nb : Notebook) : result Notebook :=
  r <- var "remote" (remote nb) ;;
  fetched <- all_ligands r ;;
  ret (mkNotebook (remote nb) (structures_all nb) (sizes nb) (filename nb)
                  (Some fetched) (disk nb) (output nb)).

(** The labels of a series of sizes grouped by one column. *)
Definition sizes_index (s : sizes_t) : list cell :=
  map (fun kn => hd CNaN (fst kn)) s.

(** [series.isin(values)], for one element. *)
Definition isin (values : list cell) (c : cell) : bool :=
  existsb (cell_eqb c) values.

(** The sanity check on the ligands: the rows whose expo ID several
    ligands share, reduced to the two ID columns and sorted by expo ID. *)
Definition cell_11 (nb : Notebook) : result Notebook :=
  let banner :=
    Text "Sanity check: Are there multiple ligand KLIFS IDs for one ligand PDB?" in
  df <- var "ligands_all" (ligands_all nb) ;;
  s <- groupby_size ["ligand.expo_id"] df ;;
  report <-
    (if (0 <? length (larger_than_one s))%nat
     then
       p <- locate_unique (columns df) "ligand.expo_id" ;;
       let ambiguous :=
         getitem_mask
           (fun r => isin (sizes_index (larger_than_one s)) (key_at p r)) df in
       ids <- getitem_columns ["ligand.klifs_id"; "ligand.expo_id"] ambiguous ;;
       sorted <- sort_values "ligand.expo_id" ids ;;
       ret [Frame sorted; Text "These PDB IDs need to be check manually!"]
     else ret [Text "All good!"]) ;;
  ret (mkNotebook (remote nb) (structures_all nb) (Some s) (filename nb)
                  (ligands_all nb) (disk nb)
                  (output nb ++ banner :: report)).

(** The code cells in their order, up to the check on the ligands.  (The
    last two cells of the notebook show the structures of two expo IDs;
    they are [cell_12] and [cell_14] below, and [all_cells] has them.) *)
Definition cells (env : Env) : list (Notebook -> result Notebook) :=
  [ cell_2 env; cell_4; cell_5; cell_6 env; cell_8; cell_10; cell_11 ].

(** Running cells one after the other; nothing catches an exception. *)
Fixpoint run_cells (cs : list (Notebook -> result Notebook)) (nb : Notebook)
  : result Notebook :=
  match cs with
  | [] => ret nb
  | c :: cs' => nb' <- c nb ;; run_cells cs' nb'
  end.

Definition run_all (env : Env) : result Notebook :=
  run_cells (cells env) (initial env).


(** ** The scenario of the five seeded structures *)

(** The cells of the first five structures, as the notebook shows them. *)
Definition SEEDED : list (list cell) :=
  [ [CInt 1; CStr "3dko"; CStr "A"; CStr "A"; CStr "EphA7"; CInt 415; CStr "IHZ"];
    [CInt 2; CStr "2rei"; CStr "B"; CStr "A"; CStr "EphA7"; CInt 415; CStr "-"];
    [CInt 3; CStr "3dko"; CStr "B"; CStr "A"; CStr "EphA7"; CInt 415; CStr "IHZ"];
    [CInt 4; CStr "2rei"; CStr "A"; CStr "A"; CStr "EphA7"; CInt 415; CStr "-"];
    [CInt 5; CStr "3v8t"; CStr "B"; CStr "A"; CStr "ITK"; CInt 474; CStr "477"] ].

Definition HEADER_LINE : string :=
  "structure.klifs_id,structure.pdb_id,structure.alternate_model,structure.chain,kinase.klifs_name,kinase.klifs_id,ligand.expo_id".

Definition SEEDED_LINES : list string :=
  [ "1,3dko,A,A,EphA7,415,IHZ";
    "2,2rei,B,A,EphA7,415,-";
    "3,3dko,B,A,EphA7,415,IHZ";
    "4,2rei,A,A,EphA7,415,-";
    "5,3v8t,B,A,ITK,474,477" ].

(** The CSV text of records, as the file format has it when no field
    needs quotes: the fields of a record with commas between them, every
    record ended by a line feed.  This is the format itself, not the
    writer; the writer is compared with it. *)
Definition plain_csv (records : list (list string)) : string :=
  String.concat EmptyString
    (map (fun fields =>
            (String.concat "," fields ++ String LF EmptyString)%string)
         records).

(** The structure ID of a row of the projected table. *)
Definition structure_id (cells : list cell) : cell := nth 0 cells CNaN.

(** ** Reading the tables back *)

(** The cell of a row under the column at position [j]. *)
Definition cell_at (j : nat) (r : row) : cell := nth j (snd r) CNaN.

(** A row of [df] has the values of a row of [source]: the same index
    label and, under every column label of [df], a cell that the source
    row has under that label. *)
Definition as_fetched (source df : DataFrame) (r : row) : Prop :=
  exists r0,
    In r0 (rows source)
    /\ fst r0 = fst r
    /\ forall j label,
        nth_error (columns df) j = Some label ->
        exists j0,
          nth_error (columns source) j0 = Some label
          /\ cell_at j r = cell_at j0 r0.

(** ** An example session

    The structures as the remote session lists them, unsorted and with a
    column that is not an ID; the ligands with the two expo IDs that the
    notebook finds shared. *)
Definition EXAMPLE_STRUCTURES : DataFrame :=
  mkDataFrame
    [ "structure.klifs_id"; "structure.pdb_id"; "structure.alternate_model";
      "structure.chain"; "species.klifs"; "kinase.klifs_name";
      "kinase.klifs_id"; "ligand.expo_id" ]
    [ (4236, [CInt 9564; CStr "5t31"; CStr "-"; CStr "B"; CStr "Human";
              CStr "GSK3B"; CInt 238; CStr "6VL"]);
      (7670, [CInt 1; CStr "3dko"; CStr "A"; CStr "A"; CStr "Human";
              CStr "EphA7"; CInt 415; CStr "IHZ"]);
      (7671, [CInt 4; CStr "2rei"; CStr "A"; CStr "A"; CStr "Human";
              CStr "EphA7"; CInt 415; CStr "-"]);
      (7672, [CInt 3; CStr "3dko"; CStr "B"; CStr "A"; CStr "Human";
              CStr "EphA7"; CInt 415; CStr "IHZ"]);
      (7673, [CInt 2; CStr "2rei"; CStr "B"; CStr "A"; CStr "Human";
              CStr "EphA7"; CInt 415; CStr "-"]);
      (9567, [CInt 5; CStr "3v8t"; CStr "B"; CStr "A"; CStr "Human";
              CStr "ITK"; CInt 474; CStr "477"]) ].

Definition EXAMPLE_LIGANDS : DataFrame :=
  mkDataFrame
    [ "ligand.klifs_id"; "ligand.expo_id"; "ligand.name" ]
    [ (64, [CInt 65; CStr "7KC"; CStr "ligand 65"]);
      (476, [CInt 477; CStr "IHZ"; CStr "ligand 477"]);
      (2713, [CInt 3015; CStr "6VL"; CStr "ligand 3015"]);
      (2759, [CInt 3065; CStr "6VL"; CStr "ligand 3065"]);
      (2881, [CInt 2967; CStr "7KC"; CStr "ligand 2967"]) ].

Definition EXAMPLE_REMOTE : Remote :=
  mkRemote (inr EXAMPLE_STRUCTURES) (inr EXAMPLE_LIGANDS).

Definition EXAMPLE_ENV : Env :=
  mkEnv (inr EXAMPLE_REMOTE) (mkDate 2020 10 2) (fun _ => None) [].

(** The state after the example session has run all cells. *)
Definition EXAMPLE_RUN : Notebook :=
  Eval vm_compute in
    match run_all EXAMPLE_ENV with
    | inr nb => nb
    | inl _ => initial EXAMPLE_ENV
    end.

Definition EXAMPLE_TABLE : DataFrame :=
  Eval vm_compute in
    match structures_all EXAMPLE_RUN with
    | Some df => df
    | None => mkDataFrame [] []
    end.

(** A session whose listing of the structures fails, and one whose disk
    cannot be written. *)
Definition FAILING_REMOTE : Remote :=
  mkRemote (inl (Raised "HTTP 503")) (inr EXAMPLE_LIGANDS).

Definition FAILING_ENV : Env :=
  mkEnv (inr FAILING_REMOTE) (mkDate 2020 10 2) (fun _ => None) [].

Definition READ_ONLY_DISK_ENV : Env :=
  mkEnv (inr EXAMPLE_REMOTE) (mkDate 2020 10 2)
        (fun _ => Some (Raised "PermissionError")) [].



(** The structures of the example session after the projection, before
    the sort. *)
Definition EXAMPLE_PROJECTED : DataFrame :=
  Eval vm_compute in
    match getitem_columns ID_COLUMNS EXAMPLE_STRUCTURES with
    | inr df => df
    | inl _ => mkDataFrame [] []
    end.

(** ** Groups, as the duplicate checks are meant *)

(** The key of a row under the labels of a grouping. *)
Definition key_of (labels : list string) (df : DataFrame) (r : row)
  : list cell :=
  take_cells (concat (map (fun l => positions l (columns df)) labels)) (snd r).

(** A key without a missing cell. *)
Definition complete (k : list cell) : bool := negb (existsb isna k).

(** The number of rows of [df] whose key is [k]. *)
Definition group_count (labels : list string) (df : DataFrame)
    (k : list cell) : nat :=
  length (filter (fun r => key_eqb (key_of labels df r) k) (rows df)).

(** The size listed for the key [k], 0 when it is not listed. *)
Fixpoint size_of (k : list cell) (s : sizes_t) : nat :=
  match s with
  | [] => 0%nat
  | (k', n) :: s' => if key_eqb k' k then n else size_of k s'
  end.

(** A table with a doubled structure: two structure IDs for chain A of
    model A of 3dko. *)
Definition DOUBLED_TABLE : DataFrame :=
  mkDataFrame ID_COLUMNS
    [ (7670, [CInt 1; CStr "3dko"; CStr "A"; CStr "A"; CStr "EphA7";
              CInt 415; CStr "IHZ"]);
      (7673, [CInt 2; CStr "2rei"; CStr "B"; CStr "A"; CStr "EphA7";
              CInt 415; CStr "-"]);
      (12000, [CInt 11999; CStr "3dko"; CStr "A"; CStr "A"; CStr "EphA7";
               CInt 415; CStr "IHZ"]) ].

Definition DOUBLED_NOTEBOOK : Notebook :=
  mkNotebook None (Some DOUBLED_TABLE) None None None [] [].

(** The two ID cells of a ligand row, as the report shows them. *)
Definition ligand_ids (q p : nat) (r : row) : row :=
  (fst r, [key_at q r; key_at p r]).

Definition LIGAND_NOTEBOOK : Notebook :=
  mkNotebook None None None None (Some EXAMPLE_LIGANDS) [] [].

(** ** Tables that a CSV file gives back *)

(** Text without control characters. *)
Definition is_control (c : ascii) : bool := (nat_of_ascii c <? 32)%nat.

Definition printable (s : string) : bool :=
  string_forallb (fun c => negb (is_control c)) s.

(** The cells of the column at position [j]. *)
Definition column (j : nat) (df : DataFrame) : list cell :=
  map (cell_at j) (rows df).

Definition int64_cell (c : cell) : bool :=
  match c with CInt z => in_int64 z | _ => false end.

(** Text that is not one of the markers of a missing value, or a missing
    value. *)
Definition text_cell (c : cell) : bool :=
  match c with
  | CStr s => negb (is_na_value s)
  | CNaN => true
  | _ => false
  end.

(** A truth value, or a missing value. *)
Definition bool_cell (c : cell) : bool :=
  match c with
  | CBool _ | CNaN => true
  | _ => false
  end.

(** Text that reads as no number. *)
Definition no_number (c : cell) : bool :=
  match c with
  | CStr s =>
      negb (float_like s)
      && match str_to_int64 s with Some _ => false | None => true end
  | _ => false
  end.

(** Text that reads as no truth value. *)
Definition no_truth (c : cell) : bool :=
  match c with
  | CStr s => negb (bool_like s)
  | _ => false
  end.

(** A column that the dtype inference gives back as it was: of [int64]
    numbers; or of truth values and missing values; or of text and
    missing values where no text is a marker of a missing value, some text
    reads as no number and some text reads as no truth value. *)
Definition kept (col : list cell) : bool :=
  forallb int64_cell col
  || forallb bool_cell col
  || (forallb text_cell col && existsb no_number col && existsb no_truth col).

(** A carriage return in a field that is written without quotes: the
    writer quotes a field for a delimiter, a quote character or a line
    feed, and the tokenizer ends the line at a carriage return outside
    quotes. *)
Definition has_char (a : ascii) (s : string) : bool :=
  string_existsb (Ascii.eqb a) s.

Definition bare_cr (s : string) : bool :=
  has_char CR s && negb (needs_quoting s).

(** No text of the table has a carriage return outside quotes. *)
Definition no_bare_cr (df : DataFrame) : Prop :=
  Forall (fun r : row => Forall (fun c => bare_cr (cell_text c) = false) (snd r))
         (rows df).

(** Text that the file gives back character by character: it holds no
    NUL and no carriage return outside quotes. *)
Definition clean (s : string) : bool :=
  negb (has_char NUL s) && negb (bare_cr s).

Definition clean_cells (df : DataFrame) : Prop :=
  Forall (fun r : row => Forall (fun c => clean (cell_text c) = true) (snd r))
         (rows df).

(** The rows that are read in one chunk when the table has seven
    columns. *)
Definition ONE_CHUNK : Z := 131072.

(** A table of the seven ID columns in which every ligand has a numeral
    for its expo ID. *)
Definition NUMERAL_TABLE : DataFrame :=
  mkDataFrame ID_COLUMNS
    [ (9567, [CInt 5; CStr "3v8t"; CStr "B"; CStr "A"; CStr "ITK";
              CInt 474; CStr "477"]) ].


(** A table of the seven ID columns with a carriage return in a kinase
    name and a dash for the ligand. *)
Definition CARRIAGE_TABLE : DataFrame :=
  mkDataFrame ID_COLUMNS
    [ (7673, [CInt 2; CStr "2rei"; CStr "B"; CStr "A";
              CStr ("Eph" ++ String CR "A7")%string; CInt 415; CStr "-"]) ].

(** A table of the seven ID columns with a NUL in an expo ID, and one in
    which every expo ID reads as a truth value. *)
Definition NUL_TABLE : DataFrame :=
  mkDataFrame ID_COLUMNS
    [ (7670, [CInt 1; CStr "3dko"; CStr "A"; CStr "A"; CStr "EphA7";
              CInt 415; CStr ("IH" ++ String NUL "Z")%string]) ].

Definition TRUTH_TABLE : DataFrame :=
  mkDataFrame ID_COLUMNS
    [ (7670, [CInt 1; CStr "3dko"; CStr "A"; CStr "A"; CStr "EphA7";
              CInt 415; CStr "True"]) ].

(** A table of the seven ID columns that is read in two chunks: as many
    rows as a chunk holds with a numeral for the expo ID, then one row
    with letters. *)
Definition NUMERAL_ROW : list cell :=
  [CInt 1; CStr "3v8t"; CStr "B"; CStr "A"; CStr "ITK"; CInt 474; CStr "477"].

Definition LETTER_ROW : list cell :=
  [CInt 2; CStr "3dko"; CStr "A"; CStr "A"; CStr "EphA7"; CInt 415; CStr "IHZ"].

Definition LONG_TABLE : DataFrame :=
  mkDataFrame ID_COLUMNS
    (repeat (0, NUMERAL_ROW) (Z.to_nat ONE_CHUNK) ++ [(1, LETTER_ROW)]).

(** The text cells of a table hold no control character. *)
Definition plain_cell (c : cell) : bool :=
  match c with
  | CStr s | CFloat s => printable s
  | _ => true
  end.

Definition plain_cells (df : DataFrame) : Prop :=
  Forall (fun r : row => Forall (fun c => plain_cell c = true) (snd r))
         (rows df).

(** ** The date in the file name, as the specification words it *)

(** [d.isoformat()]: the year in four digits, the month and the day in
    two, with dashes between. *)
Definition isoformat (d : date) : string :=
  zfill 4 (str_of_int (year d)) ++ "-" ++ zfill 2 (str_of_int (month d))
    ++ "-" ++ zfill 2 (str_of_int (day d)).

Fixpoint without_dashes (s : string) : string :=
  match s with
  | EmptyString => EmptyString
  | String c r =>
      if Ascii.eqb c "-"%char then without_dashes r
      else String c (without_dashes r)
  end.

(** A date of the current era: a year of four digits, a month, a day. *)
Definition current (d : date) : Prop :=
  1000 <= year d <= 9999 /\ 1 <= month d <= 12 /\ 1 <= day d <= 31.

(** The state in which the save cell finds the example session. *)
Definition EXAMPLE_BEFORE_SAVE : Notebook :=
  mkNotebook None (Some EXAMPLE_TABLE) None None None [] [].

Definition EXAMPLE_SAVED : Notebook :=
  Eval vm_compute in
    match cell_6 EXAMPLE_ENV EXAMPLE_BEFORE_SAVE with
    | inr nb => nb
    | inl _ => EXAMPLE_BEFORE_SAVE
    end.

(** ** Notions of the proofs *)

(** The listing is a table: no key twice, no missing cell in a key, no
    size 0. *)
Definition tidy (s : sizes_t) : Prop :=
  NoDup (map fst s)
  /\ Forall (fun kn => complete (fst kn) = true /\ (1 <= snd kn)%nat) s.

(** The state of the variables with respect to what the remote session
    [r] answers: the structures are the fetched table, projected and
    sorted; the ligands are the fetched table; the file named by
    [filename] holds the structures. *)
Record consistent (r : Remote) (nb : Notebook) : Prop := mkConsistent {
  remote_ok : forall r', remote nb = Some r' -> r' = r;
  structures_ok : forall df,
    structures_all nb = Some df ->
    exists fetched projected,
      all_structures r = inr fetched
      /\ getitem_columns ID_COLUMNS fetched = inr projected
      /\ sort_values "structure.klifs_id" projected = inr df;
  ligands_ok : forall df,
    ligands_all nb = Some df -> all_ligands r = inr df;
  file_ok : forall name,
    filename nb = Some name ->
    exists df,
      structures_all nb = Some df
      /\ fs_lookup (disk nb) name = Some (ZipArchive [(name, to_csv_text df)])
}.

(** A character that neither ends a field nor opens a quoted one. *)
Definition ordinary (c : ascii) : bool :=
  negb (Ascii.eqb c LF) && negb (Ascii.eqb c CR)
  && negb (Ascii.eqb c delimiter) && negb (Ascii.eqb c quotechar).

(** Inside an unquoted field, or in the blanks that may begin one. *)
Definition in_word (st : tstate) : Prop :=
  st = IN_FIELD \/ st = WHITESPACE_LINE.

(** The start of a field: of any, or of the first of a line. *)
Definition at_start (st : tstate) : Prop :=
  st = START_FIELD \/ st = START_RECORD.

(** A field that the writer can write and the tokenizer reads back:
    one that gets quoted, or one in which every character is ordinary. *)
Definition readable (f : string) : Prop :=
  needs_quoting f = true \/ string_forallb ordinary f = true.

(** A record the tokenizer reads back: two fields or more, all readable. *)
Definition readable_record (fields : list string) : Prop :=
  (2 <= length fields)%nat /\ Forall readable fields.

(** The fields of the rows of a table, and the dtypes inferred from them
    column by column. *)
Definition texts (df : DataFrame) : list (list string) :=
  map (fun r : row => map cell_text (snd r)) (rows df).

Definition inferred (df : DataFrame) : list dtype :=
  map (fun j => infer_dtype (column_fields j (texts df)))
      (seq 0 (length (columns df))).

(** The decimal text of [z] has [width] characters, all digits. *)
Definition digits_wide (width : nat) (s : string) : bool :=
  (String.length s =? width)%nat && string_forallb is_digit s.

(** The row that the parser gives for the fields of a line: the fields
    converted with the dtypes of a chunk that holds the line, and cast to
    the dtypes of the result. *)
Definition row_read (w : nat) (cs : list (list (list string)))
    (fields : list string) (cells : list cell) : Prop :=
  exists chunk,
    In chunk cs /\ In fields chunk
    /\ cells = cast_row (common_dtypes w cs)
                 (convert_row (chunk_dtypes w chunk) fields).

(** ** The last two cells *)

(** [df[df[label] == value]]: the rows whose cell under [label] equals
    [value].  With a label that several columns carry, pandas answers a
    frame for [df[label]] and the comparison then masks cells, not rows;
    that case is outside the model, which stops there with the
    [ValueError] of [locate_unique]. *)
Definition getitem_equals (label : string) (value : cell) (df : DataFrame)
  : result DataFrame :=
  p <- locate_unique (columns df) label ;;
  ret (getitem_mask (fun r => cell_eqb (key_at p r) value) df).

(** [structures_all[structures_all["ligand.expo_id"] == expo]], shown. *)
Definition show_expo (expo : string) (nb : Notebook) : result Notebook :=
  df <- var "structures_all" (structures_all nb) ;;
  shown <- getitem_equals "ligand.expo_id" (CStr expo) df ;;
  ret (mkNotebook (remote nb) (structures_all nb) (sizes nb) (filename nb)
                  (ligands_all nb) (disk nb)
                  (output nb ++ [Frame shown])).

Definition cell_12 : Notebook -> result Notebook := show_expo "6VL".
Definition cell_14 : Notebook -> result Notebook := show_expo "7KC".

(** All code cells of the notebook, in their order: those of [cells] and
    the two that show the structures of one expo ID. *)
Definition all_cells (env : Env) : list (Notebook -> result Notebook) :=
  cells env ++ [cell_12; cell_14].

(** ** Notions of the further properties *)

(** The name of the file saved on the day [d]. *)
Definition file_name (d : date) : string :=
  "klifs_ids." ++ strftime_Ymd d ++ ".csv.zip".

(** The variables of two states are the same. *)
Definition same_variables (nb1 nb2 : Notebook) : Prop :=
  remote nb1 = remote nb2
  /\ structures_all nb1 = structures_all nb2
  /\ sizes nb1 = sizes nb2
  /\ filename nb1 = filename nb2
  /\ ligands_all nb1 = ligands_all nb2.

(** A session that finds the file of an earlier day on the disk. *)
Definition EARLIER_FILE : string * file :=
  ("klifs_ids.20200901.csv.zip",
   ZipArchive [("klifs_ids.20200901.csv.zip", HEADER_LINE)]).

Definition LATER_ENV : Env :=
  mkEnv (inr EXAMPLE_REMOTE) (mkDate 2020 10 2) (fun _ => None) [EARLIER_FILE].

(** The key of the structure check: PDB ID, alternate model and chain of
    a row of the projected table. *)
Definition structure_key (r : row) : list cell :=
  [cell_at 1 r; cell_at 2 r; cell_at 3 r].

(** A ligand row whose expo ID, at position [p], is present and is the
    expo ID of more than one row. *)
Definition shared_expo (df : DataFrame) (p : nat) (r : row) : bool :=
  negb (isna (key_at p r))
  && (1 <? group_count ["ligand.expo_id"] df [key_at p r])%nat.

(** A ligands table without the column of the ligand IDs. *)
Definition LIGANDS_WITHOUT_IDS : DataFrame :=
  mkDataFrame [ "ligand.expo_id"; "ligand.name" ]
    [ (2713, [CStr "6VL"; CStr "ligand 3015"]);
      (2759, [CStr "6VL"; CStr "ligand 3065"]) ].


(** Two runs end alike: with the same exception, or with the same
    variables, the same output after what was there before ([o1], [o2]),
    and the same file under [path]. *)
Definition same_outcome (o1 o2 : list display) (path : string)
    (r1 r2 : result Notebook) : Prop :=
  match r1, r2 with
  | inl e1, inl e2 => e1 = e2
  | inr nb1, inr nb2 =>
      same_variables nb1 nb2
      /\ fs_lookup (disk nb1) path = fs_lookup (disk nb2) path
      /\ exists out, output nb1 = o1 ++ out /\ output nb2 = o2 ++ out
  | _, _ => False
  end.
(** * Properties *)

(** ** The error monad *)

Lemma bind_inr {A B} (c : result A) (k : A -> result B) (b : B) :
  bind c k = inr b -> exists a, c = inr a /\ k a = inr b.
Proof.
  destruct c as [e | a]; simpl; intros H; [discriminate | eauto].
Qed.

Lemma bind_inl {A B} (c : result A) (k : A -> result B) (e : exn) :
  c = inl e -> bind c k = inl e.
Proof. intros ->. reflexivity. Qed.

(** Take a successful run apart, one bind after the other. *)
Ltac inv_bind H :=
  let a := fresh "a" in
  let Ha := fresh "Ha" in
  apply bind_inr in H; destruct H as (a & Ha & H).

Lemma var_inr {A} (name : string) (v : option A) (a : A) :
  var name v = inr a -> v = Some a.
Proof. destruct v; simpl; intros [=]; congruence. Qed.

Lemma run_cells_app (cs1 cs2 : list (Notebook -> result Notebook)) nb :
  run_cells (cs1 ++ cs2) nb = (nb' <- run_cells cs1 nb ;; run_cells cs2 nb').
Proof.
  revert nb; induction cs1 as [| c cs1 IH]; intros nb; simpl.
  - reflexivity.
  - destruct (c nb) as [e | nb1]; simpl; [reflexivity | apply IH].
Qed.

(** ** Text *)

Lemma append_nil_r (s : string) : (s ++ EmptyString)%string = s.
Proof. induction s; simpl; congruence. Qed.

Lemma append_assoc (a b c : string) :
  ((a ++ b) ++ c)%string = (a ++ (b ++ c))%string.
Proof. induction a; simpl; congruence. Qed.

Lemma append_cons_r (a : string) (c : ascii) (b : string) :
  ((a ++ String c EmptyString) ++ b)%string = (a ++ String c b)%string.
Proof. rewrite append_assoc. reflexivity. Qed.

Lemma string_forallb_append (p : ascii -> bool) (a b : string) :
  string_forallb p (a ++ b) = string_forallb p a && string_forallb p b.
Proof.
  induction a as [| c a IH]; simpl; [reflexivity |].
  rewrite IH. apply andb_assoc.
Qed.

Lemma ascii_compare_trans (a b c : ascii) (o : comparison) :
  Ascii.compare a b = o -> Ascii.compare b c = o -> Ascii.compare a c = o.
Proof.
  unfold Ascii.compare. destruct o; intros H1 H2.
  - apply N.compare_eq_iff in H1, H2. apply N.compare_eq_iff. congruence.
  - rewrite N.compare_lt_iff in *. lia.
  - rewrite N.compare_gt_iff in *. lia.
Qed.

Lemma string_compare_lt_trans (a b c : string) :
  String.compare a b = Lt -> String.compare b c = Lt ->
  String.compare a c = Lt.
Proof.
  revert b c; induction a as [| x a IH]; intros [| y b] [| z c]; simpl;
    try discriminate; try reflexivity.
  destruct (Ascii.compare x y) eqn:Hxy; try discriminate;
    destruct (Ascii.compare y z) eqn:Hyz; try discriminate; intros H1 H2.
  - rewrite (ascii_compare_trans _ _ _ _ Hxy Hyz). eauto.
  - apply Ascii.compare_eq_iff in Hxy; subst. now rewrite Hyz.
  - apply Ascii.compare_eq_iff in Hyz; subst. now rewrite Hxy.
  - now rewrite (ascii_compare_trans _ _ _ _ Hxy Hyz).
Qed.

Lemma string_compare_refl (a : string) : String.compare a a = Eq.
Proof.
  induction a as [| x a IH]; simpl; [reflexivity |].
  unfold Ascii.compare. now rewrite N.compare_refl.
Qed.

Lemma string_leb_trans (a b c : string) :
  String.leb a b = true -> String.leb b c = true -> String.leb a c = true.
Proof.
  unfold String.leb.
  destruct (String.compare a b) eqn:Hab; try discriminate;
    destruct (String.compare b c) eqn:Hbc; try discriminate; intros _ _.
  - apply String.compare_eq_iff in Hab, Hbc; subst.
    now rewrite string_compare_refl.
  - apply String.compare_eq_iff in Hab; subst. now rewrite Hbc.
  - apply String.compare_eq_iff in Hbc; subst. now rewrite Hab.
  - now rewrite (string_compare_lt_trans _ _ _ Hab Hbc).
Qed.

(** ** Sorting *)

Section InsertionFacts.
Context {A : Type} (leb : A -> A -> bool).

Lemma insert_sorted_perm (x : A) (l : list A) :
  Permutation (insert_sorted leb x l) (x :: l).
Proof.
  induction l as [| y l IH]; simpl; [reflexivity |].
  destruct (leb x y); [reflexivity |].
  rewrite IH. apply perm_swap.
Qed.

Lemma sort_by_perm (l : list A) : Permutation (sort_by leb l) l.
Proof.
  induction l as [| x l IH]; simpl; [reflexivity |].
  rewrite insert_sorted_perm. now constructor.
Qed.

Hypothesis leb_total : forall x y, leb x y = true \/ leb y x = true.

Lemma insert_sorted_sorted (x : A) (l : list A) :
  Sorted (fun a b => leb a b = true) l ->
  Sorted (fun a b => leb a b = true) (insert_sorted leb x l).
Proof.
  induction 1 as [| y l Hl IH Hhd]; simpl.
  - repeat constructor.
  - destruct (leb x y) eqn:Hxy.
    + constructor; [now constructor | now constructor].
    + constructor; [exact IH |].
      destruct l as [| z l]; simpl.
      * constructor. destruct (leb_total x y); [congruence | assumption].
      * destruct (leb x z).
        -- constructor. destruct (leb_total x y); [congruence | assumption].
        -- inversion Hhd; subst. now constructor.
Qed.

Lemma sort_by_sorted (l : list A) :
  Sorted (fun a b => leb a b = true) (sort_by leb l).
Proof.
  induction l as [| x l IH]; simpl; [constructor |].
  now apply insert_sorted_sorted.
Qed.
End InsertionFacts.

(** A locally sorted list is sorted throughout when the order is
    transitive on the elements it holds. *)
Lemma Sorted_strongly {A} (R : A -> A -> Prop) (P : A -> Prop) (l : list A) :
  (forall x y z, P x -> P y -> P z -> R x y -> R y z -> R x z) ->
  Forall P l -> Sorted R l -> StronglySorted R l.
Proof.
  intros Htrans HP Hs. induction Hs as [| a l Hs IH Hhd]; [constructor |].
  inversion HP as [| ? ? Pa Pl]; subst.
  specialize (IH Pl). constructor; [exact IH |].
  destruct Hhd as [| b l Hab]; [constructor |].
  inversion IH as [| ? ? _ Hb]; subst.
  inversion Pl as [| ? ? Pb Pl']; subst.
  constructor; [exact Hab |].
  rewrite Forall_forall in *. intros z Hz.
  apply (Htrans a b z); auto.
Qed.

Lemma StronglySorted_nth {A} (R : A -> A -> Prop) (l : list A) :
  StronglySorted R l ->
  forall i j x y, (i < j)%nat ->
    nth_error l i = Some x -> nth_error l j = Some y -> R x y.
Proof.
  induction 1 as [| a l Hs IH Hall]; intros i j x y Hij Hi Hj.
  - destruct i; discriminate.
  - destruct j as [| j]; [lia |]. simpl in Hj.
    destruct i as [| i]; simpl in Hi.
    + injection Hi as <-. rewrite Forall_forall in Hall.
      apply Hall. eapply nth_error_In; eauto.
    + apply (IH i j); auto. lia.
Qed.

Lemma key_leb_total (a b : cell) : key_leb a b = true \/ key_leb b a = true.
Proof.
  destruct a, b; simpl; auto.
  - destruct (Z.leb_spec z z0); [auto | right; apply Z.leb_le; lia].
  - apply String.leb_total.
Qed.

Lemma key_leb_trans_int (a b c : cell) :
  is_int a = true -> is_int b = true -> is_int c = true ->
  key_leb a b = true -> key_leb b c = true -> key_leb a c = true.
Proof.
  destruct a, b, c; simpl; try discriminate; intros _ _ _ H1 H2.
  apply Z.leb_le in H1, H2. apply Z.leb_le. lia.
Qed.

Lemma key_leb_trans_text (a b c : cell) :
  is_text_or_nan a = true -> is_text_or_nan b = true ->
  is_text_or_nan c = true ->
  key_leb a b = true -> key_leb b c = true -> key_leb a c = true.
Proof.
  destruct a, b, c; simpl; try discriminate; auto; intros _ _ _.
  apply string_leb_trans.
Qed.

(** ** Column selection *)

Lemma positions_from_absent (i : nat) (label : string) (cols : list string) :
  ~ In label cols -> positions_from i label cols = [].
Proof.
  revert i; induction cols as [| c cs IH]; intros i Hn; simpl; [reflexivity |].
  destruct (String.eqb_spec c label) as [-> | _].
  - exfalso. apply Hn. now left.
  - apply IH. intros H. apply Hn. now right.
Qed.

Lemma positions_from_nth (i : nat) (label : string) (cols : list string) p :
  In p (positions_from i label cols) ->
  (i <= p)%nat /\ nth_error cols (p - i) = Some label.
Proof.
  revert i; induction cols as [| c cs IH]; intros i; simpl; [tauto |].
  destruct (String.eqb_spec c label) as [-> | _].
  - intros [<- | H].
    + rewrite Nat.sub_diag. auto.
    + apply IH in H as [Hle Hn]. split; [lia |].
      replace (p - i)%nat with (S (p - S i)) by lia. exact Hn.
  - intros H. apply IH in H as [Hle Hn]. split; [lia |].
    replace (p - i)%nat with (S (p - S i)) by lia. exact Hn.
Qed.

Lemma positions_nth (label : string) (cols : list string) p :
  In p (positions label cols) -> nth_error cols p = Some label.
Proof.
  intros H. apply positions_from_nth in H as [_ H].
  now rewrite Nat.sub_0_r in H.
Qed.

Lemma positions_from_unique (i : nat) (label : string) (cols : list string) :
  NoDup cols -> In label cols ->
  exists k, positions_from i label cols = [(i + k)%nat]
            /\ nth_error cols k = Some label.
Proof.
  revert i; induction cols as [| c cs IH]; intros i Hnd Hin; [easy |].
  inversion Hnd as [| ? ? Hc Hcs]; subst. simpl.
  destruct (String.eqb_spec c label) as [-> | Hne].
  - exists 0%nat. rewrite positions_from_absent by assumption.
    rewrite Nat.add_0_r. auto.
  - destruct Hin as [-> | Hin]; [easy |].
    destruct (IH (S i) Hcs Hin) as (k & Hk & Hn).
    exists (S k). rewrite Hk. split; [f_equal; lia | exact Hn].
Qed.

Lemma positions_present (label : string) (cols : list string) :
  positions label cols <> [] -> In label cols.
Proof.
  intros H. destruct (positions label cols) as [| p ps] eqn:E; [easy |].
  eapply nth_error_In, (positions_nth label cols p).
  rewrite E. now left.
Qed.

Lemma locate_inr (cols : list string) (label : string) ps :
  locate cols label = inr ps -> ps = positions label cols /\ ps <> [].
Proof.
  unfold locate. destruct (positions label cols); simpl; intros [=]; subst.
  split; [reflexivity | discriminate].
Qed.

Lemma locate_unique_inr (cols : list string) (label : string) p :
  locate_unique cols label = inr p -> positions label cols = [p].
Proof.
  unfold locate_unique.
  destruct (positions label cols) as [| q [| q' ps]]; simpl; intros [=].
  congruence.
Qed.

Lemma locate_unique_nodup (cols : list string) (label : string) :
  NoDup cols -> In label cols ->
  exists p, locate_unique cols label = inr p /\ nth_error cols p = Some label.
Proof.
  intros Hnd Hin.
  destruct (positions_from_unique 0 label cols Hnd Hin) as (k & Hk & Hn).
  exists k. unfold locate_unique, positions. rewrite Hk. auto.
Qed.

(** In a frame without repeated labels, the selection has the labels asked
    for, in the order asked for. *)
Lemma mapM_locate_nodup (cols labels : list string) pss :
  NoDup cols -> mapM (locate cols) labels = inr pss ->
  map (fun p => nth p cols EmptyString) (concat pss) = labels.
Proof.
  intros Hnd. revert pss; induction labels as [| l ls IH]; intros pss H.
  - simpl in H. injection H as <-. reflexivity.
  - simpl in H. inv_bind H. inv_bind H. injection H as <-.
    apply locate_inr in Ha as [-> Hne].
    apply positions_present in Hne.
    destruct (positions_from_unique 0 l cols Hnd Hne) as (k & Hk & Hn).
    unfold positions. rewrite Hk. simpl. f_equal; [| now apply IH].
    now apply nth_error_nth.
Qed.

Lemma getitem_columns_inr (labels : list string) (df out : DataFrame) :
  getitem_columns labels df = inr out ->
  exists pss,
    mapM (locate (columns df)) labels = inr pss
    /\ columns out = map (fun p => nth p (columns df) EmptyString) (concat pss)
    /\ rows out = map (take_row (concat pss)) (rows df).
Proof.
  unfold getitem_columns. intros H. inv_bind H. injection H as <-.
  exists a. auto.
Qed.

Lemma getitem_columns_nodup (labels : list string) (df out : DataFrame) :
  NoDup (columns df) -> getitem_columns labels df = inr out ->
  columns out = labels /\ well_formed out.
Proof.
  intros Hnd H. apply getitem_columns_inr in H as (pss & Hm & Hc & Hr).
  pose proof (mapM_locate_nodup _ _ _ Hnd Hm) as Hl.
  split; [congruence |].
  unfold well_formed. rewrite Hr, Hc, Forall_forall.
  intros r Hin. apply in_map_iff in Hin as (r0 & <- & _).
  unfold take_row, take_cells. simpl. now rewrite !length_map.
Qed.

(** ** Sorting a frame *)

Lemma sort_values_inr (by_ : string) (df out : DataFrame) :
  sort_values by_ df = inr out ->
  exists p,
    locate_unique (columns df) by_ = inr p
    /\ columns out = columns df
    /\ rows out = sort_by (row_leb p) (rows df)
    /\ (forallb is_int (map (key_at p) (rows df)) = true
        \/ forallb is_text_or_nan (map (key_at p) (rows df)) = true).
Proof.
  unfold sort_values. intros H. inv_bind H. inv_bind H. injection H as <-.
  exists a. repeat split; auto.
  unfold key_kind_of in Ha0.
  destruct (forallb is_int _); [now left |].
  destruct (forallb is_text_or_nan _); [now right | discriminate].
Qed.

Lemma sort_values_perm (by_ : string) (df out : DataFrame) :
  sort_values by_ df = inr out -> Permutation (rows out) (rows df).
Proof.
  intros H. apply sort_values_inr in H as (p & _ & _ & -> & _).
  apply sort_by_perm.
Qed.

Lemma sort_values_well_formed (by_ : string) (df out : DataFrame) :
  well_formed df -> sort_values by_ df = inr out -> well_formed out.
Proof.
  intros Hwf H. pose proof (sort_values_perm _ _ _ H) as Hp.
  apply sort_values_inr in H as (p & _ & Hc & _ & _).
  unfold well_formed in *. rewrite Hc.
  eapply Permutation_Forall; [symmetry; exact Hp | exact Hwf].
Qed.

(** The rows of a sorted frame ascend in the key throughout. *)
Lemma sort_values_ascending (by_ : string) (df out : DataFrame) :
  sort_values by_ df = inr out ->
  exists p,
    locate_unique (columns out) by_ = inr p
    /\ StronglySorted (fun r1 r2 => row_leb p r1 r2 = true) (rows out).
Proof.
  intros H. pose proof (sort_values_perm _ _ _ H) as Hp.
  apply sort_values_inr in H as (p & Hl & Hc & Hr & Hk).
  exists p. rewrite Hc. split; [exact Hl |].
  assert (Hs : Sorted (fun r1 r2 => row_leb p r1 r2 = true) (rows out)).
  { rewrite Hr. apply sort_by_sorted. intros x y. apply key_leb_total. }
  destruct Hk as [Hk | Hk];
    rewrite forallb_forall in Hk;
    [ apply (Sorted_strongly _ (fun r => is_int (key_at p r) = true))
    | apply (Sorted_strongly _ (fun r => is_text_or_nan (key_at p r) = true)) ];
    auto.
  - intros x y z. apply key_leb_trans_int.
  - apply Forall_forall. intros r Hin. apply Hk, in_map.
    eapply Permutation_in; eauto.
  - intros x y z. apply key_leb_trans_text.
  - apply Forall_forall. intros r Hin. apply Hk, in_map.
    eapply Permutation_in; eauto.
Qed.

Lemma StronglySorted_map {A B} (f : A -> B) (R : B -> B -> Prop) (l : list A) :
  StronglySorted (fun x y => R (f x) (f y)) l -> StronglySorted R (map f l).
Proof.
  induction 1 as [| a l Hs IH Hall]; simpl; constructor; auto.
  rewrite Forall_forall in *. intros y Hy.
  apply in_map_iff in Hy as (x & <- & Hx). auto.
Qed.

(** The least element of a sorted list comes first. *)
Lemma sorted_least_first {A} (R : A -> A -> Prop) (l rest : list A) (x : A) :
  StronglySorted R l -> Permutation l (x :: rest) ->
  Forall (fun y => ~ R y x) rest ->
  exists l', l = x :: l' /\ Permutation l' rest.
Proof.
  intros Hs Hp Hrest.
  destruct l as [| h t].
  { apply Permutation_nil in Hp. discriminate. }
  assert (Hh : In h (x :: rest)) by (eapply Permutation_in; eauto; now left).
  assert (Hx : In x (h :: t))
    by (eapply Permutation_in; [symmetry; eauto | now left]).
  assert (E : h = x).
  { destruct Hh as [E | Hh]; [now symmetry |].
    destruct Hx as [E | Hx]; [exact E |].
    inversion Hs as [| ? ? _ Hall]; subst.
    rewrite Forall_forall in Hall, Hrest.
    exfalso. apply (Hrest h Hh). now apply Hall. }
  subst h. exists t. split; [reflexivity |].
  now apply Permutation_cons_inv in Hp.
Qed.

Lemma writerows_app (a b : list (list string)) :
  writerows (a ++ b) = (writerows a ++ writerows b)%string.
Proof.
  induction a as [| r a IH]; simpl; [reflexivity |].
  now rewrite IH, append_assoc.
Qed.

Lemma to_csv_text_values (df : DataFrame) :
  to_csv_text df
  = writerows (columns df :: map (map cell_text) (map snd (rows df))).
Proof. unfold to_csv_text. now rewrite map_map. Qed.

Lemma StronglySorted_tail {A} (R : A -> A -> Prop) (x : A) (l : list A) :
  StronglySorted R (x :: l) -> StronglySorted R l.
Proof. now inversion 1. Qed.

(** ** The sort step *)

(** C2.  After the sort step the rows ascend in the structure ID: of any
    two rows, the earlier has the smaller or the same ID.  And a table
    made of the five seeded rows, in any order, and of further rows with
    larger IDs is stored with the five seeded rows first, in the order of
    their IDs and with their values, below the header line. *)
Theorem sort_step_ascending :
  (forall df sorted,
      sort_values "structure.klifs_id" df = inr sorted ->
      exists p,
        locate_unique (columns sorted) "structure.klifs_id" = inr p
        /\ forall i j r1 r2,
            (i < j)%nat ->
            nth_error (rows sorted) i = Some r1 ->
            nth_error (rows sorted) j = Some r2 ->
            key_leb (key_at p r1) (key_at p r2) = true)
  /\
  (forall df rest,
      columns df = ID_COLUMNS ->
      Permutation (map snd (rows df)) (SEEDED ++ rest) ->
      Forall (fun cells => exists z, structure_id cells = CInt z /\ 5 < z) rest ->
      exists sorted rest',
        sort_values "structure.klifs_id" df = inr sorted
        /\ Permutation rest' rest
        /\ map snd (rows sorted) = SEEDED ++ rest'
        /\ firstn 5 (map snd (rows sorted)) = SEEDED
        /\ to_csv_text sorted
           = (unlines (HEADER_LINE :: SEEDED_LINES)
              ++ writerows (map (map cell_text) rest'))%string).
Proof.
  split.
  - intros df sorted H.
    destruct (sort_values_ascending _ _ _ H) as (p & Hp & Hs).
    exists p. split; [exact Hp |].
    intros i j r1 r2 Hij H1 H2.
    exact (StronglySorted_nth _ _ Hs i j r1 r2 Hij H1 H2).
  - intros df rest Hcols Hperm Hrest.
    assert (Hints : forallb is_int (map (key_at 0) (rows df)) = true).
    { apply forallb_forall. intros k Hk.
      apply in_map_iff in Hk as (r & <- & Hr).
      assert (Hin : In (snd r) (SEEDED ++ rest))
        by (eapply Permutation_in; [exact Hperm | now apply in_map]).
      apply in_app_or in Hin as [Hin | Hin].
      - unfold key_at.
        repeat (destruct Hin as [<- | Hin]; [reflexivity |]). destruct Hin.
      - rewrite Forall_forall in Hrest.
        destruct (Hrest _ Hin) as (z & Hz & _).
        unfold key_at. unfold structure_id in Hz. now rewrite Hz. }
    destruct (sort_values "structure.klifs_id" df) as [e | sorted] eqn:Hsort.
    { exfalso. unfold sort_values in Hsort. rewrite Hcols in Hsort.
      simpl in Hsort. unfold key_kind_of in Hsort.
      rewrite Hints in Hsort. discriminate. }
    pose proof (sort_values_perm _ _ _ Hsort) as Hp.
    destruct (sort_values_ascending _ _ _ Hsort) as (p & Hloc & Hs).
    pose proof (sort_values_inr _ _ _ Hsort) as (p' & _ & Hc & _ & _).
    rewrite Hc, Hcols in Hloc. injection Hloc as <-.
    set (R := fun v1 v2 : list cell =>
                key_leb (structure_id v1) (structure_id v2) = true).
    assert (Hvs : StronglySorted R (map snd (rows sorted)))
      by (apply StronglySorted_map; exact Hs).
    assert (Hpv : Permutation (map snd (rows sorted)) (SEEDED ++ rest))
      by (rewrite <- Hperm; now apply Permutation_map).
    assert (Hlarge : Forall (fun y => exists z, structure_id y = CInt z /\ 5 < z) rest)
      by exact Hrest.
    clear Hs Hp Hperm Hints Hsort.
    unfold SEEDED in Hpv. simpl app in Hpv.
    assert (Hgo : forall l x tl,
               StronglySorted R l -> Permutation l (x :: tl) ->
               Forall (fun y => ~ R y x) tl ->
               exists l', l = x :: l' /\ Permutation l' tl /\ StronglySorted R l').
    { intros l x tl H1 H2 H3.
      destruct (sorted_least_first R l tl x H1 H2 H3) as (l' & -> & Hl').
      exists l'. repeat split; auto. eapply StronglySorted_tail; eauto. }
    assert (Hbig : forall c n, (exists z, structure_id c = CInt z /\ 5 < z) ->
               n <= 5 -> key_leb (structure_id c) (CInt n) <> true).
    { intros c n (z & -> & Hz) Hn. simpl. intros H. apply Z.leb_le in H. lia. }
    destruct (Hgo _ _ _ Hvs Hpv) as (l1 & E1 & P1 & S1).
    { repeat (constructor; [unfold R; simpl; discriminate |]).
      rewrite Forall_forall in *. intros y Hy. apply Hbig; [auto | lia]. }
    destruct (Hgo _ _ _ S1 P1) as (l2 & E2 & P2 & S2).
    { repeat (constructor; [unfold R; simpl; discriminate |]).
      rewrite Forall_forall in *. intros y Hy. apply Hbig; [auto | lia]. }
    destruct (Hgo _ _ _ S2 P2) as (l3 & E3 & P3 & S3).
    { repeat (constructor; [unfold R; simpl; discriminate |]).
      rewrite Forall_forall in *. intros y Hy. apply Hbig; [auto | lia]. }
    destruct (Hgo _ _ _ S3 P3) as (l4 & E4 & P4 & S4).
    { repeat (constructor; [unfold R; simpl; discriminate |]).
      rewrite Forall_forall in *. intros y Hy. apply Hbig; [auto | lia]. }
    destruct (Hgo _ _ _ S4 P4) as (l5 & E5 & P5 & S5).
    { rewrite Forall_forall in *. intros y Hy. apply Hbig; [auto | lia]. }
    subst l1 l2 l3 l4.
    exists sorted, l5. split; [reflexivity |].
    split; [exact P5 |]. split; [exact E1 |].
    split; [rewrite E1; reflexivity |].
    rewrite to_csv_text_values, Hc, Hcols, E1.
    change (ID_COLUMNS :: map (map cell_text) (_ :: _ :: _ :: _ :: _ :: l5))
      with ((ID_COLUMNS :: map (map cell_text) SEEDED)
              ++ map (map cell_text) l5).
    rewrite writerows_app. reflexivity.
Qed.

Lemma perm_by_sort {A} (leb : A -> A -> bool) (l r : list A) :
  sort_by leb l = sort_by leb r -> Permutation l r.
Proof.
  intros H. rewrite <- (sort_by_perm leb l), H. apply sort_by_perm.
Qed.

Lemma sort_step_ascending_witness :
  exists sorted rest',
    sort_values "structure.klifs_id" EXAMPLE_PROJECTED = inr sorted
    /\ Permutation rest'
         [[CInt 9564; CStr "5t31"; CStr "-"; CStr "B"; CStr "GSK3B";
           CInt 238; CStr "6VL"]]
    /\ map snd (rows sorted) = SEEDED ++ rest'
    /\ firstn 5 (map snd (rows sorted)) = SEEDED
    /\ to_csv_text sorted
       = (unlines (HEADER_LINE :: SEEDED_LINES)
          ++ writerows (map (map cell_text) rest'))%string.
Proof.
  apply (proj2 sort_step_ascending EXAMPLE_PROJECTED).
  - reflexivity.
  - apply (perm_by_sort
             (fun a b => key_leb (structure_id a) (structure_id b))).
    reflexivity.
  - repeat constructor. exists 9564. split; [reflexivity | lia].
Defined.

(** ** The cells, taken apart *)

Lemma cell_2_inr env nb nb' :
  cell_2 env nb = inr nb' ->
  exists r,
    setup_remote env = inr r
    /\ nb' = mkNotebook (Some r) (structures_all nb) (sizes nb) (filename nb)
                        (ligands_all nb) (disk nb) (output nb).
Proof. unfold cell_2. intros H. inv_bind H. injection H as <-. eauto. Qed.

Lemma cell_4_inr nb nb' :
  cell_4 nb = inr nb' ->
  exists r fetched projected sorted,
    remote nb = Some r
    /\ all_structures r = inr fetched
    /\ getitem_columns ID_COLUMNS fetched = inr projected
    /\ sort_values "structure.klifs_id" projected = inr sorted
    /\ nb' = mkNotebook (remote nb) (Some sorted) (sizes nb) (filename nb)
               (ligands_all nb) (disk nb)
               (output nb ++ [ShapeOf (shape sorted); Frame (head 5 sorted)]).
Proof.
  unfold cell_4. intros H. do 4 inv_bind H. injection H as <-.
  apply var_inr in Ha. exists a, a0, a1, a2. auto.
Qed.

Lemma cell_5_inr nb nb' :
  cell_5 nb = inr nb' ->
  exists df s,
    structures_all nb = Some df
    /\ groupby_size STRUCTURE_KEY df = inr s
    /\ remote nb' = remote nb
    /\ structures_all nb' = structures_all nb
    /\ sizes nb' = Some s
    /\ filename nb' = filename nb
    /\ ligands_all nb' = ligands_all nb
    /\ disk nb' = disk nb.
Proof.
  unfold cell_5. intros H. do 2 inv_bind H. injection H as <-.
  apply var_inr in Ha. exists a, a0. simpl. auto 10.
Qed.

Lemma cell_6_inr env nb nb' :
  cell_6 env nb = inr nb' ->
  exists df name,
    structures_all nb = Some df
    /\ name = ("klifs_ids." ++ strftime_Ymd (today env) ++ ".csv.zip")%string
    /\ os_open env name = None
    /\ nb' = mkNotebook (remote nb) (structures_all nb) (sizes nb) (Some name)
               (ligands_all nb)
               (fs_write (disk nb) name (ZipArchive [(name, to_csv_text df)]))
               (output nb).
Proof.
  unfold cell_6. intros H. do 2 inv_bind H. injection H as <-.
  apply var_inr in Ha. unfold to_csv in Ha0.
  destruct (os_open env _) eqn:E; [discriminate |]. injection Ha0 as <-.
  eexists _, _. repeat split; eauto.
Qed.

Lemma cell_8_inr nb nb' :
  cell_8 nb = inr nb' ->
  exists name loaded,
    filename nb = Some name
    /\ read_csv (disk nb) name = inr loaded
    /\ nb' = mkNotebook (remote nb) (structures_all nb) (sizes nb) (filename nb)
               (ligands_all nb) (disk nb)
               (output nb ++ [Frame (head 5 loaded)]).
Proof.
  unfold cell_8. intros H. do 2 inv_bind H. injection H as <-.
  apply var_inr in Ha. eauto.
Qed.

Lemma cell_10_inr nb nb' :
  cell_10 nb = inr nb' ->
  exists r fetched,
    remote nb = Some r
    /\ all_ligands r = inr fetched
    /\ nb' = mkNotebook (remote nb) (structures_all nb) (sizes nb) (filename nb)
               (Some fetched) (disk nb) (output nb).
Proof.
  unfold cell_10. intros H. do 2 inv_bind H. injection H as <-.
  apply var_inr in Ha. eauto.
Qed.

Lemma cell_11_frame nb nb' :
  cell_11 nb = inr nb' ->
  remote nb' = remote nb
  /\ structures_all nb' = structures_all nb
  /\ filename nb' = filename nb
  /\ ligands_all nb' = ligands_all nb
  /\ disk nb' = disk nb.
Proof.
  unfold cell_11. intros H. do 3 inv_bind H. injection H as <-.
  simpl. auto.
Qed.

(** ** What holds after every cell *)

Lemma consistent_initial env r : consistent r (initial env).
Proof. constructor; simpl; intros; discriminate. Qed.

Lemma fs_lookup_write disk name f :
  fs_lookup (fs_write disk name f) name = Some f.
Proof. simpl. now rewrite String.eqb_refl. Qed.

Lemma consistent_step env r c nb nb' :
  setup_remote env = inr r ->
  In c (cells env) -> consistent r nb -> c nb = inr nb' -> consistent r nb'.
Proof.
  intros Hsetup Hc [Hr Hs Hl Hf] H.
  simpl in Hc.
  destruct Hc as [<- | [<- | [<- | [<- | [<- | [<- | [<- | []]]]]]]].
  - apply cell_2_inr in H as (r' & Hr' & ->).
    constructor; simpl; auto. intros r'' [= <-]. congruence.
  - apply cell_4_inr in H as (r' & fetched & projected & sorted
                              & Hr' & Hf' & Hp & Hsort & ->).
    apply Hr in Hr'; subst r'.
    constructor; simpl; auto.
    + intros df [= <-]. eauto.
    + intros name Hn. destruct (Hf name Hn) as (df & Hdf & _).
      (* the file was written from the table that the cell replaces *)
      destruct (Hs df Hdf) as (fetched' & projected' & Hf'' & Hp' & Hsort').
      assert (fetched' = fetched) by congruence; subst.
      assert (projected' = projected) by congruence; subst.
      assert (df = sorted) by congruence; subst.
      destruct (Hf name Hn) as (df' & Hdf' & Hfile).
      exists sorted. split; [reflexivity |]. congruence.
  - apply cell_5_inr in H as (df & s & _ & _ & R1 & R2 & _ & R3 & R4 & R5).
    constructor; rewrite ?R1, ?R2, ?R3, ?R4, ?R5; auto.
  - apply cell_6_inr in H as (df & name & Hdf & Hname & _ & ->).
    constructor; simpl; auto.
    intros name' [= <-]. exists df. split; [exact Hdf |].
    now rewrite String.eqb_refl.
  - apply cell_8_inr in H as (name & loaded & _ & _ & ->).
    constructor; simpl; auto.
  - apply cell_10_inr in H as (r' & fetched & Hr' & Hf' & ->).
    apply Hr in Hr'; subst r'.
    constructor; simpl; auto. intros df [= <-]. exact Hf'.
  - apply cell_11_frame in H as (R1 & R2 & R3 & R4 & R5).
    constructor; rewrite ?R1, ?R2, ?R3, ?R4, ?R5; auto.
Qed.

Lemma consistent_run env r cs nb nb' :
  setup_remote env = inr r ->
  incl cs (cells env) -> consistent r nb -> run_cells cs nb = inr nb' ->
  consistent r nb'.
Proof.
  intros Hsetup. revert nb; induction cs as [| c cs IH]; intros nb Hin Hc H.
  - simpl in H. injection H as <-. exact Hc.
  - simpl in H. inv_bind H. apply (IH a).
    + intros x Hx. apply Hin. now right.
    + eapply consistent_step; eauto. apply Hin. now left.
    + exact H.
Qed.

Lemma incl_firstn {A} (n : nat) (l : list A) : incl (firstn n l) l.
Proof.
  intros y Hy. rewrite <- (firstn_skipn n l). apply in_or_app. now left.
Qed.

(** After any number of cells of a run, the variables are consistent with
    the answers of the remote session. *)
Lemma consistent_prefix env r n nb :
  setup_remote env = inr r ->
  run_cells (firstn n (cells env)) (initial env) = inr nb ->
  consistent r nb.
Proof.
  intros Hsetup H.
  eapply consistent_run; eauto using incl_firstn, consistent_initial.
Qed.

Lemma mapM_locate_labels (cols labels : list string) pss p :
  mapM (locate cols) labels = inr pss -> In p (concat pss) ->
  exists label, In label labels /\ nth_error cols p = Some label.
Proof.
  revert pss; induction labels as [| l ls IH]; intros pss H Hp.
  - simpl in H. injection H as <-. destruct Hp.
  - simpl in H. inv_bind H. inv_bind H. injection H as <-.
    simpl in Hp. apply in_app_or in Hp as [Hp | Hp].
    + apply locate_inr in Ha as [-> _].
      exists l. split; [now left | now apply positions_nth].
    + destruct (IH _ Ha0 Hp) as (label & Hl & Hn).
      exists label. split; [now right | exact Hn].
Qed.

Lemma positions_from_found (i : nat) (label : string) (cols : list string) :
  In label cols -> positions_from i label cols <> [].
Proof.
  revert i; induction cols as [| c cs IH]; intros i Hin; [destruct Hin |].
  simpl. destruct (String.eqb_spec c label) as [-> | Hne]; [discriminate |].
  destruct Hin as [-> | Hin]; [easy | now apply IH].
Qed.

(** A missing label stops the selection with a [KeyError]. *)
Lemma mapM_locate_missing (cols labels : list string) (label : string) :
  In label labels -> ~ In label cols ->
  exists label',
    mapM (locate cols) labels = inl (KeyError label')
    /\ In label' labels /\ ~ In label' cols.
Proof.
  induction labels as [| l ls IH]; intros Hin Hmiss; [destruct Hin |].
  simpl. unfold locate at 1.
  destruct (positions l cols) as [| p ps] eqn:E.
  - exists l. simpl. repeat split; [now left |].
    intros Hl. now apply (positions_from_found 0 l cols Hl).
  - destruct Hin as [-> | Hin].
    + exfalso. apply Hmiss. apply positions_present. now rewrite E.
    + destruct (IH Hin Hmiss) as (l' & Hl' & Hin' & Hm').
      exists l'. simpl. rewrite Hl'. simpl. repeat split; auto.
Qed.

(** ** Projection *)

Lemma projected_as_fetched (labels : list string) (fetched projected : DataFrame) :
  getitem_columns labels fetched = inr projected ->
  Forall (fun l => In l labels) (columns projected)
  /\ Forall (as_fetched fetched projected) (rows projected).
Proof.
  intros H. apply getitem_columns_inr in H as (pss & Hm & Hc & Hr).
  split.
  - rewrite Hc, Forall_forall. intros l Hl.
    apply in_map_iff in Hl as (p & <- & Hp).
    destruct (mapM_locate_labels _ _ _ _ Hm Hp) as (label & Hin & Hn).
    now rewrite (nth_error_nth _ _ _ Hn).
  - rewrite Hr, Forall_forall. intros r Hin.
    apply in_map_iff in Hin as (r0 & <- & Hr0).
    exists r0. repeat split; auto.
    intros j label Hj. rewrite Hc in Hj.
    rewrite nth_error_map in Hj.
    destruct (nth_error (concat pss) j) as [p |] eqn:Hp;
      [injection Hj as <- | discriminate].
    exists p.
    destruct (mapM_locate_labels _ _ _ _ Hm (nth_error_In _ _ Hp))
      as (label & _ & Hn).
    split.
    + now rewrite (nth_error_nth _ _ _ Hn).
    + unfold cell_at, take_row, take_cells. simpl.
      apply nth_error_nth. now rewrite nth_error_map, Hp.
Qed.

Lemma sorted_as_fetched (by_ : string) (source df sorted : DataFrame) :
  sort_values by_ df = inr sorted ->
  Forall (as_fetched source df) (rows df) ->
  Forall (as_fetched source sorted) (rows sorted).
Proof.
  intros H Hall. pose proof (sort_values_perm _ _ _ H) as Hp.
  apply sort_values_inr in H as (p & _ & Hc & _ & _).
  rewrite Forall_forall in *. intros r Hr.
  destruct (Hall r (Permutation_in _ Hp Hr)) as (r0 & H0 & Hf & Hcells).
  exists r0. repeat split; auto. now rewrite Hc.
Qed.

(** ** Records are read-only *)

(** C9.  After any number of cells, every row of the structures table has
    the index label of a fetched row and, under each of its column labels,
    the value that the fetched row has under that label; the labels are
    among the seven ID labels; the ligands table is the fetched one; and
    the file, once written, holds the text of the structures table.  So
    projection, sorting, the duplicate checks, saving and loading change
    no value of a record. *)
Theorem records_read_only :
  forall env r fetched n nb df,
    setup_remote env = inr r ->
    all_structures r = inr fetched ->
    run_cells (firstn n (cells env)) (initial env) = inr nb ->
    structures_all nb = Some df ->
    Forall (as_fetched fetched df) (rows df)
    /\ Forall (fun label => In label ID_COLUMNS) (columns df)
    /\ (forall ligands,
          ligands_all nb = Some ligands -> all_ligands r = inr ligands)
    /\ (forall name,
          filename nb = Some name ->
          fs_lookup (disk nb) name
          = Some (ZipArchive [(name, to_csv_text df)])).
Proof.
  intros env r fetched n nb df Hsetup Hfetch Hrun Hdf.
  destruct (consistent_prefix env r n nb Hsetup Hrun) as [_ Hs Hl Hf].
  destruct (Hs df Hdf) as (fetched' & projected & Hf' & Hp & Hsort).
  assert (fetched' = fetched) by congruence; subst fetched'.
  destruct (projected_as_fetched _ _ _ Hp) as [Hlabels Hrows].
  split; [eapply sorted_as_fetched; eauto |].
  split.
  { apply sort_values_inr in Hsort as (p & _ & Hc & _ & _). now rewrite Hc. }
  split; [exact Hl |].
  intros name Hn. destruct (Hf name Hn) as (df' & Hdf' & Hfile).
  congruence.
Qed.

Lemma records_read_only_witness :
  Forall (as_fetched EXAMPLE_STRUCTURES EXAMPLE_TABLE) (rows EXAMPLE_TABLE)
  /\ Forall (fun label => In label ID_COLUMNS) (columns EXAMPLE_TABLE)
  /\ (forall ligands,
        ligands_all EXAMPLE_RUN = Some ligands ->
        all_ligands EXAMPLE_REMOTE = inr ligands)
  /\ (forall name,
        filename EXAMPLE_RUN = Some name ->
        fs_lookup (disk EXAMPLE_RUN) name
        = Some (ZipArchive [(name, to_csv_text EXAMPLE_TABLE)])).
Proof.
  apply (records_read_only EXAMPLE_ENV EXAMPLE_REMOTE EXAMPLE_STRUCTURES
           7 EXAMPLE_RUN EXAMPLE_TABLE); reflexivity.
Defined.

(** ** The rows are preserved *)

(** C10.  After any number of cells, the rows of the structures table are
    a permutation of the projected rows of the fetched table, one for
    each fetched row; the sort step, both duplicate checks and the other
    cells add, drop or repeat none.  The file, once written, holds the
    text of exactly this table. *)
Theorem rows_preserved :
  forall env r fetched n nb df,
    setup_remote env = inr r ->
    all_structures r = inr fetched ->
    run_cells (firstn n (cells env)) (initial env) = inr nb ->
    structures_all nb = Some df ->
    exists projected,
      getitem_columns ID_COLUMNS fetched = inr projected
      /\ length (rows projected) = length (rows fetched)
      /\ map fst (rows projected) = map fst (rows fetched)
      /\ Permutation (rows df) (rows projected)
      /\ (forall name,
            filename nb = Some name ->
            fs_lookup (disk nb) name
            = Some (ZipArchive [(name, to_csv_text df)])).
Proof.
  intros env r fetched n nb df Hsetup Hfetch Hrun Hdf.
  destruct (consistent_prefix env r n nb Hsetup Hrun) as [_ Hs _ Hf].
  destruct (Hs df Hdf) as (fetched' & projected & Hf' & Hp & Hsort).
  assert (fetched' = fetched) by congruence; subst fetched'.
  exists projected. split; [exact Hp |].
  pose proof (getitem_columns_inr _ _ _ Hp) as (pss & _ & _ & Hr).
  split; [now rewrite Hr, length_map |].
  split; [rewrite Hr, map_map; reflexivity |].
  split; [eapply sort_values_perm; eauto |].
  intros name Hn. destruct (Hf name Hn) as (df' & Hdf' & Hfile).
  congruence.
Qed.

Lemma rows_preserved_witness :
  exists projected,
    getitem_columns ID_COLUMNS EXAMPLE_STRUCTURES = inr projected
    /\ length (rows projected) = length (rows EXAMPLE_STRUCTURES)
    /\ map fst (rows projected) = map fst (rows EXAMPLE_STRUCTURES)
    /\ Permutation (rows EXAMPLE_TABLE) (rows projected)
    /\ (forall name,
          filename EXAMPLE_RUN = Some name ->
          fs_lookup (disk EXAMPLE_RUN) name
          = Some (ZipArchive [(name, to_csv_text EXAMPLE_TABLE)])).
Proof.
  apply (rows_preserved EXAMPLE_ENV EXAMPLE_REMOTE EXAMPLE_STRUCTURES
           7 EXAMPLE_RUN EXAMPLE_TABLE); reflexivity.
Defined.

(** ** Exceptions *)

Lemma run_cells_raises before c after nb nb' e :
  run_cells before nb = inr nb' -> c nb' = inl e ->
  run_cells (before ++ c :: after) nb = inl e.
Proof.
  intros H1 H2. rewrite run_cells_app, H1. simpl. now rewrite H2.
Qed.

(** C8.  Nothing catches an exception: when a cell raises after the cells
    before it have run, the run ends with that very exception.  So it is
    with an exception of the remote session, at set-up or in either
    listing; with the [KeyError] of a fetched table that lacks an ID
    column; and with an exception of the operating system when the file is
    opened for writing.  And there is a session in which the listing of the
    structures fails and the run ends with its exception. *)
Theorem exceptions_propagate :
  (forall env,
      (forall before c after nb e,
          cells env = before ++ c :: after ->
          run_cells before (initial env) = inr nb ->
          c nb = inl e -> run_all env = inl e)
      /\ (forall e, setup_remote env = inl e -> run_all env = inl e)
      /\ (forall r e,
            setup_remote env = inr r -> all_structures r = inl e ->
            run_all env = inl e)
      /\ (forall r e nb,
            setup_remote env = inr r -> all_ligands r = inl e ->
            run_cells (firstn 5 (cells env)) (initial env) = inr nb ->
            run_all env = inl e)
      /\ (forall r fetched label,
            setup_remote env = inr r -> all_structures r = inr fetched ->
            In label ID_COLUMNS -> ~ In label (columns fetched) ->
            exists missing,
              run_all env = inl (KeyError missing)
              /\ In missing ID_COLUMNS /\ ~ In missing (columns fetched))
      /\ (forall nb name e,
            run_cells (firstn 3 (cells env)) (initial env) = inr nb ->
            name = ("klifs_ids." ++ strftime_Ymd (today env) ++ ".csv.zip")%string ->
            os_open env name = Some e ->
            run_all env = inl e))
  /\ run_all FAILING_ENV = inl (Raised "HTTP 503").
Proof.
  split; [| reflexivity].
  intros env.
  assert (Hgen : forall before c after nb e,
             cells env = before ++ c :: after ->
             run_cells before (initial env) = inr nb ->
             c nb = inl e -> run_all env = inl e).
  { intros before c after nb e Hsplit Hrun Hc.
    unfold run_all. rewrite Hsplit. eapply run_cells_raises; eauto. }
  split; [exact Hgen |].
  split.
  { intros e He. apply (Hgen [] (cell_2 env) (tl (cells env)) (initial env));
      [reflexivity | reflexivity |].
    unfold cell_2. now rewrite He. }
  split.
  { intros r e Hr He. unfold run_all. simpl.
    unfold cell_2 at 1. rewrite Hr. simpl.
    unfold cell_4 at 1. simpl. now rewrite He. }
  split.
  { intros r e nb Hr He Hrun.
    assert (Hcons : consistent r nb)
      by (eapply (consistent_prefix env r 5); eauto).
    apply (Hgen (firstn 5 (cells env)) cell_10 [cell_11] nb);
      [reflexivity | exact Hrun |].
    unfold cell_10.
    destruct (remote nb) as [r' |] eqn:Hrem.
    - rewrite (remote_ok _ _ Hcons r' Hrem). simpl. now rewrite He.
    - exfalso. simpl in Hrun. do 5 inv_bind Hrun. injection Hrun as <-.
      apply cell_2_inr in Ha as (r0 & _ & ->).
      apply cell_4_inr in Ha0 as (? & ? & ? & ? & _ & _ & _ & _ & ->).
      apply cell_5_inr in Ha1 as (? & ? & _ & _ & R & _).
      apply cell_6_inr in Ha2 as (? & ? & _ & _ & _ & ->).
      apply cell_8_inr in Ha3 as (? & ? & _ & _ & ->).
      simpl in *. rewrite R in Hrem. discriminate. }
  split.
  { intros r fetched label Hr Hf Hin Hmiss.
    destruct (mapM_locate_missing (columns fetched) ID_COLUMNS label Hin Hmiss)
      as (missing & Hm & Hin' & Hmiss').
    exists missing. split; [| auto].
    unfold run_all. simpl. unfold cell_2 at 1. rewrite Hr. simpl.
    unfold cell_4 at 1. simpl. rewrite Hf. simpl.
    unfold getitem_columns. now rewrite Hm. }
  intros nb name e Hrun Hname He.
  apply (Hgen (firstn 3 (cells env)) (cell_6 env)
              [cell_8; cell_10; cell_11] nb);
    [reflexivity | exact Hrun |].
  simpl in Hrun. do 3 inv_bind Hrun. injection Hrun as <-.
  apply cell_5_inr in Ha1 as (df & s & _ & _ & _ & R & _).
  apply cell_4_inr in Ha0 as (? & ? & ? & sorted & _ & _ & _ & _ & ->).
  simpl in R. subst name.
  unfold cell_6, to_csv, var, bind. rewrite R, He. reflexivity.
Qed.

Lemma exceptions_propagate_witness :
  run_all FAILING_ENV = inl (Raised "HTTP 503")
  /\ run_all READ_ONLY_DISK_ENV = inl (Raised "PermissionError").
Proof.
  split.
  - apply (proj1 (proj2 (proj2 (proj1 exceptions_propagate FAILING_ENV)))
             FAILING_REMOTE); reflexivity.
  - eapply (proj2 (proj2 (proj2 (proj2 (proj2
              (proj1 exceptions_propagate READ_ONLY_DISK_ENV)))))).
    + vm_compute. reflexivity.
    + reflexivity.
    + reflexivity.
Defined.

(** ** Grouping *)

Lemma cell_eqb_eq (a b : cell) : cell_eqb a b = true <-> a = b.
Proof.
  destruct a, b; simpl; split; intros H; try discriminate; try reflexivity.
  - apply Z.eqb_eq in H. congruence.
  - injection H as ->. apply Z.eqb_refl.
  - apply String.eqb_eq in H. congruence.
  - injection H as ->. apply String.eqb_refl.
  - apply String.eqb_eq in H. congruence.
  - injection H as ->. apply String.eqb_refl.
  - apply Bool.eqb_prop in H. congruence.
  - injection H as ->. apply Bool.eqb_reflx.
Qed.

Lemma key_eqb_eq (k1 k2 : list cell) : key_eqb k1 k2 = true <-> k1 = k2.
Proof.
  unfold key_eqb. revert k2; induction k1 as [| a k1 IH]; intros [| b k2];
    simpl; split; intros H; try discriminate; try reflexivity.
  - apply andb_true_iff in H as [Hl H].
    apply andb_true_iff in H as [Hab H].
    apply cell_eqb_eq in Hab. subst b. f_equal.
    apply IH. now rewrite Hl, H.
  - injection H as -> ->.
    assert (E : key_eqb k2 k2 = true) by (apply IH; reflexivity).
    unfold key_eqb in E. apply andb_true_iff in E as [El E].
    rewrite El, E. simpl. rewrite andb_true_r. now apply cell_eqb_eq.
Qed.

Lemma key_eqb_refl (k : list cell) : key_eqb k k = true.
Proof. now apply key_eqb_eq. Qed.

Lemma key_eqb_neq (k1 k2 : list cell) : k1 <> k2 -> key_eqb k1 k2 = false.
Proof.
  intros H. destruct (key_eqb k1 k2) eqn:E; [| reflexivity].
  apply key_eqb_eq in E. contradiction.
Qed.

Lemma key_eqb_dec (k1 k2 : list cell) : {k1 = k2} + {k1 <> k2}.
Proof.
  destruct (key_eqb k1 k2) eqn:E.
  - left. now apply key_eqb_eq.
  - right. intros H. apply key_eqb_eq in H. congruence.
Qed.

Lemma size_of_count_in (k k' : list cell) (s : sizes_t) :
  size_of k (count_in k' s)
  = if key_eqb k' k then S (size_of k s) else size_of k s.
Proof.
  induction s as [| [k0 n] s IH]; simpl.
  - destruct (key_eqb k' k); reflexivity.
  - destruct (key_eqb_dec k0 k') as [-> | Hne].
    + rewrite key_eqb_refl. simpl. destruct (key_eqb k' k); reflexivity.
    + rewrite (key_eqb_neq _ _ Hne). simpl.
      destruct (key_eqb_dec k0 k) as [-> | Hne'].
      * rewrite key_eqb_refl.
        rewrite key_eqb_neq by congruence. reflexivity.
      * rewrite (key_eqb_neq _ _ Hne'). exact IH.
Qed.

Lemma count_in_keys (k : list cell) (s : sizes_t) k' :
  In k' (map fst (count_in k s)) -> k' = k \/ In k' (map fst s).
Proof.
  induction s as [| [k0 n] s IH]; simpl.
  - intros [<- | []]. now left.
  - destruct (key_eqb k0 k); simpl; intros [<- | H]; auto.
    destruct (IH H); auto.
Qed.

Lemma count_in_tidy (k : list cell) (s : sizes_t) :
  complete k = true -> tidy s -> tidy (count_in k s).
Proof.
  intros Hk [Hnd Hall]. induction s as [| [k0 n] s IH]; simpl.
  - split; repeat constructor; auto.
  - inversion Hnd as [| ? ? Hk0 Hnd']; subst.
    inversion Hall as [| ? ? [Hc Hn] Hall']; subst. simpl in *.
    destruct (key_eqb k0 k) eqn:E.
    + split; simpl; constructor; auto. simpl. split; [auto | lia].
    + destruct (IH Hnd' Hall') as [Hnd'' Hall''].
      split; simpl; constructor; auto.
      intros Hin. apply count_in_keys in Hin as [-> | Hin]; [| contradiction].
      now rewrite key_eqb_refl in E.
Qed.

Lemma tidy_size_of (s : sizes_t) (k : list cell) (n : nat) :
  tidy s -> (In (k, n) s <-> size_of k s = n /\ (1 <= n)%nat).
Proof.
  intros [Hnd Hall]. induction s as [| [k0 m] s IH]; simpl.
  - split; [intros [] | intros [<- H]; lia].
  - inversion Hnd as [| ? ? Hk0 Hnd']; subst.
    inversion Hall as [| ? ? [Hc Hm] Hall']; subst. simpl in *.
    specialize (IH Hnd' Hall').
    destruct (key_eqb_dec k0 k) as [-> | Hne].
    + rewrite key_eqb_refl. split.
      * intros [[= <-] | Hin]; [auto |].
        exfalso. apply Hk0. change k with (fst (k, n)). now apply in_map.
      * intros [<- _]. now left.
    + rewrite (key_eqb_neq _ _ Hne). rewrite <- IH. split.
      * intros [[= -> _] | Hin]; [contradiction | exact Hin].
      * intros Hin. now right.
Qed.

Lemma fold_add_tidy (ps : list nat) (rs : list row) (acc : sizes_t) :
  tidy acc -> tidy (fold_left (add_row ps) rs acc).
Proof.
  revert acc; induction rs as [| r rs IH]; intros acc Hacc; simpl; auto.
  apply IH. unfold add_row.
  destruct (existsb isna (take_cells ps (snd r))) eqn:E; auto.
  apply count_in_tidy; auto. unfold complete. now rewrite E.
Qed.

Lemma fold_add_size (ps : list nat) (rs : list row) (acc : sizes_t)
    (k : list cell) :
  complete k = true ->
  size_of k (fold_left (add_row ps) rs acc)
  = (size_of k acc
     + length (filter (fun r => key_eqb (take_cells ps (snd r)) k) rs))%nat.
Proof.
  intros Hk. revert acc; induction rs as [| r rs IH]; intros acc; simpl.
  - lia.
  - rewrite IH. unfold add_row.
    destruct (key_eqb_dec (take_cells ps (snd r)) k) as [E | Hne].
    + rewrite E, key_eqb_refl. unfold complete in Hk.
      apply negb_true_iff in Hk. rewrite Hk.
      rewrite size_of_count_in, key_eqb_refl. simpl. lia.
    + rewrite (key_eqb_neq _ _ Hne).
      destruct (existsb isna (take_cells ps (snd r))); [lia |].
      rewrite size_of_count_in, (key_eqb_neq _ _ Hne). lia.
Qed.

Lemma mapM_locate_unique_positions (cols labels : list string) ps :
  mapM (locate_unique cols) labels = inr ps ->
  concat (map (fun l => positions l cols) labels) = ps.
Proof.
  revert ps; induction labels as [| l ls IH]; intros ps H; simpl in H.
  - now injection H as <-.
  - inv_bind H. inv_bind H. injection H as <-.
    apply locate_unique_inr in Ha. simpl. rewrite Ha. simpl.
    f_equal. now apply IH.
Qed.

(** What [groupby(labels).size()] lists: each complete key that occurs,
    with the number of rows that have it. *)
Lemma groupby_size_spec (labels : list string) (df : DataFrame) (s : sizes_t) :
  groupby_size labels df = inr s ->
  tidy s
  /\ forall k n,
      In (k, n) s <->
      complete k = true /\ n = group_count labels df k /\ (1 <= n)%nat.
Proof.
  unfold groupby_size. intros H. inv_bind H. injection H as <-.
  apply mapM_locate_unique_positions in Ha.
  assert (Ht : tidy (fold_left (add_row a) (rows df) []))
    by (apply fold_add_tidy; split; constructor).
  split; [exact Ht |].
  intros k n. rewrite (tidy_size_of _ k n Ht).
  unfold group_count, key_of. rewrite Ha.
  destruct (complete k) eqn:Hk.
  - rewrite (fold_add_size a (rows df) [] k Hk). simpl.
    split; [intros [<- Hn] | intros (_ & -> & Hn)]; auto.
  - split; [| intros [[=] _]].
    intros [Hs Hn]. exfalso.
    assert (Hin : In (k, n) (fold_left (add_row a) (rows df) []))
      by (apply (tidy_size_of _ k n Ht); auto).
    destruct Ht as [_ Hall]. rewrite Forall_forall in Hall.
    destruct (Hall _ Hin) as [Hc _]. simpl in Hc. congruence.
Qed.

Lemma larger_than_one_spec (labels : list string) (df : DataFrame)
    (s : sizes_t) (k : list cell) (n : nat) :
  groupby_size labels df = inr s ->
  (In (k, n) (larger_than_one s) <->
   complete k = true /\ n = group_count labels df k /\ (1 < n)%nat).
Proof.
  intros H. destruct (groupby_size_spec _ _ _ H) as [_ Hs].
  unfold larger_than_one. rewrite filter_In, Hs. simpl.
  rewrite Nat.ltb_lt. intuition lia.
Qed.

(** ** The duplicate check on the structures *)

Lemma groupby_structure_key (df : DataFrame) :
  columns df = ID_COLUMNS ->
  exists s, groupby_size STRUCTURE_KEY df = inr s.
Proof.
  intros Hc. unfold groupby_size. rewrite Hc. simpl. eauto.
Qed.

(** C3.  On a table with the seven ID columns the check never raises and
    changes no variable but [sizes].  It prints its banner and then one
    report.  The report is the listing of exactly the groups of more than
    one row, each with its size, where the groups are the rows that agree
    in PDB ID, alternate model and chain (rows in which one of the three
    is missing belong to no group); when there is no such group the
    report is the line that all is good. *)
Theorem structure_duplicates_reported :
  forall nb df,
    structures_all nb = Some df ->
    columns df = ID_COLUMNS ->
    exists nb' report,
      cell_5 nb = inr nb'
      /\ output nb'
         = output nb
           ++ [Text "Sanity check: Are there multiple structure KLIFS IDs for one KLIFS structure?";
               report]
      /\ structures_all nb' = Some df
      /\ ligands_all nb' = ligands_all nb
      /\ filename nb' = filename nb
      /\ disk nb' = disk nb
      /\ ((forall k, complete k = true ->
                     (group_count STRUCTURE_KEY df k <= 1)%nat) ->
          report = Text "All good!")
      /\ (forall k,
            complete k = true ->
            (1 < group_count STRUCTURE_KEY df k)%nat ->
            exists groups,
              report = Sizes groups
              /\ In (k, group_count STRUCTURE_KEY df k) groups)
      /\ (forall groups,
            report = Sizes groups ->
            forall k n,
              In (k, n) groups <->
              complete k = true
              /\ n = group_count STRUCTURE_KEY df k /\ (1 < n)%nat).
Proof.
  intros nb df Hdf Hcols.
  destruct (groupby_structure_key df Hcols) as (s & Hs).
  pose proof (larger_than_one_spec STRUCTURE_KEY df s) as Hspec.
  unfold cell_5. rewrite Hdf. simpl. rewrite Hs. simpl.
  eexists _, _. split; [reflexivity |]. simpl.
  repeat (split; [reflexivity || assumption |]).
  destruct (larger_than_one s) as [| [k0 n0] l] eqn:El; simpl.
  - split; [reflexivity |]. split.
    + intros k Hk Hn. exfalso.
      apply (proj2 (Hspec k (group_count STRUCTURE_KEY df k) Hs)); auto.
    + intros groups [=].
  - split.
    + intros Hall. exfalso.
      assert (Hin : In (k0, n0) ((k0, n0) :: l)) by now left.
      apply (Hspec k0 n0 Hs) in Hin as (Hk & -> & Hn).
      specialize (Hall k0 Hk). lia.
    + split.
      * intros k Hk Hn. eexists. split; [reflexivity |].
        apply (Hspec k _ Hs). auto.
      * intros groups [= <-] k n. apply (Hspec k n Hs).
Qed.

Lemma structure_duplicates_reported_witness :
  exists nb' report,
    cell_5 DOUBLED_NOTEBOOK = inr nb'
    /\ output nb'
       = [Text "Sanity check: Are there multiple structure KLIFS IDs for one KLIFS structure?";
          report]
    /\ report = Sizes [([CStr "3dko"; CStr "A"; CStr "A"], 2%nat)].
Proof.
  destruct (structure_duplicates_reported DOUBLED_NOTEBOOK DOUBLED_TABLE
              eq_refl eq_refl)
    as (nb' & report & Hrun & Hout & _).
  exists nb', report. split; [exact Hrun |]. split; [exact Hout |].
  vm_compute in Hrun. injection Hrun as <-.
  vm_compute in Hout. now injection Hout as <-.
Defined.

(** ** The duplicate check on the ligands *)

Lemma two_in_length {A} (a b : A) (l : list A) :
  In a l -> In b l -> a <> b -> (2 <= length l)%nat.
Proof.
  intros Ha Hb Hab.
  destruct l as [| x [| y l]]; simpl in *; try lia.
  all: intuition congruence.
Qed.

Lemma key_kind_of_text (keys : list cell) :
  forallb is_text_or_nan keys = true -> exists k, key_kind_of keys = inr k.
Proof.
  intros H. unfold key_kind_of. rewrite H.
  destruct (forallb is_int keys); eauto.
Qed.

Lemma isin_spec (values : list cell) (c : cell) :
  isin values c = true <-> In c values.
Proof.
  unfold isin. rewrite existsb_exists. split.
  - intros (x & Hx & E). apply cell_eqb_eq in E. now subst.
  - intros H. exists c. split; [exact H | now apply cell_eqb_eq].
Qed.

Section LigandCheck.
Variables (df : DataFrame) (p q : nat) (s : sizes_t).
Hypothesis Hp : locate_unique (columns df) "ligand.expo_id" = inr p.
Hypothesis Hq : locate_unique (columns df) "ligand.klifs_id" = inr q.
Hypothesis Hs : groupby_size ["ligand.expo_id"] df = inr s.

Lemma expo_key (r : row) : key_of ["ligand.expo_id"] df r = [key_at p r].
Proof.
  unfold key_of. simpl. rewrite (locate_unique_inr _ _ _ Hp). reflexivity.
Qed.

Lemma expo_group_nonempty (k : list cell) :
  (1 <= group_count ["ligand.expo_id"] df k)%nat ->
  exists r, In r (rows df) /\ k = [key_at p r].
Proof.
  unfold group_count. intros H.
  destruct (filter _ (rows df)) as [| r l] eqn:E; [simpl in H; lia |].
  assert (Hin : In r (filter (fun r => key_eqb (key_of ["ligand.expo_id"] df r) k)
                             (rows df))) by (rewrite E; now left).
  apply filter_In in Hin as [Hin Hk]. apply key_eqb_eq in Hk.
  exists r. split; [exact Hin |]. now rewrite <- Hk, expo_key.
Qed.

(** The mask of the check selects the rows whose expo ID is not missing
    and is shared by more than one row. *)
Lemma ambiguous_spec (r : row) :
  In r (rows df) ->
  (isin (sizes_index (larger_than_one s)) (key_at p r) = true <->
   key_at p r <> CNaN
   /\ (1 < group_count ["ligand.expo_id"] df [key_at p r])%nat).
Proof.
  intros Hr. rewrite isin_spec. unfold sizes_index. rewrite in_map_iff.
  split.
  - intros ([k n] & Hhd & Hin). simpl in Hhd.
    apply (larger_than_one_spec _ _ _ k n Hs) in Hin as (Hc & Hn & Hlt).
    destruct (expo_group_nonempty k) as (r' & _ & Hk); [lia |].
    subst k. simpl in Hhd. rewrite Hhd in *. split; [| lia].
    intros E. rewrite E in Hc. discriminate.
  - intros [Hna Hlt].
    exists ([key_at p r], group_count ["ligand.expo_id"] df [key_at p r]).
    split; [reflexivity |].
    apply (larger_than_one_spec _ _ _ _ _ Hs). repeat split; auto.
    unfold complete. simpl. destruct (key_at p r); auto.
Qed.
Lemma expo_shared (r1 r2 : row) (c : cell) :
  In r1 (rows df) -> In r2 (rows df) ->
  key_at p r1 = c -> key_at p r2 = c -> r1 <> r2 ->
  (1 < group_count ["ligand.expo_id"] df [c])%nat.
Proof.
  intros H1 H2 E1 E2 Hne. unfold group_count.
  apply (two_in_length r1 r2); auto;
    apply filter_In; split; auto; rewrite expo_key.
  - rewrite E1. apply key_eqb_refl.
  - rewrite E2. apply key_eqb_refl.
Qed.
End LigandCheck.

(** C7.  On a ligands table in which the two ID labels each name one
    column and the expo IDs are text (or missing), the check never raises
    and changes no variable but [sizes]: the ligands table, the structures
    table and the disk stay as they are.  It prints its banner and then
    its report.  When some expo ID is shared by more than one row, the
    report is a table of the ligand ID and the expo ID of exactly the rows
    whose expo ID is shared, in ascending order of the expo ID, followed
    by the line that asks for a manual check; otherwise it is the line
    that all is good.  In particular two rows with different ligand IDs
    and the expo ID 6VL are both in the table. *)
Theorem ligand_duplicates_reported :
  forall nb df p q,
    ligands_all nb = Some df ->
    locate_unique (columns df) "ligand.expo_id" = inr p ->
    locate_unique (columns df) "ligand.klifs_id" = inr q ->
    forallb is_text_or_nan (map (key_at p) (rows df)) = true ->
    exists nb' report,
      cell_11 nb = inr nb'
      /\ output nb'
         = output nb
           ++ Text "Sanity check: Are there multiple ligand KLIFS IDs for one ligand PDB?"
              :: report
      /\ ligands_all nb' = Some df
      /\ structures_all nb' = structures_all nb
      /\ filename nb' = filename nb
      /\ disk nb' = disk nb
      /\ ((forall k, complete k = true ->
                     (group_count ["ligand.expo_id"] df k <= 1)%nat) ->
          report = [Text "All good!"])
      /\ ((exists k, complete k = true
                     /\ (1 < group_count ["ligand.expo_id"] df k)%nat) ->
          exists shown,
            report = [Frame shown;
                      Text "These PDB IDs need to be check manually!"]
            /\ columns shown = ["ligand.klifs_id"; "ligand.expo_id"]
            /\ (forall r',
                  In r' (rows shown) <->
                  exists r,
                    In r (rows df)
                    /\ r' = ligand_ids q p r
                    /\ key_at p r <> CNaN
                    /\ (1 < group_count ["ligand.expo_id"] df [key_at p r])%nat)
            /\ (forall i j r1 r2,
                  (i < j)%nat ->
                  nth_error (rows shown) i = Some r1 ->
                  nth_error (rows shown) j = Some r2 ->
                  key_leb (key_at 1 r1) (key_at 1 r2) = true))
      /\ (forall r1 r2,
            In r1 (rows df) -> In r2 (rows df) ->
            key_at p r1 = CStr "6VL" -> key_at p r2 = CStr "6VL" ->
            key_at q r1 <> key_at q r2 ->
            exists shown,
              report = [Frame shown;
                        Text "These PDB IDs need to be check manually!"]
              /\ In (fst r1, [key_at q r1; CStr "6VL"]) (rows shown)
              /\ In (fst r2, [key_at q r2; CStr "6VL"]) (rows shown)).
Proof.
  intros nb df p q Hdf Hp Hq Htext.
  assert (Hs : exists s, groupby_size ["ligand.expo_id"] df = inr s).
  { unfold groupby_size. simpl. rewrite Hp. simpl. eauto. }
  destruct Hs as (s & Hs).
  pose proof (larger_than_one_spec ["ligand.expo_id"] df s) as Hspec.
  pose proof (ambiguous_spec df p s Hp Hs) as Hmask.
  (* the report of the branch that finds shared expo IDs *)
  set (mask := fun r : row => isin (sizes_index (larger_than_one s)) (key_at p r)).
  set (ambiguous := getitem_mask mask df).
  assert (Hids : getitem_columns ["ligand.klifs_id"; "ligand.expo_id"] ambiguous
                 = inr (mkDataFrame ["ligand.klifs_id"; "ligand.expo_id"]
                          (map (ligand_ids q p) (filter mask (rows df))))).
  { unfold getitem_columns, ambiguous, getitem_mask. simpl.
    unfold locate.
    rewrite (locate_unique_inr _ _ _ Hp), (locate_unique_inr _ _ _ Hq).
    simpl. unfold ret. do 2 f_equal.
    pose proof (positions_nth "ligand.expo_id" (columns df) p) as Ep.
    pose proof (positions_nth "ligand.klifs_id" (columns df) q) as Eq.
    rewrite (locate_unique_inr _ _ _ Hp) in Ep.
    rewrite (locate_unique_inr _ _ _ Hq) in Eq.
    rewrite (nth_error_nth _ _ _ (Ep (or_introl eq_refl))).
    rewrite (nth_error_nth _ _ _ (Eq (or_introl eq_refl))).
    reflexivity. }
  set (ids := mkDataFrame ["ligand.klifs_id"; "ligand.expo_id"]
                (map (ligand_ids q p) (filter mask (rows df)))) in *.
  assert (Hsorted : exists shown, sort_values "ligand.expo_id" ids = inr shown).
  { assert (Hloc : locate_unique (columns ids) "ligand.expo_id" = inr 1%nat)
      by reflexivity.
    unfold sort_values. rewrite Hloc. cbn [bind].
    destruct (key_kind_of_text (map (key_at 1) (rows ids))) as (k & Hk).
    - apply forallb_forall. intros c Hc.
      apply in_map_iff in Hc as (r' & <- & Hr').
      unfold ids in Hr'. simpl in Hr'.
      apply in_map_iff in Hr' as (r & <- & Hr).
      apply filter_In in Hr as [Hr _].
      rewrite forallb_forall in Htext. apply Htext.
      change (In (key_at p r) (map (key_at p) (rows df))). now apply in_map.
    - rewrite Hk. cbn [bind]. eauto. }
  destruct Hsorted as (shown & Hshown).
  assert (Hrows : forall r',
             In r' (rows shown) <->
             exists r,
               In r (rows df)
               /\ r' = ligand_ids q p r
               /\ key_at p r <> CNaN
               /\ (1 < group_count ["ligand.expo_id"] df [key_at p r])%nat).
  { intros r'. pose proof (sort_values_perm _ _ _ Hshown) as Hperm.
    split.
    - intros Hin. apply (Permutation_in _ Hperm) in Hin.
      unfold ids in Hin. simpl in Hin.
      apply in_map_iff in Hin as (r & <- & Hr).
      apply filter_In in Hr as [Hr Hm].
      exists r. split; [exact Hr |]. split; [reflexivity |].
      now apply Hmask.
    - intros (r & Hr & -> & Hna & Hlt).
      apply (Permutation_in _ (Permutation_sym Hperm)).
      unfold ids. simpl. apply in_map. apply filter_In.
      split; [exact Hr |]. apply Hmask; auto. }
  assert (Hshared : forall k,
             complete k = true ->
             (1 < group_count ["ligand.expo_id"] df k)%nat ->
             (0 <? length (larger_than_one s))%nat = true).
  { intros k Hk Hlt.
    assert (Hin : In (k, group_count ["ligand.expo_id"] df k) (larger_than_one s))
      by (apply (Hspec _ _ Hs); auto).
    destruct (larger_than_one s); [destruct Hin | reflexivity]. }
  unfold cell_11. rewrite Hdf. simpl. rewrite Hs. simpl.
  destruct (0 <? length (larger_than_one s))%nat eqn:Hany.
  - (* some expo ID is shared *)
    rewrite Hp. simpl. fold mask. fold ambiguous. rewrite Hids. simpl.
    fold ids. rewrite Hshown. simpl.
    eexists _, _. split; [reflexivity |]. simpl.
    repeat (split; [reflexivity || assumption |]).
    split.
    { intros Hall. exfalso.
      destruct (larger_than_one s) as [| [k n] l] eqn:El; [discriminate |].
      assert (Hin : In (k, n) ((k, n) :: l)) by now left.
      apply (Hspec k n Hs) in Hin as (Hk & -> & Hn).
      specialize (Hall k Hk). lia. }
    split.
    { intros _. exists shown. split; [reflexivity |].
      split.
      { apply sort_values_inr in Hshown as (? & _ & Hc & _). exact Hc. }
      split; [exact Hrows |].
      destruct (sort_values_ascending _ _ _ Hshown) as (p1 & Hp1 & Hasc).
      assert (p1 = 1%nat).
      { apply sort_values_inr in Hshown as (? & _ & Hc & _).
        rewrite Hc in Hp1. simpl in Hp1. now injection Hp1. }
      subst p1. intros i j r1 r2 Hij H1 H2.
      exact (StronglySorted_nth _ _ Hasc i j r1 r2 Hij H1 H2). }
    intros r1 r2 Hr1 Hr2 E1 E2 Hne.
    exists shown. split; [reflexivity |].
    assert (Hcount : (1 < group_count ["ligand.expo_id"] df [CStr "6VL"])%nat).
    { apply (expo_shared df p Hp r1 r2); auto. intros ->. now apply Hne. }
    split; apply Hrows.
    + exists r1. unfold ligand_ids. rewrite E1.
      repeat split; auto. discriminate.
    + exists r2. unfold ligand_ids. rewrite E2.
      repeat split; auto. discriminate.
  - (* no expo ID is shared *)
    eexists _, _. split; [reflexivity |]. simpl.
    do 5 (split; [reflexivity || assumption |]).
    split; [intros _; reflexivity |].
    split.
    { intros (k & Hk & Hlt). discriminate (Hshared k Hk Hlt). }
    intros r1 r2 Hr1 Hr2 E1 E2 Hne. exfalso.
    assert (Hcount : (1 < group_count ["ligand.expo_id"] df [CStr "6VL"])%nat).
    { apply (expo_shared df p Hp r1 r2); auto. intros ->. now apply Hne. }
    discriminate (Hshared [CStr "6VL"] eq_refl Hcount).
Qed.

Lemma ligand_duplicates_reported_witness :
  exists nb' shown,
    cell_11 LIGAND_NOTEBOOK = inr nb'
    /\ output nb'
       = [Text "Sanity check: Are there multiple ligand KLIFS IDs for one ligand PDB?";
          Frame shown;
          Text "These PDB IDs need to be check manually!"]
    /\ In (2713, [CInt 3015; CStr "6VL"]) (rows shown)
    /\ In (2759, [CInt 3065; CStr "6VL"]) (rows shown).
Proof.
  destruct (ligand_duplicates_reported LIGAND_NOTEBOOK EXAMPLE_LIGANDS 1 0
              eq_refl eq_refl eq_refl eq_refl)
    as (nb' & report & Hrun & Hout & _ & _ & _ & _ & _ & _ & H6VL).
  destruct (H6VL (2713, [CInt 3015; CStr "6VL"; CStr "ligand 3015"])
                 (2759, [CInt 3065; CStr "6VL"; CStr "ligand 3065"]))
    as (shown & -> & H1 & H2);
    try reflexivity; try discriminate; simpl; auto.
  exists nb', shown. auto.
Defined.

(** ** The tokenizer reads what the writer wrote *)

Lemma feed_app (t : tokenizer) (a b : string) :
  feed t (a ++ b) = feed (feed t a) b.
Proof. revert t; induction a as [| c a IH]; intros t; simpl; auto. Qed.

(** Name the transition that [step] takes in the state at hand. *)
Ltac step_is f :=
  match goal with
  | |- context [step ?t ?c] => change (step t c) with (f t c)
  end.

Lemma printable_ordinary (s : string) :
  printable s = true -> needs_quoting s = false ->
  string_forallb ordinary s = true.
Proof.
  unfold printable, needs_quoting.
  induction s as [| c s IH]; simpl; [reflexivity |].
  intros Hp Hq. apply andb_true_iff in Hp as [Hc Hp].
  apply orb_false_iff in Hq as [Hs Hq].
  rewrite (IH Hp Hq), andb_true_r.
  unfold special in Hs.
  apply orb_false_iff in Hs as [Hs Hlf].
  apply orb_false_iff in Hs as [Hd Hqt].
  unfold ordinary. rewrite Hlf, Hd, Hqt. simpl. rewrite andb_true_r.
  destruct (Ascii.eqb_spec c CR) as [-> | _]; [discriminate | reflexivity].
Qed.

Lemma step_ordinary (st : tstate) w ln lns (c : ascii) :
  in_word st -> ordinary c = true ->
  exists st',
    in_word st'
    /\ step (mkTokenizer st w ln lns) c
       = mkTokenizer st' (w ++ String c EmptyString) ln lns.
Proof.
  unfold ordinary. intros Hst Hc.
  apply andb_true_iff in Hc as [Hc Hq].
  apply andb_true_iff in Hc as [Hc Hd].
  apply andb_true_iff in Hc as [Hlf Hcr].
  apply negb_true_iff in Hq, Hd, Hlf, Hcr.
  destruct Hst as [-> | ->].
  - exists IN_FIELD. split; [now left |].
    step_is in_field. unfold in_field. now rewrite Hlf, Hcr, Hd.
  - step_is whitespace_line.
    unfold whitespace_line, in_field. rewrite Hlf, Hcr, Hd.
    destruct (is_blank c).
    + exists WHITESPACE_LINE. split; [now right | reflexivity].
    + exists IN_FIELD. split; [now left | reflexivity].
Qed.

Lemma feed_ordinary (f : string) :
  string_forallb ordinary f = true ->
  forall st w ln lns,
    in_word st ->
    exists st',
      in_word st'
      /\ feed (mkTokenizer st w ln lns) f = mkTokenizer st' (w ++ f) ln lns.
Proof.
  induction f as [| c f IH]; intros Hf st w ln lns Hst.
  - exists st. split; [exact Hst |]. simpl. now rewrite append_nil_r.
  - simpl in Hf. apply andb_true_iff in Hf as [Hc Hf]. simpl.
    destruct (step_ordinary st w ln lns c Hst Hc) as (st1 & Hst1 & ->).
    destruct (IH Hf st1 (w ++ String c EmptyString)%string ln lns Hst1)
      as (st2 & Hst2 & ->).
    exists st2. split; [exact Hst2 |]. now rewrite append_cons_r.
Qed.

Lemma step_delimiter_in_word (st : tstate) w ln lns :
  in_word st ->
  step (mkTokenizer st w ln lns) delimiter
  = mkTokenizer START_FIELD EmptyString (ln ++ [w]) lns.
Proof. intros [-> | ->]; reflexivity. Qed.

Lemma step_delimiter_at_start (st : tstate) ln lns :
  at_start st ->
  step (mkTokenizer st EmptyString ln lns) delimiter
  = mkTokenizer START_FIELD EmptyString (ln ++ [EmptyString]) lns.
Proof. intros [-> | ->]; reflexivity. Qed.

Lemma step_first_ordinary (st : tstate) ln lns (c : ascii) :
  at_start st -> ordinary c = true ->
  exists st',
    in_word st'
    /\ step (mkTokenizer st EmptyString ln lns) c
       = mkTokenizer st' (String c EmptyString) ln lns.
Proof.
  unfold ordinary. intros Hst Hc.
  apply andb_true_iff in Hc as [Hc Hq].
  apply andb_true_iff in Hc as [Hc Hd].
  apply andb_true_iff in Hc as [Hlf Hcr].
  apply negb_true_iff in Hq, Hd, Hlf, Hcr.
  destruct Hst as [-> | ->].
  - exists IN_FIELD. split; [now left |].
    step_is start_field. unfold start_field. now rewrite Hlf, Hcr, Hq, Hd.
  - step_is start_record.
    unfold start_record, start_field. rewrite Hlf, Hcr, Hq, Hd.
    destruct (is_blank c).
    + exists WHITESPACE_LINE. split; [now right | reflexivity].
    + exists IN_FIELD. split; [now left | reflexivity].
Qed.

(** An unquoted field and the delimiter after it. *)
Lemma feed_unquoted_delimiter (f : string) (st : tstate) ln lns :
  at_start st -> string_forallb ordinary f = true ->
  feed (mkTokenizer st EmptyString ln lns) (f ++ String delimiter EmptyString)
  = mkTokenizer START_FIELD EmptyString (ln ++ [f]) lns.
Proof.
  intros Hst Hf. destruct f as [| c f]; simpl.
  - now apply step_delimiter_at_start.
  - simpl in Hf. apply andb_true_iff in Hf as [Hc Hf].
    destruct (step_first_ordinary st ln lns c Hst Hc) as (st1 & Hst1 & ->).
    rewrite feed_app.
    destruct (feed_ordinary f Hf st1 (String c EmptyString) ln lns Hst1)
      as (st2 & Hst2 & ->).
    simpl. now apply step_delimiter_in_word.
Qed.

(** An unquoted field that is not the first of its line, and the line
    feed after it. *)
Lemma feed_unquoted_newline (f : string) ln lns :
  string_forallb ordinary f = true ->
  feed (mkTokenizer START_FIELD EmptyString ln lns) (f ++ String LF EmptyString)
  = mkTokenizer START_RECORD EmptyString [] (lns ++ [ln ++ [f]]).
Proof.
  intros Hf. destruct f as [| c f]; simpl; [reflexivity |].
  simpl in Hf. apply andb_true_iff in Hf as [Hc Hf].
  assert (Hstep : step (mkTokenizer START_FIELD EmptyString ln lns) c
                  = mkTokenizer IN_FIELD (String c EmptyString) ln lns).
  { unfold ordinary in Hc.
    apply andb_true_iff in Hc as [Hc Hq].
    apply andb_true_iff in Hc as [Hc Hd].
    apply andb_true_iff in Hc as [Hlf Hcr].
    apply negb_true_iff in Hq, Hd, Hlf, Hcr.
    step_is start_field. unfold start_field. now rewrite Hlf, Hcr, Hq, Hd. }
  rewrite Hstep, feed_app. clear Hstep Hc.
  assert (Hin : forall g w,
             string_forallb ordinary g = true ->
             feed (mkTokenizer IN_FIELD w ln lns) g
             = mkTokenizer IN_FIELD (w ++ g) ln lns).
  { induction g as [| d g IH]; intros w Hg; simpl.
    - now rewrite append_nil_r.
    - simpl in Hg. apply andb_true_iff in Hg as [Hd Hg].
      unfold ordinary in Hd.
      apply andb_true_iff in Hd as [Hd Hq].
      apply andb_true_iff in Hd as [Hd Hdl].
      apply andb_true_iff in Hd as [Hlf Hcr].
      apply negb_true_iff in Hq, Hdl, Hlf, Hcr.
      step_is in_field. unfold in_field. rewrite Hlf, Hcr, Hdl.
      change (set_state IN_FIELD
                (push_char d (mkTokenizer IN_FIELD w ln lns)))
        with (mkTokenizer IN_FIELD (w ++ String d EmptyString) ln lns).
      rewrite IH by assumption. now rewrite append_cons_r. }
  rewrite Hin by assumption. reflexivity.
Qed.

(** The inside of a quoted field, up to the quote that closes it. *)
Lemma feed_quoted (f : string) w ln lns :
  feed (mkTokenizer IN_QUOTED_FIELD w ln lns)
       (double_quotes f ++ String quotechar EmptyString)
  = mkTokenizer QUOTE_IN_QUOTED_FIELD (w ++ f) ln lns.
Proof.
  revert w; induction f as [| c f IH]; intros w; simpl.
  - now rewrite append_nil_r.
  - destruct (Ascii.eqb_spec c quotechar) as [-> | Hne]; simpl.
    + change (feed (mkTokenizer IN_QUOTED_FIELD
                      (w ++ String quotechar EmptyString) ln lns)
                (double_quotes f ++ String quotechar EmptyString)
              = mkTokenizer QUOTE_IN_QUOTED_FIELD
                  (w ++ String quotechar f) ln lns).
      rewrite IH. now rewrite append_cons_r.
    + step_is in_quoted_field.
      unfold in_quoted_field. apply Ascii.eqb_neq in Hne. rewrite Hne.
      change (push_char c (mkTokenizer IN_QUOTED_FIELD w ln lns))
        with (mkTokenizer IN_QUOTED_FIELD (w ++ String c EmptyString) ln lns).
      rewrite IH. now rewrite append_cons_r.
Qed.

Lemma step_open_quote (st : tstate) ln lns :
  at_start st ->
  step (mkTokenizer st EmptyString ln lns) quotechar
  = mkTokenizer IN_QUOTED_FIELD EmptyString ln lns.
Proof. intros [-> | ->]; reflexivity. Qed.

Lemma feed_field_delimiter (f : string) (st : tstate) ln lns :
  at_start st -> readable f ->
  feed (mkTokenizer st EmptyString ln lns)
       (write_field f ++ String delimiter EmptyString)
  = mkTokenizer START_FIELD EmptyString (ln ++ [f]) lns.
Proof.
  intros Hst Hf. unfold write_field.
  destruct (needs_quoting f) eqn:E.
  - cbn [append feed]. rewrite (step_open_quote st ln lns Hst).
    rewrite feed_app, feed_quoted. reflexivity.
  - destruct Hf as [Hf | Hf]; [congruence |].
    now apply feed_unquoted_delimiter.
Qed.

Lemma feed_field_newline (f : string) ln lns :
  readable f ->
  feed (mkTokenizer START_FIELD EmptyString ln lns)
       (write_field f ++ String LF EmptyString)
  = mkTokenizer START_RECORD EmptyString [] (lns ++ [ln ++ [f]]).
Proof.
  intros Hf. unfold write_field.
  destruct (needs_quoting f) eqn:E.
  - cbn [append feed].
    change (step (mkTokenizer START_FIELD EmptyString ln lns) quotechar)
      with (mkTokenizer IN_QUOTED_FIELD EmptyString ln lns).
    rewrite feed_app, feed_quoted. reflexivity.
  - destruct Hf as [Hf | Hf]; [congruence |].
    now apply feed_unquoted_newline.
Qed.

Lemma append_split (a : string) (c : ascii) (b d : string) :
  ((a ++ String c b) ++ d)%string
  = ((a ++ String c EmptyString) ++ (b ++ d))%string.
Proof. now rewrite !append_assoc. Qed.

Lemma feed_join (fs : list string) :
  fs <> [] -> Forall readable fs ->
  forall ln lns,
    feed (mkTokenizer START_FIELD EmptyString ln lns)
         (join_fields (map write_field fs) ++ String LF EmptyString)
    = mkTokenizer START_RECORD EmptyString [] (lns ++ [ln ++ fs]).
Proof.
  induction fs as [| f fs IH]; intros Hne Hall ln lns; [contradiction |].
  inversion Hall as [| ? ? Hf Hfs]; subst.
  destruct fs as [| g fs].
  - simpl. now apply feed_field_newline.
  - change (join_fields (map write_field (f :: g :: fs)))
      with (write_field f
            ++ String delimiter (join_fields (map write_field (g :: fs))))%string.
    rewrite append_split, feed_app.
    rewrite (feed_field_delimiter f START_FIELD ln lns (or_introl eq_refl) Hf).
    rewrite IH by (auto; discriminate).
    now rewrite <- app_assoc.
Qed.

Lemma writerow_two (f g : string) (fs : list string) :
  writerow (f :: g :: fs)
  = (join_fields (map write_field (f :: g :: fs)) ++ String LF EmptyString)%string.
Proof. destruct f; reflexivity. Qed.

Lemma feed_writerow (fields : list string) (lns : list (list string)) :
  readable_record fields ->
  feed (mkTokenizer START_RECORD EmptyString [] lns) (writerow fields)
  = mkTokenizer START_RECORD EmptyString [] (lns ++ [fields]).
Proof.
  intros [Hlen Hall].
  destruct fields as [| f [| g fs]]; simpl in Hlen; try lia.
  inversion Hall as [| ? ? Hf Hfs]; subst.
  rewrite writerow_two.
  change (join_fields (map write_field (f :: g :: fs)))
    with (write_field f
          ++ String delimiter (join_fields (map write_field (g :: fs))))%string.
  rewrite append_split, feed_app.
  rewrite (feed_field_delimiter f START_RECORD [] lns (or_intror eq_refl) Hf).
  rewrite feed_join by (auto; discriminate).
  reflexivity.
Qed.

Lemma feed_writerows (records : list (list string)) :
  Forall readable_record records ->
  forall lns,
    feed (mkTokenizer START_RECORD EmptyString [] lns) (writerows records)
    = mkTokenizer START_RECORD EmptyString [] (lns ++ records).
Proof.
  induction 1 as [| r rs Hr Hrs IH]; intros lns; simpl.
  - now rewrite app_nil_r.
  - rewrite feed_app, feed_writerow by assumption.
    rewrite IH. now rewrite <- app_assoc.
Qed.

(** The tokenizer gives back the records that the writer was given. *)
Lemma tokenize_writerows (records : list (list string)) :
  Forall readable_record records ->
  tokenize (writerows records) = inr records.
Proof.
  intros H. unfold tokenize. now rewrite feed_writerows.
Qed.

(** ** Numbers read back *)

Lemma uint_digits (d : Decimal.uint) :
  string_forallb is_digit (NilEmpty.string_of_uint d) = true.
Proof. induction d; simpl; auto. Qed.

Lemma span_digits_all (s : string) :
  string_forallb is_digit s = true -> span_digits s = (s, EmptyString).
Proof.
  induction s as [| c s IH]; simpl; [reflexivity |].
  intros H. apply andb_true_iff in H as [Hc Hs].
  now rewrite Hc, (IH Hs).
Qed.

Lemma digit_not_space (c : ascii) : is_digit c = true -> is_space c = false.
Proof.
  unfold is_digit, is_space. intros H.
  apply andb_true_iff in H as [H1 H2].
  apply Nat.leb_le in H1, H2.
  destruct (Nat.eqb_spec (nat_of_ascii c) 32); [lia |].
  destruct (Nat.leb_spec (nat_of_ascii c) 13); [lia |].
  now rewrite andb_false_r.
Qed.

Lemma digit_not_sign (c : ascii) :
  is_digit c = true ->
  Ascii.eqb c "-"%char = false /\ Ascii.eqb c "+"%char = false.
Proof.
  intros H. split; apply Ascii.eqb_neq; intros ->; discriminate.
Qed.

(** The converter on the digits of a number that is not [Nil]. *)
Lemma str_to_int64_digits (d : Decimal.uint) (negative : bool) :
  d <> Decimal.Nil ->
  let v := if negative then - Z.of_uint d else Z.of_uint d in
  in_int64 v = true ->
  str_to_int64 ((if negative then String "-"%char EmptyString else EmptyString)
                ++ NilEmpty.string_of_uint d)
  = Some v.
Proof.
  intros Hd v Hv.
  pose proof (uint_digits d) as Hdig.
  pose proof (NilEmpty.usu d) as Husu.
  destruct (NilEmpty.string_of_uint d) as [| c s] eqn:E.
  { destruct d; discriminate || contradiction. }
  simpl in Hdig. apply andb_true_iff in Hdig as [Hc Hs].
  pose proof (digit_not_space c Hc) as Hsp.
  destruct (digit_not_sign c Hc) as [Hm Hpl].
  assert (Hspan : span_digits (String c s) = (String c s, EmptyString)).
  { apply span_digits_all. simpl. now rewrite Hc, Hs. }
  unfold str_to_int64.
  destruct negative.
  - change (skip_sign (skip_spaces (String "-" EmptyString ++ String c s)))
      with (true, String c s).
    cbv beta iota. rewrite Hspan. cbn [is_empty skip_spaces negb].
    rewrite Husu. fold v. now rewrite Hv.
  - change (EmptyString ++ String c s)%string with (String c s).
    cbn [skip_spaces]. rewrite Hsp.
    cbn [skip_sign]. rewrite Hm, Hpl.
    cbv beta iota. rewrite Hspan. cbn [is_empty skip_spaces negb].
    rewrite Husu. fold v. now rewrite Hv.
Qed.

Lemma str_to_int64_str_of_int (z : Z) :
  in_int64 z = true -> str_to_int64 (str_of_int z) = Some z.
Proof.
  intros Hz. unfold str_of_int.
  pose proof (DecimalZ.of_to z) as Hof.
  destruct z as [| p | p]; [reflexivity | |]; simpl Z.to_int in *;
    pose proof (DecimalPos.Unsigned.to_uint_nonnil p) as Hn;
    simpl Z.of_int in Hof; revert Hn Hof;
    generalize (Pos.to_uint p) as d; intros d Hn Hof.
  - replace (NilZero.string_of_int (Decimal.Pos d))
      with (EmptyString ++ NilEmpty.string_of_uint d)%string
      by (destruct d; simpl; congruence).
    rewrite (str_to_int64_digits _ false Hn); rewrite Hof; auto.
  - replace (NilZero.string_of_int (Decimal.Neg d))
      with (String "-"%char EmptyString ++ NilEmpty.string_of_uint d)%string
      by (destruct d; simpl; congruence).
    rewrite (str_to_int64_digits _ true Hn); rewrite Hof; auto.
Qed.




Lemma digits_printable (s : string) :
  string_forallb is_digit s = true -> printable s = true.
Proof.
  unfold printable. induction s as [| c s IH]; simpl; [reflexivity |].
  intros H. apply andb_true_iff in H as [Hc Hs]. rewrite (IH Hs), andb_true_r.
  unfold is_digit in Hc. apply andb_true_iff in Hc as [Hc _].
  apply Nat.leb_le in Hc. unfold is_control.
  apply negb_true_iff, Nat.ltb_ge. lia.
Qed.

Lemma int_printable (z : Z) : printable (str_of_int z) = true.
Proof.
  unfold str_of_int.
  destruct z as [| p | p]; [reflexivity | |]; simpl Z.to_int;
    generalize (Pos.to_uint p) as d; intros d;
    pose proof (uint_digits d) as Hd; apply digits_printable in Hd.
  - destruct d; simpl in *; auto.
  - destruct d; simpl in *; auto.
Qed.

Lemma plain_cell_printable (c : cell) :
  plain_cell c = true -> printable (cell_text c) = true.
Proof.
  destruct c as [z | s | | s | [|]]; simpl; auto using int_printable.
Qed.

(** ** The parser on a written table *)

Lemma fit_exact (w : nat) (fields : list string) :
  length fields = w -> fit w fields = inr fields.
Proof.
  intros <-. unfold fit. rewrite Nat.ltb_irrefl, Nat.sub_diag. simpl.
  now rewrite app_nil_r.
Qed.

Lemma mapM_fit_exact (w : nat) (body : list (list string)) :
  Forall (fun fields => length fields = w) body ->
  mapM (fit w) body = inr body.
Proof.
  induction 1 as [| f body Hf Hbody IH]; simpl; [reflexivity |].
  now rewrite (fit_exact w f Hf), IH.
Qed.

(** ** Text that comes back *)


Lemma unquoted_ordinary (s : string) :
  needs_quoting s = false -> has_char CR s = false ->
  string_forallb ordinary s = true.
Proof.
  unfold needs_quoting, has_char.
  induction s as [| c s IH]; cbn [string_existsb string_forallb];
    [reflexivity |].
  intros Hq Hcr.
  apply orb_false_iff in Hq as [Hc Hq], Hcr as [Hc' Hcr].
  rewrite (IH Hq Hcr), andb_true_r.
  unfold special in Hc. unfold ordinary.
  apply orb_false_iff in Hc as [Hc Hlf].
  apply orb_false_iff in Hc as [Hd Hquote].
  rewrite Ascii.eqb_sym in Hc'.
  now rewrite Hlf, Hc', Hd, Hquote.
Qed.

Lemma bare_cr_readable (s : string) : bare_cr s = false -> readable s.
Proof.
  unfold bare_cr, readable. intros H.
  destruct (needs_quoting s) eqn:Hq; [now left | right].
  apply unquoted_ordinary; [exact Hq |].
  now rewrite andb_true_r in H.
Qed.

Lemma clean_bare_cr (s : string) : clean s = true -> bare_cr s = false.
Proof.
  unfold clean. intros H. apply andb_true_iff in H as [_ H].
  now apply negb_true_iff in H.
Qed.

Lemma clean_readable (s : string) : clean s = true -> readable s.
Proof. intros H. now apply bare_cr_readable, clean_bare_cr. Qed.


Lemma printable_clean (s : string) : printable s = true -> clean s = true.
Proof.
  intros Hp. unfold clean, bare_cr.
  assert (H : forall a, is_control a = true -> has_char a s = false).
  { intros a Ha. unfold has_char, printable in *.
    induction s as [| c s IH]; cbn [string_existsb string_forallb] in *;
      [reflexivity |].
    apply andb_true_iff in Hp as [Hc Hs]. rewrite (IH Hs), orb_false_r.
    destruct (Ascii.eqb_spec a c) as [-> |]; [| reflexivity].
    now rewrite Ha in Hc. }
  rewrite (H NUL eq_refl), (H CR eq_refl). reflexivity.
Qed.

Lemma plain_clean (df : DataFrame) : plain_cells df -> clean_cells df.
Proof.
  unfold plain_cells, clean_cells. intros H.
  eapply Forall_impl; [| exact H]. intros r Hr. cbv beta in Hr.
  eapply Forall_impl; [| exact Hr]. intros c Hc. cbv beta in Hc.
  now apply printable_clean, plain_cell_printable.
Qed.

Lemma clean_no_bare_cr (df : DataFrame) : clean_cells df -> no_bare_cr df.
Proof.
  unfold clean_cells, no_bare_cr. intros H.
  eapply Forall_impl; [| exact H]. intros r Hr. cbv beta in Hr.
  eapply Forall_impl; [| exact Hr]. intros c Hc. cbv beta in Hc.
  now apply clean_bare_cr.
Qed.


(** ** Chunks *)

Lemma concat_chunks_of {A} (fuel n : nat) (l : list A) :
  concat (chunks_of fuel n l) = l.
Proof.
  revert l; induction fuel as [| fuel IH]; intros [| x l]; try reflexivity.
  - simpl. now rewrite app_nil_r.
  - cbn [chunks_of concat]. rewrite IH. apply firstn_skipn.
Qed.

Lemma concat_chunks {A} (n : nat) (l : list A) : concat (chunks n l) = l.
Proof. apply concat_chunks_of. Qed.

(** A table of no more rows than a chunk holds is one chunk. *)
Lemma chunks_one {A} (n : nat) (l : list A) :
  l <> [] -> (length l <= n)%nat -> chunks n l = [l].
Proof.
  intros Hne Hlen. unfold chunks.
  destruct l as [| x l]; [congruence |].
  cbn [length chunks_of].
  rewrite firstn_all2 by exact Hlen.
  rewrite skipn_all2 by exact Hlen.
  now destruct (length l).
Qed.

Lemma buffer_lines_7 : buffer_lines 7 = Z.to_nat ONE_CHUNK.
Proof. unfold buffer_lines. f_equal. Qed.

(** ** The cells that the parser gives *)

Lemma length_convert_row (dtypes : list dtype) (fields : list string) :
  length dtypes = length fields ->
  length (convert_row dtypes fields) = length fields.
Proof.
  revert fields; induction dtypes as [| t ts IH]; intros [| f fs] H;
    simpl in *; try discriminate; auto.
Qed.

Lemma length_cast_row (ts : list dtype) (cells : list cell) :
  length ts = length cells -> length (cast_row ts cells) = length cells.
Proof.
  revert cells; induction ts as [| t ts IH]; intros [| c cs] H;
    simpl in *; try discriminate; auto.
Qed.

Lemma nth_cast_row (ts : list dtype) (cells : list cell) (j : nat) :
  (j < length ts)%nat -> (j < length cells)%nat ->
  nth j (cast_row ts cells) CNaN = cast (nth j ts object_) (nth j cells CNaN).
Proof.
  revert cells j; induction ts as [| t ts IH]; intros [| c cs] [| j];
    simpl; try lia; auto.
  intros H1 H2. apply IH; lia.
Qed.

Lemma nth_convert_fields (dtypes : list dtype) (fields : list string) (j : nat) :
  (j < length dtypes)%nat -> (j < length fields)%nat ->
  nth j (convert_row dtypes fields) CNaN
  = convert (nth j dtypes object_) (nth j fields EmptyString).
Proof.
  revert fields j; induction dtypes as [| t ts IH]; intros [| f fs] [| j];
    simpl; try lia; auto.
  intros H1 H2. apply IH; lia.
Qed.

Lemma nth_seq_map {A} (f : nat -> A) (w j : nat) (d : A) :
  (j < w)%nat -> nth j (map f (seq 0 w)) d = f j.
Proof.
  intros Hj.
  rewrite (nth_indep _ d (f 0%nat)) by (now rewrite length_map, length_seq).
  rewrite (map_nth f (seq 0 w) 0%nat j). now rewrite seq_nth.
Qed.

Lemma convert_chunks_rows (w : nat) (common : list dtype)
    (cs : list (list (list string))) :
  Forall2 (fun fields cells =>
             exists chunk,
               In chunk cs /\ In fields chunk
               /\ cells = cast_row common
                            (convert_row (chunk_dtypes w chunk) fields))
          (concat cs) (concat (map (convert_chunk w common) cs)).
Proof.
  induction cs as [| c cs IH]; [constructor |].
  cbn [concat map]. apply Forall2_app.
  - unfold convert_chunk.
    assert (H : forall l, incl l c ->
              Forall2 (fun fields cells =>
                exists chunk, In chunk (c :: cs) /\ In fields chunk
                  /\ cells = cast_row common
                               (convert_row (chunk_dtypes w chunk) fields))
                l (map (fun fields =>
                          cast_row common
                            (convert_row (chunk_dtypes w c) fields)) l)).
    { induction l as [| f l IHl]; intros Hl; [constructor |].
      cbn [map]. constructor.
      - exists c. split; [now left |]. split; [| reflexivity].
        apply Hl. now left.
      - apply IHl. intros x Hx. apply Hl. now right. }
    apply H. apply incl_refl.
  - eapply Forall2_impl; [| exact IH].
    intros fields cells (chunk & Hin & Hf & Hc).
    exists chunk. split; [now right | auto].
Qed.

Lemma convert_body_rows (w : nat) (body : list (list string)) :
  Forall2 (row_read w (chunks (buffer_lines w) body))
          body (convert_body w body).
Proof.
  unfold convert_body, row_read.
  pose proof (convert_chunks_rows w
                (common_dtypes w (chunks (buffer_lines w) body))
                (chunks (buffer_lines w) body)) as H.
  now rewrite concat_chunks in H.
Qed.

Lemma Forall2_nth_error {A B} (R : A -> B -> Prop) (l : list A) (l' : list B) :
  Forall2 R l l' ->
  forall i x, nth_error l i = Some x ->
    exists y, nth_error l' i = Some y /\ R x y.
Proof.
  induction 1 as [| a b l l' Hab _ IH]; intros [| i] x Hx;
    simpl in *; try discriminate.
  - injection Hx as <-. eauto.
  - eauto.
Qed.

Lemma length_convert_body (w : nat) (body : list (list string)) :
  length (convert_body w body) = length body.
Proof.
  symmetry. eapply Forall2_length. apply convert_body_rows.
Qed.

(** The cell in column [j] of a row that the parser gives. *)
Lemma row_read_cell (w : nat) (cs : list (list (list string)))
    (fields : list string) (cells : list cell) (j : nat) :
  row_read w cs fields cells ->
  length fields = w -> (j < w)%nat ->
  length cells = w
  /\ exists chunk,
      In chunk cs /\ In fields chunk
      /\ nth j cells CNaN
         = cast (result_dtype
                   (map (fun c => array_dtype (column_fields j c)) cs))
                (convert (infer_dtype (column_fields j chunk))
                         (nth j fields EmptyString)).
Proof.
  intros (chunk & Hin & Hf & ->) Hlen Hj.
  assert (L1 : length (chunk_dtypes w chunk) = w)
    by (unfold chunk_dtypes; now rewrite length_map, length_seq).
  assert (L2 : length (common_dtypes w cs) = w)
    by (unfold common_dtypes; now rewrite length_map, length_seq).
  assert (L3 : length (convert_row (chunk_dtypes w chunk) fields) = w)
    by (rewrite length_convert_row; congruence).
  split; [rewrite length_cast_row; congruence |].
  exists chunk. split; [exact Hin |]. split; [exact Hf |].
  rewrite nth_cast_row by lia.
  rewrite nth_convert_fields by lia.
  unfold common_dtypes, chunk_dtypes.
  now rewrite !nth_seq_map by exact Hj.
Qed.

Lemma in_column_fields (j : nat) (chunk : list (list string))
    (fields : list string) :
  In fields chunk -> In (nth j fields EmptyString) (column_fields j chunk).
Proof.
  intros H. unfold column_fields.
  apply (in_map (fun l => nth j l EmptyString)). exact H.
Qed.

(** ** Dtypes *)


Lemma promote_object_r (t : dtype) : promote t object_ = object_.
Proof.
  now destruct t.
Qed.

Lemma fold_promote_object (ts : list dtype) :
  fold_left promote ts object_ = object_.
Proof.
  induction ts as [| t ts IH]; simpl; auto.
Qed.

Lemma fold_promote_in (ts : list dtype) (t : dtype) :
  In object_ ts -> fold_left promote ts t = object_.
Proof.
  revert t; induction ts as [| t' ts IH]; intros t; [intros [] |].
  intros [-> | Hin]; simpl.
  - rewrite promote_object_r. apply fold_promote_object.
  - now apply IH.
Qed.

(** One chunk of objects makes the column a column of objects. *)
Lemma result_dtype_object (ts : list dtype) :
  In object_ ts -> result_dtype ts = object_.
Proof.
  destruct ts as [| t ts]; [intros [] |].
  intros [-> | Hin]; simpl.
  - apply fold_promote_object.
  - now apply fold_promote_in.
Qed.


(** ** The parser on a written table *)

Lemma read_back (df : DataFrame) :
  (2 <= length (columns df))%nat ->
  Forall (fun l => bare_cr l = false) (columns df) ->
  well_formed df -> no_bare_cr df ->
  read_csv_text (to_csv_text df)
  = inr (mkDataFrame (map c_string (columns df))
           (range_index 0
              (convert_body (length (columns df))
                 (map (map c_string) (texts df))))).
Proof.
  intros Hw Hlabels Hwf Hcr.
  unfold read_csv_text, to_csv_text. fold (texts df).
  rewrite tokenize_writerows.
  - cbn [bind map]. rewrite length_map.
    rewrite mapM_fit_exact; [reflexivity |].
    unfold texts. rewrite !Forall_map.
    eapply Forall_impl; [| exact Hwf]. intros r Hr. simpl.
    now rewrite !length_map.
  - constructor.
    + split; [exact Hw |].
      eapply Forall_impl; [| exact Hlabels]. apply bare_cr_readable.
    + unfold texts. rewrite Forall_map.
      unfold well_formed, no_bare_cr in *. rewrite Forall_forall in *.
      intros r Hr. split.
      * rewrite length_map, (Hwf r Hr). exact Hw.
      * rewrite Forall_map. eapply Forall_impl; [| exact (Hcr r Hr)].
        intros c Hc. now apply bare_cr_readable.
Qed.


Lemma nth_error_range_index (start : Z) (cells : list (list cell)) (i : nat) :
  nth_error (range_index start cells) i
  = option_map (fun c => (start + Z.of_nat i, c)) (nth_error cells i).
Proof.
  revert start i; induction cells as [| c cs IH]; intros start [| i]; simpl;
    auto.
  - now rewrite Z.add_0_r.
  - rewrite IH. destruct (nth_error cs i); simpl; [| reflexivity].
    do 2 f_equal. lia.
Qed.

Lemma length_range_index (start : Z) (cells : list (list cell)) :
  length (range_index start cells) = length cells.
Proof. revert start; induction cells; intros; simpl; auto. Qed.

Lemma forallb_false {A} (f : A -> bool) (l : list A) (x : A) :
  In x l -> f x = false -> forallb f l = false.
Proof.
  intros Hin Hx. destruct (forallb f l) eqn:E; [| reflexivity].
  rewrite forallb_forall in E. now rewrite (E x Hin) in Hx.
Qed.

(** A column with a field that is no marker of a missing value, no number
    and no truth value is read as text. *)
Lemma infer_dtype_object (fields : list string) (s : string) :
  In s fields ->
  is_na_value s = false -> str_to_int64 s = None ->
  float_like s = false -> bool_like s = false ->
  infer_dtype fields = object_.
Proof.
  intros Hin Hna Hint Hfloat Hbool.
  destruct fields as [| f fs]; [destruct Hin |].
  unfold infer_dtype.
  rewrite (forallb_false _ _ s Hin) by (now rewrite Hint, andb_false_r).
  rewrite (forallb_false _ _ s Hin) by (now rewrite Hna, Hfloat).
  rewrite (forallb_false _ _ s Hin) by (now rewrite Hna, Hbool).
  reflexivity.
Qed.

Lemma ends_with_app (suffix a b : string) :
  ends_with suffix b = true -> ends_with suffix (a ++ b) = true.
Proof.
  intros H. induction a as [| c a IH]; simpl; [exact H |].
  rewrite IH. apply orb_true_r.
Qed.

Lemma filename_is_zip (stamp : string) :
  ends_with ".zip" ("klifs_ids." ++ stamp ++ ".csv.zip") = true.
Proof. do 2 apply ends_with_app. reflexivity. Qed.

(** Reading the file that the save cell wrote. *)
Lemma read_saved env nb nb' df :
  structures_all nb = Some df ->
  cell_6 env nb = inr nb' ->
  exists name,
    filename nb' = Some name
    /\ read_csv (disk nb') name = read_csv_text (to_csv_text df).
Proof.
  intros Hdf H. apply cell_6_inr in H as (df' & name & Hdf' & Hname & _ & ->).
  assert (df' = df) by congruence; subst df'.
  exists name. split; [reflexivity |]. simpl disk.
  unfold read_csv. rewrite fs_lookup_write.
  rewrite Hname at 1. now rewrite filename_is_zip.
Qed.

(** The table read from the saved file, cell by cell: the text of the
    cell as far as it is read, converted with the dtype inferred from the
    texts [fs] of its column in its chunk and cast to the dtype [t] of
    the column.  A chunk of objects makes [t] the dtype of objects; a
    table of one chunk has the whole column for [fs]. *)
Lemma saved_and_loaded env nb nb' df :
  structures_all nb = Some df ->
  columns df = ID_COLUMNS ->
  well_formed df ->
  no_bare_cr df ->
  cell_6 env nb = inr nb' ->
  exists name loaded,
    filename nb' = Some name
    /\ read_csv (disk nb') name = inr loaded
    /\ columns loaded = ID_COLUMNS
    /\ length (rows loaded) = length (rows df)
    /\ forall i r,
        nth_error (rows df) i = Some r ->
        exists r',
          nth_error (rows loaded) i = Some r'
          /\ fst r' = Z.of_nat i
          /\ length (snd r') = 7%nat
          /\ forall j, (j < 7)%nat ->
              exists fs t,
                In (c_string (cell_text (cell_at j r))) fs
                /\ cell_at j r'
                   = cast t (convert (infer_dtype fs)
                                     (c_string (cell_text (cell_at j r))))
                /\ (array_dtype fs = object_ -> t = object_)
                /\ (Z.of_nat (length (rows df)) <= ONE_CHUNK ->
                    fs = map (fun c => c_string (cell_text c)) (column j df)
                    /\ t = array_dtype fs).
Proof.
  intros Hdf Hcols Hwf Hcr Hsave.
  destruct (read_saved env nb nb' df Hdf Hsave) as (name & Hname & Hread).
  assert (Hw : (2 <= length (columns df))%nat) by (rewrite Hcols; simpl; lia).
  assert (Hlabels : Forall (fun l => bare_cr l = false) (columns df))
    by (rewrite Hcols; repeat constructor).
  rewrite (read_back df Hw Hlabels Hwf Hcr) in Hread.
  eexists name, _. split; [exact Hname |]. split; [exact Hread |].
  cbn [columns rows]. split; [rewrite Hcols; reflexivity |].
  set (body := map (map c_string) (texts df)).
  assert (Hlen : length body = length (rows df))
    by (unfold body, texts; now rewrite !length_map).
  split.
  { now rewrite length_range_index, length_convert_body. }
  intros i r Hr.
  assert (Hwidth : length (snd r) = 7%nat).
  { unfold well_formed in Hwf. rewrite Forall_forall in Hwf.
    rewrite (Hwf r (nth_error_In _ _ Hr)), Hcols. reflexivity. }
  set (fields := map c_string (map cell_text (snd r))).
  assert (Hfields : nth_error body i = Some fields).
  { unfold body, texts, fields. now rewrite !nth_error_map, Hr. }
  rewrite Hcols. change (length ID_COLUMNS) with 7%nat.
  destruct (Forall2_nth_error _ _ _ (convert_body_rows 7 body)
              i _ Hfields) as (cells & Hcells & Hrow).
  rewrite nth_error_range_index, Hcells. cbn [option_map].
  eexists. split; [reflexivity |]. cbn [fst snd].
  split; [lia |].
  assert (Hflen : length fields = 7%nat)
    by (unfold fields; now rewrite !length_map).
  split.
  { destruct (row_read_cell 7 _ _ _ 0 Hrow Hflen) as [H _]; [lia | exact H]. }
  intros j Hj.
  destruct (row_read_cell 7 _ _ _ j Hrow Hflen Hj)
    as (_ & chunk & Hin & Hf & Hcell).
  assert (Htext : nth j fields EmptyString
                  = c_string (cell_text (cell_at j r))).
  { unfold fields, cell_at. rewrite map_map.
    change EmptyString with (c_string (cell_text CNaN)) at 1.
    apply (map_nth (fun c => c_string (cell_text c))). }
  rewrite Htext in Hcell.
  exists (column_fields j chunk). eexists.
  split. { rewrite <- Htext. now apply in_column_fields. }
  split; [unfold cell_at at 1; cbn [snd]; exact Hcell |].
  split.
  { intros Ho. apply result_dtype_object.
    rewrite <- Ho.
    apply (in_map (fun c => array_dtype (column_fields j c))). exact Hin. }
  intros Hsmall.
  assert (Hone : chunks (buffer_lines 7) body = [body]).
  { apply chunks_one.
    - intros E. rewrite E in Hfields. destruct i; discriminate.
    - rewrite buffer_lines_7, Hlen. lia. }
  rewrite Hone in Hin |- *. destruct Hin as [<- | []].
  cbn [map result_dtype fold_left].
  assert (Hcol : column_fields j body
                 = map (fun c => c_string (cell_text c)) (column j df)).
  { unfold column_fields, body, texts, column. rewrite !map_map.
    apply map_ext. intros r0. unfold cell_at. rewrite map_map.
    change EmptyString with (c_string (cell_text CNaN)).
    apply (map_nth (fun c => c_string (cell_text c))). }
  rewrite Hcol. split; reflexivity.
Qed.


(** ** Sentinels *)

(** C5, as it fails.  The table with a carriage return in a kinase name
    is a projected and sorted structures table with a dash for the ligand
    of its row.  The writer does not quote the name, the tokenizer ends
    the line at the carriage return, and the row read back has a missing
    value where the table has the dash. *)
Lemma sentinel_lost_after_carriage_return :
  getitem_columns ID_COLUMNS CARRIAGE_TABLE = inr CARRIAGE_TABLE
  /\ sort_values "structure.klifs_id" CARRIAGE_TABLE = inr CARRIAGE_TABLE
  /\ exists nb' loaded,
      cell_6 EXAMPLE_ENV
        (mkNotebook None (Some CARRIAGE_TABLE) None None None [] []) = inr nb'
      /\ read_csv (disk nb') "klifs_ids.20201002.csv.zip" = inr loaded
      /\ nth_error (column 6 CARRIAGE_TABLE) 0 = Some (CStr "-")
      /\ nth_error (column 6 loaded) 0 = Some CNaN.
Proof.
  split; [reflexivity |]. split; [reflexivity |].
  eexists _, _. split; [reflexivity |].
  split; [vm_compute; reflexivity |].
  split; reflexivity.
Qed.

(** C5.  Let the structures table have the seven ID columns and rows of
    seven cells, and let its text hold no carriage return outside quotes.
    Then the file that the save cell writes can be read,
    the table read has as many rows, and wherever a cell of the table is
    the text of a single dash, under the alternate model, the ligand expo
    ID or any other column, the cell read in the same row and column is
    the text of a single dash and not a missing value. *)
Theorem sentinel_read_back :
  forall env nb nb' df,
    structures_all nb = Some df ->
    columns df = ID_COLUMNS ->
    well_formed df ->
    no_bare_cr df ->
    cell_6 env nb = inr nb' ->
    exists name loaded,
      filename nb' = Some name
      /\ read_csv (disk nb') name = inr loaded
      /\ columns loaded = ID_COLUMNS
      /\ length (rows loaded) = length (rows df)
      /\ forall i j r,
          nth_error (rows df) i = Some r ->
          (j < 7)%nat ->
          cell_at j r = CStr "-" ->
          exists r',
            nth_error (rows loaded) i = Some r'
            /\ cell_at j r' = CStr "-"
            /\ isna (cell_at j r') = false.
Proof.
  intros env nb nb' df Hdf Hcols Hwf Hcr Hsave.
  destruct (saved_and_loaded env nb nb' df Hdf Hcols Hwf Hcr Hsave)
    as (name & loaded & Hname & Hread & Hlcols & Hlen & Hcells).
  exists name, loaded. repeat (split; [assumption |]).
  intros i j r Hr Hj Hdash.
  destruct (Hcells i r Hr) as (r' & Hr' & _ & _ & Hcell).
  destruct (Hcell j Hj) as (fs & t & Hin & Hval & Hobj & _).
  rewrite Hdash in Hin, Hval.
  change (c_string (cell_text (CStr "-"))) with "-" in Hin, Hval.
  assert (Hinfer : infer_dtype fs = object_)
    by (apply (infer_dtype_object fs "-" Hin); reflexivity).
  assert (Ht : t = object_).
  { apply Hobj. unfold array_dtype. now rewrite Hinfer. }
  rewrite Hinfer, Ht in Hval.
  exists r'. split; [exact Hr' |].
  rewrite Hval. split; reflexivity.
Qed.

Lemma example_table_clean :
  columns EXAMPLE_TABLE = ID_COLUMNS
  /\ well_formed EXAMPLE_TABLE
  /\ clean_cells EXAMPLE_TABLE
  /\ Z.of_nat (length (rows EXAMPLE_TABLE)) <= ONE_CHUNK
  /\ forall j, (j < 7)%nat -> kept (column j EXAMPLE_TABLE) = true.
Proof.
  split; [reflexivity |].
  split; [repeat constructor |].
  split; [repeat constructor |].
  split; [vm_compute; discriminate |].
  intros j Hj. do 7 (destruct j as [| j]; [vm_compute; reflexivity |]). lia.
Qed.

Lemma sentinel_read_back_witness :
  exists name loaded,
    filename EXAMPLE_SAVED = Some name
    /\ read_csv (disk EXAMPLE_SAVED) name = inr loaded
    /\ columns loaded = ID_COLUMNS
    /\ length (rows loaded) = length (rows EXAMPLE_TABLE)
    /\ forall i j r,
        nth_error (rows EXAMPLE_TABLE) i = Some r ->
        (j < 7)%nat ->
        cell_at j r = CStr "-" ->
        exists r',
          nth_error (rows loaded) i = Some r'
          /\ cell_at j r' = CStr "-"
          /\ isna (cell_at j r') = false.
Proof.
  destruct example_table_clean as (Hc & Hwf & Hclean & _).
  exact (sentinel_read_back EXAMPLE_ENV EXAMPLE_BEFORE_SAVE EXAMPLE_SAVED
           EXAMPLE_TABLE eq_refl Hc Hwf (clean_no_bare_cr _ Hclean) eq_refl).
Defined.

(** ** The round trip *)



(** Likewise a column of text that is all numerals comes back as a
    column of numbers. *)
Lemma round_trip_retypes_numerals :
  exists loaded,
    read_csv_text (to_csv_text NUMERAL_TABLE) = inr loaded
    /\ nth_error (column 6 NUMERAL_TABLE) 0 = Some (CStr "477")
    /\ nth_error (column 6 loaded) 0 = Some (CInt 477).
Proof. eexists. split; [vm_compute; reflexivity |]. split; reflexivity. Qed.

(** And a carriage return outside quotes breaks the row in two. *)
Lemma round_trip_breaks_at_carriage_return :
  exists loaded,
    read_csv_text (to_csv_text CARRIAGE_TABLE) = inr loaded
    /\ length (rows CARRIAGE_TABLE) = 1%nat
    /\ length (rows loaded) = 2%nat.
Proof. eexists. split; [vm_compute; reflexivity |]. split; reflexivity. Qed.

(** What follows a NUL in a field is not read. *)
Lemma read_stops_at_nul :
  read_csv_text ("a,b" ++ String LF ("x" ++ String NUL ("y,1" ++ String LF "")))
  = inr (mkDataFrame ["a"; "b"] [(0, [CStr "x"; CInt 1])]).
Proof. vm_compute. reflexivity. Qed.

Lemma round_trip_stops_at_nul :
  exists loaded,
    read_csv_text (to_csv_text NUL_TABLE) = inr loaded
    /\ nth_error (column 6 NUL_TABLE) 0
       = Some (CStr ("IH" ++ String NUL "Z"))
    /\ nth_error (column 6 loaded) 0 = Some (CStr "IH").
Proof. eexists. split; [vm_compute; reflexivity |]. split; reflexivity. Qed.

(** A column of text in which every text reads as a truth value comes
    back as a column of truth values. *)
Lemma round_trip_retypes_truth_values :
  exists loaded,
    read_csv_text (to_csv_text TRUTH_TABLE) = inr loaded
    /\ nth_error (column 6 TRUTH_TABLE) 0 = Some (CStr "True")
    /\ nth_error (column 6 loaded) 0 = Some (CBool true).
Proof. eexists. split; [vm_compute; reflexivity |]. split; reflexivity. Qed.




(** ** A table of two chunks *)

Lemma forallb_cons_repeat {A} (f : A -> bool) (a : A) (n : nat) :
  forallb f (a :: repeat a n) = f a.
Proof.
  induction n as [| n IH]; simpl in *; [apply andb_true_r |].
  rewrite IH. now destruct (f a).
Qed.

Lemma existsb_cons_repeat {A} (f : A -> bool) (a : A) (n : nat) :
  existsb f (a :: repeat a n) = f a.
Proof.
  induction n as [| n IH]; simpl in *; [apply orb_false_r |].
  rewrite IH. now destruct (f a).
Qed.

Lemma infer_repeat (s : string) (n : nat) :
  infer_dtype (repeat s (S n)) = infer_dtype [s].
Proof.
  cbn [repeat]. unfold infer_dtype.
  rewrite !forallb_cons_repeat. cbn [forallb].
  now rewrite !andb_true_r.
Qed.

Lemma array_repeat (s : string) (n : nat) :
  array_dtype (repeat s (S n)) = array_dtype [s].
Proof.
  unfold array_dtype. rewrite infer_repeat. cbn [repeat].
  rewrite existsb_cons_repeat. cbn [existsb]. now rewrite orb_false_r.
Qed.

Lemma column_fields_repeat (j : nat) (fields : list string) (n : nat) :
  column_fields j (repeat fields n) = repeat (nth j fields EmptyString) n.
Proof. unfold column_fields. apply map_repeat. Qed.

Lemma chunks_of_nil {A} (fuel n : nat) : @chunks_of A fuel n [] = [].
Proof. now destruct fuel. Qed.

(** As many equal rows as a chunk holds and one more row are two
    chunks. *)
Lemma chunks_two {A} (n : nat) (x y : A) :
  chunks (S n) (repeat x (S n) ++ [y]) = [repeat x (S n); [y]].
Proof.
  unfold chunks. rewrite length_app, repeat_length. cbn [length].
  replace (S n + 1)%nat with (S (S n)) by lia.
  change (repeat x (S n) ++ [y]) with (x :: (repeat x n ++ [y])) at 1.
  cbn [chunks_of].
  change (x :: (repeat x n ++ [y])) with (repeat x (S n) ++ [y]).
  rewrite firstn_app, skipn_app, repeat_length, Nat.sub_diag.
  rewrite firstn_all2 by (rewrite repeat_length; lia).
  rewrite skipn_all2 by (rewrite repeat_length; lia).
  cbn [firstn skipn app]. rewrite app_nil_r.
  f_equal. cbn [chunks_of firstn skipn].
  rewrite firstn_nil, skipn_nil. now rewrite chunks_of_nil.
Qed.

Lemma chunk_dtypes_repeat (w : nat) (fields : list string) (n : nat) :
  chunk_dtypes w (repeat fields (S n)) = chunk_dtypes w [fields].
Proof.
  unfold chunk_dtypes. apply map_ext. intros j.
  now rewrite column_fields_repeat, infer_repeat.
Qed.

Lemma common_dtypes_repeat (w : nat) (fields fields' : list string) (n : nat) :
  common_dtypes w [repeat fields (S n); [fields']]
  = common_dtypes w [[fields]; [fields']].
Proof.
  unfold common_dtypes. apply map_ext. intros j. cbn [map].
  now rewrite column_fields_repeat, array_repeat.
Qed.

(** A table of [n + 1] rows with a numeral for the expo ID and one more
    row with letters, read with chunks of [n + 1] rows: the numerals of
    the first chunk come back as numbers. *)
Lemma convert_two_chunks (n : nat) :
  concat (map (convert_chunk 7
                 (common_dtypes 7
                    [repeat (map cell_text NUMERAL_ROW) (S n);
                     [map cell_text LETTER_ROW]]))
              [repeat (map cell_text NUMERAL_ROW) (S n);
               [map cell_text LETTER_ROW]])
  = repeat [CInt 1; CStr "3v8t"; CStr "B"; CStr "A"; CStr "ITK";
            CInt 474; CInt 477] (S n)
    ++ [LETTER_ROW].
Proof.
  rewrite common_dtypes_repeat. cbn [map concat]. rewrite app_nil_r.
  f_equal.
  unfold convert_chunk. rewrite map_repeat, chunk_dtypes_repeat.
  f_equal.
Qed.

Lemma Forall_repeat {A} (P : A -> Prop) (a : A) (n : nat) :
  P a -> Forall P (repeat a n).
Proof. intros H. induction n; simpl; auto. Qed.

(** C1, beyond one chunk.  The table of as many rows with the numeral
    477 for the expo ID as a chunk holds, and one row with letters, is a
    table of the seven ID columns in which every column is kept and the
    text is clean; it has one row more than a chunk.  Read back, its
    first row has the number 477 where the table has the text. *)
Lemma round_trip_retypes_across_chunks :
  columns LONG_TABLE = ID_COLUMNS
  /\ well_formed LONG_TABLE
  /\ clean_cells LONG_TABLE
  /\ (forall j, (j < 7)%nat -> kept (column j LONG_TABLE) = true)
  /\ Z.of_nat (length (rows LONG_TABLE)) = ONE_CHUNK + 1
  /\ exists loaded,
      read_csv_text (to_csv_text LONG_TABLE) = inr loaded
      /\ nth_error (column 6 LONG_TABLE) 0 = Some (CStr "477")
      /\ nth_error (column 6 loaded) 0 = Some (CInt 477).
Proof.
  unfold LONG_TABLE.
  assert (Hn : exists n, Z.to_nat ONE_CHUNK = S n /\ Z.of_nat (S n) = ONE_CHUNK).
  { exists (Nat.pred (Z.to_nat ONE_CHUNK)).
    unfold ONE_CHUNK. split; lia. }
  destruct Hn as (n & Hn & Hz).
  pose proof buffer_lines_7 as Hb. rewrite Hn in Hb |- *.
  set (df := mkDataFrame ID_COLUMNS
               (repeat (0, NUMERAL_ROW) (S n) ++ [(1, LETTER_ROW)])).
  assert (Hwf : well_formed df).
  { unfold well_formed, df. cbn [rows columns].
    apply Forall_app. split; [apply Forall_repeat | constructor; [| constructor]];
      reflexivity. }
  assert (Hclean : clean_cells df).
  { unfold clean_cells, df. cbn [rows].
    apply Forall_app.
    split; [apply Forall_repeat | constructor; [| constructor]];
      repeat constructor. }
  assert (Hcol : forall j,
             column j df
             = (cell_at j (0, NUMERAL_ROW)
                  :: repeat (cell_at j (0, NUMERAL_ROW)) n)
                 ++ [cell_at j (1, LETTER_ROW)]).
  { intros j. unfold column, df. cbn [rows]. rewrite map_app, map_repeat.
    reflexivity. }
  split; [reflexivity |]. split; [exact Hwf |]. split; [exact Hclean |].
  split.
  { intros j Hj. rewrite Hcol. unfold kept.
    rewrite !forallb_app, !existsb_app.
    rewrite !forallb_cons_repeat, !existsb_cons_repeat.
    do 7 (destruct j as [| j]; [reflexivity |]). lia. }
  split.
  { unfold df. cbn [rows]. rewrite length_app, repeat_length. cbn [length].
    lia. }
  assert (Hw : (2 <= length (columns df))%nat) by (simpl; lia).
  assert (Hlabels : Forall (fun l => bare_cr l = false) (columns df))
    by (repeat constructor).
  exists (mkDataFrame ID_COLUMNS
            (range_index 0
               (repeat [CInt 1; CStr "3v8t"; CStr "B"; CStr "A"; CStr "ITK";
                        CInt 474; CInt 477] (S n)
                ++ [LETTER_ROW]))).
  split.
  { rewrite (read_back df Hw Hlabels Hwf (clean_no_bare_cr df Hclean)).
    do 3 f_equal.
    change (length (columns df)) with 7%nat.
    unfold convert_body. rewrite Hb.
    replace (map (map c_string) (texts df))
      with (repeat (map cell_text NUMERAL_ROW) (S n)
            ++ [map cell_text LETTER_ROW])
      by (unfold texts, df; cbn [rows];
          now rewrite !map_app, !map_repeat).
    rewrite chunks_two. apply convert_two_chunks. }
  split; [rewrite Hcol; reflexivity |].
  reflexivity.
Qed.

(** ** The file name *)

Lemma range_forallb (f : Z -> bool) (lo n : nat) :
  forallb f (map Z.of_nat (seq lo n)) = true ->
  forall z, Z.of_nat lo <= z < Z.of_nat (lo + n) -> f z = true.
Proof.
  intros H z Hz. rewrite forallb_forall in H. apply H.
  apply in_map_iff. exists (Z.to_nat z). split; [lia |].
  apply in_seq. lia.
Qed.

Lemma year_four_digits (y : Z) :
  1000 <= y <= 9999 -> digits_wide 4 (str_of_int y) = true.
Proof.
  intros Hy.
  apply (range_forallb (fun z => digits_wide 4 (str_of_int z))
           1000 (90 * 100));
    [vm_compute; reflexivity | lia].
Qed.

Lemma two_digits (m : Z) :
  0 <= m <= 99 -> digits_wide 2 (zfill 2 (str_of_int m)) = true.
Proof.
  intros Hm.
  apply (range_forallb (fun z => digits_wide 2 (zfill 2 (str_of_int z))) 0 100);
    [vm_compute; reflexivity | lia].
Qed.

Lemma zfill_full (width : nat) (s : string) :
  String.length s = width -> zfill width s = s.
Proof. intros <-. unfold zfill. now rewrite Nat.sub_diag. Qed.

Lemma without_dashes_digits (s : string) :
  string_forallb is_digit s = true -> without_dashes s = s.
Proof.
  induction s as [| c s IH]; simpl; [reflexivity |].
  intros H. apply andb_true_iff in H as [Hc Hs].
  destruct (digit_not_sign c Hc) as [-> _]. now rewrite (IH Hs).
Qed.

Lemma without_dashes_app (a b : string) :
  without_dashes (a ++ b) = (without_dashes a ++ without_dashes b)%string.
Proof.
  induction a as [| c a IH]; simpl; [reflexivity |].
  destruct (Ascii.eqb c "-"); simpl; now rewrite IH.
Qed.

Lemma length_append (a b : string) :
  String.length (a ++ b) = (String.length a + String.length b)%nat.
Proof. induction a; simpl; auto. Qed.

Lemma digits_wide_inv (width : nat) (s : string) :
  digits_wide width s = true ->
  String.length s = width /\ string_forallb is_digit s = true.
Proof.
  unfold digits_wide. intros H. apply andb_true_iff in H as [Hl Hd].
  apply Nat.eqb_eq in Hl. auto.
Qed.

(** The stamp of a current date: what [strftime] prints is the ISO date
    without its dashes, eight digits. *)
Lemma stamp_of_current (d : date) :
  current d ->
  strftime_Ymd d = without_dashes (isoformat d)
  /\ String.length (strftime_Ymd d) = 8%nat
  /\ string_forallb is_digit (strftime_Ymd d) = true.
Proof.
  intros (Hy & Hm & Hd).
  destruct (digits_wide_inv _ _ (year_four_digits (year d) Hy)) as [Ly Dy].
  destruct (digits_wide_inv _ _ (two_digits (month d) ltac:(lia))) as [Lm Dm].
  destruct (digits_wide_inv _ _ (two_digits (day d) ltac:(lia))) as [Ld Dd].
  unfold strftime_Ymd, isoformat. rewrite (zfill_full 4 _ Ly).
  repeat split.
  - rewrite !without_dashes_app.
    rewrite (without_dashes_digits _ Dy), (without_dashes_digits _ Dm),
      (without_dashes_digits _ Dd).
    reflexivity.
  - rewrite !length_append, Ly, Lm, Ld. reflexivity.
  - rewrite !string_forallb_append, Dy, Dm, Dd. reflexivity.
Qed.

(** ** The format of the file *)

Lemma join_fields_concat (fields : list string) :
  join_fields fields = String.concat "," fields.
Proof.
  induction fields as [| f fs IH]; [reflexivity |].
  destruct fs as [| g fs]; [reflexivity |].
  change (join_fields (f :: g :: fs))
    with (f ++ String delimiter (join_fields (g :: fs)))%string.
  change (String.concat "," (f :: g :: fs))
    with (f ++ "," ++ String.concat "," (g :: fs))%string.
  rewrite IH. reflexivity.
Qed.

Lemma map_write_field_plain (fields : list string) :
  Forall (fun f => needs_quoting f = false) fields ->
  map write_field fields = fields.
Proof.
  induction 1 as [| f fs Hf _ IH]; [reflexivity |].
  cbn [map]. unfold write_field at 1. now rewrite Hf, IH.
Qed.

Lemma writerow_plain (fields : list string) :
  (2 <= length fields)%nat ->
  Forall (fun f => needs_quoting f = false) fields ->
  writerow fields = (String.concat "," fields ++ String LF EmptyString)%string.
Proof.
  intros Hlen Hplain. unfold writerow.
  rewrite (map_write_field_plain fields Hplain), join_fields_concat.
  destruct fields as [| f [| g fs]]; simpl in Hlen; try lia.
  now destruct f.
Qed.

(** Where no field needs quotes the writer writes the plain text of the
    format. *)
Lemma writerows_plain (records : list (list string)) :
  Forall (fun fields =>
            (2 <= length fields)%nat
            /\ Forall (fun f => needs_quoting f = false) fields) records ->
  writerows records = plain_csv records.
Proof.
  unfold plain_csv.
  induction 1 as [| fields rs [Hlen Hplain] Hrs IH]; [reflexivity |].
  cbn [writerows map]. rewrite IH, (writerow_plain fields Hlen Hplain).
  destruct rs as [| r rs]; [apply append_nil_r | reflexivity].
Qed.

Lemma records_readable (df : DataFrame) :
  (2 <= length (columns df))%nat ->
  Forall (fun l => clean l = true) (columns df) ->
  well_formed df -> clean_cells df ->
  Forall readable_record (columns df :: texts df).
Proof.
  intros Hw Hlabels Hwf Hclean. constructor.
  - split; [exact Hw |].
    eapply Forall_impl; [| exact Hlabels]. apply clean_readable.
  - unfold texts. rewrite Forall_map.
    unfold well_formed, clean_cells in *. rewrite Forall_forall in *.
    intros r Hr. split.
    + rewrite length_map, (Hwf r Hr). exact Hw.
    + rewrite Forall_map. eapply Forall_impl; [| exact (Hclean r Hr)].
      intros c Hc. now apply clean_readable.
Qed.

Lemma records_plain (df : DataFrame) :
  (2 <= length (columns df))%nat ->
  well_formed df ->
  Forall (fun l => needs_quoting l = false) (columns df) ->
  Forall (fun r : row =>
            Forall (fun c => needs_quoting (cell_text c) = false) (snd r))
         (rows df) ->
  Forall (fun fields =>
            (2 <= length fields)%nat
            /\ Forall (fun f => needs_quoting f = false) fields)
         (columns df :: texts df).
Proof.
  intros Hw Hwf Hlabels Hcells. constructor; [split; assumption |].
  unfold texts. rewrite Forall_map.
  unfold well_formed in Hwf. rewrite Forall_forall in *.
  intros r Hr. split.
  - rewrite length_map, (Hwf r Hr). exact Hw.
  - rewrite Forall_map. exact (Hcells r Hr).
Qed.

(** The text of a table: what the tokenizer reads from it, and what it is
    when no field needs quotes. *)
Lemma to_csv_text_records (df : DataFrame) :
  (2 <= length (columns df))%nat ->
  well_formed df ->
  (Forall (fun l => clean l = true) (columns df) -> clean_cells df ->
   tokenize (to_csv_text df) = inr (columns df :: texts df))
  /\ (Forall (fun l => needs_quoting l = false) (columns df) ->
      Forall (fun r : row =>
                Forall (fun c => needs_quoting (cell_text c) = false) (snd r))
             (rows df) ->
      to_csv_text df = plain_csv (columns df :: texts df)).
Proof.
  intros Hw Hwf. unfold to_csv_text. fold (texts df). split.
  - intros Hlabels Hclean. apply tokenize_writerows.
    now apply records_readable.
  - intros Hlabels Hcells. apply writerows_plain.
    now apply records_plain.
Qed.

(** ** Projection *)





(** ** The saved file *)

(** C6.  On a current date the save cell writes one file.  Its name is
    klifs_ids, a dot, the stamp and the ending of a zipped CSV file, where
    the stamp is the ISO date of the day without dashes: eight digits,
    year, month, day.  The file is a zip archive with one member, and
    [read_csv] reads it as one.  When the table has two columns or more
    and rows as wide as its header, the member holds the table without
    its row labels: the tokenizer reads from it the column labels as the
    first record and then, for each row, the texts of its cells and
    nothing else, when the text is clean; where no field needs quotes the
    member is the plain CSV text of these records; and tables that differ
    in their row labels only give the same text. *)
Theorem file_name_and_format :
  forall env nb nb',
    current (today env) ->
    cell_6 env nb = inr nb' ->
    exists stamp name df text,
      stamp = without_dashes (isoformat (today env))
      /\ String.length stamp = 8%nat
      /\ string_forallb is_digit stamp = true
      /\ name = ("klifs_ids." ++ stamp ++ ".csv.zip")%string
      /\ filename nb' = Some name
      /\ structures_all nb = Some df
      /\ (exists member,
            disk nb' = (name, ZipArchive [(member, text)]) :: disk nb)
      /\ read_csv (disk nb') name = read_csv_text text
      /\ ((2 <= length (columns df))%nat -> well_formed df ->
          (Forall (fun l => clean l = true) (columns df) -> clean_cells df ->
           tokenize text
           = inr (columns df
                    :: map (fun r : row => map cell_text (snd r)) (rows df)))
          /\ (Forall (fun l => needs_quoting l = false) (columns df) ->
              Forall (fun r : row =>
                        Forall (fun c => needs_quoting (cell_text c) = false)
                               (snd r)) (rows df) ->
              text
              = plain_csv
                  (columns df
                     :: map (fun r : row => map cell_text (snd r)) (rows df))))
      /\ (forall df',
            columns df' = columns df ->
            map snd (rows df') = map snd (rows df) ->
            to_csv_text df' = text).
Proof.
  intros env nb nb' Hdate Hsave.
  pose proof (cell_6_inr _ _ _ Hsave) as (df & name & Hdf & Hname & _ & Hnb).
  destruct (read_saved env nb nb' df Hdf Hsave) as (name' & Hname' & Hread).
  subst nb'. cbn [filename] in Hname'. injection Hname' as <-.
  destruct (stamp_of_current (today env) Hdate) as (Hiso & Hlen & Hdig).
  exists (strftime_Ymd (today env)), name, df, (to_csv_text df).
  cbn [filename disk].
  split; [exact Hiso |]. split; [exact Hlen |]. split; [exact Hdig |].
  split; [exact Hname |]. split; [reflexivity |]. split; [exact Hdf |].
  split; [exists name; reflexivity |].
  split.
  { exact Hread. }
  split.
  { intros Hw Hwf. exact (to_csv_text_records df Hw Hwf). }
  intros df' Hc Hr. rewrite !to_csv_text_values. now rewrite Hc, Hr.
Qed.

Lemma file_name_and_format_witness :
  exists member,
    filename EXAMPLE_SAVED = Some "klifs_ids.20201002.csv.zip"
    /\ disk EXAMPLE_SAVED
       = [("klifs_ids.20201002.csv.zip",
           ZipArchive
             [(member,
               unlines (HEADER_LINE
                          :: SEEDED_LINES ++ ["9564,5t31,-,B,GSK3B,238,6VL"]))])].
Proof.
  destruct (file_name_and_format EXAMPLE_ENV EXAMPLE_BEFORE_SAVE EXAMPLE_SAVED)
    as (stamp & name & df & text & Hstamp & _ & _ & Hname & Hfile & Hdf
        & (member & Hdisk) & _ & Hrecords & _).
  - unfold current. simpl. lia.
  - reflexivity.
  - vm_compute in Hstamp. subst stamp. vm_compute in Hname. subst name.
    injection Hdf as <-.
    destruct Hrecords as [_ Hplain]; [simpl; lia | repeat constructor |].
    exists member. split; [exact Hfile |].
    rewrite Hdisk, Hplain by (repeat constructor).
    vm_compute. reflexivity.
Defined.


(** * Further properties *)

(** ** What the fetch cell prints and shows *)

Lemma StronglySorted_firstn_skipn {A} (R : A -> A -> Prop) (n : nat)
    (l : list A) (x y : A) :
  StronglySorted R l -> In x (firstn n l) -> In y (skipn n l) -> R x y.
Proof.
  intros Hs. revert n. induction Hs as [| a l Hs IH Hall]; intros n Hx Hy.
  - destruct n; destruct Hx.
  - destruct n as [| n]; [destruct Hx |]. simpl in Hx, Hy.
    destruct Hx as [<- | Hx].
    + rewrite Forall_forall in Hall. apply Hall.
      rewrite <- (firstn_skipn n l). apply in_or_app. now right.
    + now apply (IH n).
Qed.

(** X1.  When the remote table has no repeated column label, the fetch
    cell prints the shape made of the number of fetched rows and 7, and
    shows the first five rows of the sorted table, or all of them when
    there are fewer: rows whose structure ID is below or equal to that of
    every row it does not show. *)
Theorem fetch_cell_output :
  forall nb nb' r fetched,
    remote nb = Some r ->
    all_structures r = inr fetched ->
    NoDup (columns fetched) ->
    cell_4 nb = inr nb' ->
    exists sorted shown,
      structures_all nb' = Some sorted
      /\ output nb'
         = output nb ++ [ShapeOf (length (rows fetched), 7%nat); Frame shown]
      /\ columns shown = ID_COLUMNS
      /\ rows shown = firstn 5 (rows sorted)
      /\ length (rows shown) = Nat.min 5 (length (rows fetched))
      /\ forall r1 r2,
          In r1 (rows shown) -> In r2 (skipn 5 (rows sorted)) ->
          key_leb (key_at 0 r1) (key_at 0 r2) = true.
Proof.
  intros nb nb' r fetched Hr Hf Hnd H.
  apply cell_4_inr in H as (r' & fetched' & projected & sorted
                            & Hr' & Hf' & Hp & Hs & ->).
  assert (r' = r) by congruence; subst r'.
  assert (fetched' = fetched) by congruence; subst fetched'.
  destruct (getitem_columns_nodup _ _ _ Hnd Hp) as [Hcols _].
  pose proof (getitem_columns_inr _ _ _ Hp) as (pss & _ & _ & Hrows).
  pose proof (sort_values_perm _ _ _ Hs) as Hperm.
  destruct (sort_values_ascending _ _ _ Hs) as (p & Hloc & Hasc).
  pose proof (sort_values_inr _ _ _ Hs) as (p' & _ & Hc & _ & _).
  assert (Hid : columns sorted = ID_COLUMNS) by congruence.
  rewrite Hid in Hloc. injection Hloc as <-.
  assert (Hlen : length (rows sorted) = length (rows fetched)).
  { rewrite (Permutation_length Hperm), Hrows. apply length_map. }
  exists sorted, (head 5 sorted).
  cbn [structures_all output columns rows head].
  split; [reflexivity |].
  split. { unfold shape. now rewrite Hid, Hlen. }
  split; [exact Hid |]. split; [reflexivity |].
  split. { now rewrite length_firstn, Hlen. }
  intros r1 r2 H1 H2.
  exact (StronglySorted_firstn_skipn _ 5 _ r1 r2 Hasc H1 H2).
Qed.

Lemma fetch_cell_output_witness :
  exists sorted shown,
    structures_all EXAMPLE_RUN = Some sorted
    /\ In (Frame shown) (output EXAMPLE_RUN)
    /\ In (ShapeOf (6%nat, 7%nat)) (output EXAMPLE_RUN)
    /\ rows shown = firstn 5 (rows sorted).
Proof.
  destruct (fetch_cell_output
              (mkNotebook (Some EXAMPLE_REMOTE) None None None None [] [])
              (mkNotebook (Some EXAMPLE_REMOTE) (Some EXAMPLE_TABLE) None None
                 None [] [ShapeOf (shape EXAMPLE_TABLE);
                           Frame (head 5 EXAMPLE_TABLE)])
              EXAMPLE_REMOTE EXAMPLE_STRUCTURES eq_refl eq_refl)
    as (sorted & shown & Hs & Hout & _ & Hrows & _).
  - repeat constructor; simpl; intuition discriminate.
  - reflexivity.
  - simpl in Hs, Hout. injection Hs as <-. injection Hout as <-.
    exists EXAMPLE_TABLE, (head 5 EXAMPLE_TABLE).
    repeat split; simpl; auto 10.
Defined.

(** ** The cells that show the structures of one expo ID *)

Lemma StronglySorted_filter {A} (R : A -> A -> Prop) (f : A -> bool)
    (l : list A) :
  StronglySorted R l -> StronglySorted R (filter f l).
Proof.
  induction 1 as [| a l Hs IH Hall]; simpl; [constructor |].
  destruct (f a); [| exact IH].
  constructor; [exact IH |].
  rewrite Forall_forall in *. intros x Hx.
  apply filter_In in Hx as [Hx _]. auto.
Qed.

Lemma show_expo_inr (expo : string) nb nb' :
  show_expo expo nb = inr nb' ->
  exists df shown,
    structures_all nb = Some df
    /\ getitem_equals "ligand.expo_id" (CStr expo) df = inr shown
    /\ nb' = mkNotebook (remote nb) (structures_all nb) (sizes nb)
               (filename nb) (ligands_all nb) (disk nb)
               (output nb ++ [Frame shown]).
Proof.
  unfold show_expo. intros H. do 2 inv_bind H. injection H as <-.
  apply var_inr in Ha. eauto.
Qed.

(** X2.  Let the structures table of a run have the seven ID columns.
    Then a cell that shows the structures of one expo ID never raises and
    changes no variable and no file.  It shows the rows of the table whose
    ligand expo ID is that text, all of them and no other, in the order of
    the table, so that their structure IDs ascend.  The two cells of the
    notebook do this for 6VL and for 7KC. *)
Theorem expo_cells_show :
  forall env r n nb df expo,
    setup_remote env = inr r ->
    run_cells (firstn n (cells env)) (initial env) = inr nb ->
    structures_all nb = Some df ->
    columns df = ID_COLUMNS ->
    exists nb' shown,
      show_expo expo nb = inr nb'
      /\ output nb' = output nb ++ [Frame shown]
      /\ same_variables nb nb'
      /\ disk nb' = disk nb
      /\ columns shown = ID_COLUMNS
      /\ (forall x, In x (rows shown) <->
                    In x (rows df) /\ cell_at 6 x = CStr expo)
      /\ rows shown
         = filter (fun x => cell_eqb (cell_at 6 x) (CStr expo)) (rows df)
      /\ (forall i j r1 r2,
            (i < j)%nat ->
            nth_error (rows shown) i = Some r1 ->
            nth_error (rows shown) j = Some r2 ->
            key_leb (key_at 0 r1) (key_at 0 r2) = true)
      /\ cell_12 = show_expo "6VL"
      /\ cell_14 = show_expo "7KC".
Proof.
  intros env r n nb df expo Hsetup Hrun Hdf Hcols.
  destruct (consistent_prefix env r n nb Hsetup Hrun) as [_ Hs _ _].
  destruct (Hs df Hdf) as (fetched & projected & _ & _ & Hsort).
  destruct (sort_values_ascending _ _ _ Hsort) as (p & Hloc & Hasc).
  rewrite Hcols in Hloc. injection Hloc as <-.
  unfold show_expo, getitem_equals. rewrite Hdf. cbn [var bind ret].
  rewrite Hcols.
  change (locate_unique ID_COLUMNS "ligand.expo_id") with (@inr exn nat 6%nat).
  cbn [bind ret].
  eexists _, _. split; [reflexivity |].
  cbn [output remote structures_all sizes filename ligands_all disk
       columns rows getitem_mask].
  split; [reflexivity |].
  split; [unfold same_variables; simpl; repeat split; congruence |].
  split; [reflexivity |].
  cbn [columns rows getitem_mask].
  split; [exact Hcols |].
  split.
  { intros x. rewrite filter_In. unfold cell_at, key_at.
    now rewrite cell_eqb_eq. }
  split; [reflexivity |].
  split; [| split; reflexivity].
  intros i j r1 r2 Hij H1 H2.
  exact (StronglySorted_nth _ _ (StronglySorted_filter _ _ _ Hasc)
           i j r1 r2 Hij H1 H2).
Qed.

Lemma expo_cells_show_witness :
  exists nb' shown,
    cell_12 EXAMPLE_RUN = inr nb'
    /\ output nb' = output EXAMPLE_RUN ++ [Frame shown]
    /\ rows shown
       = [(4236, [CInt 9564; CStr "5t31"; CStr "-"; CStr "B"; CStr "GSK3B";
                  CInt 238; CStr "6VL"])].
Proof.
  destruct (expo_cells_show EXAMPLE_ENV EXAMPLE_REMOTE 7 EXAMPLE_RUN
              EXAMPLE_TABLE "6VL" eq_refl eq_refl eq_refl eq_refl)
    as (nb' & shown & Hrun & Hout & _ & _ & _ & _ & Hrows & _).
  exists nb', shown. split; [exact Hrun |]. split; [exact Hout |].
  rewrite Hrows. reflexivity.
Defined.

(** ** The files *)

Lemma run_cells_invariant (P : Notebook -> Prop)
    (cs : list (Notebook -> result Notebook)) :
  (forall c nb nb', In c cs -> P nb -> c nb = inr nb' -> P nb') ->
  forall nb nb', P nb -> run_cells cs nb = inr nb' -> P nb'.
Proof.
  induction cs as [| c cs IH]; intros Hstep nb nb' HP H; simpl in H.
  - now injection H as <-.
  - inv_bind H. apply (IH) with (nb := a).
    + intros c' x y Hin. apply Hstep. now right.
    + apply (Hstep c nb a); auto. now left.
    + exact H.
Qed.

(** What a cell does to the disk: nothing, or it writes the file of the
    day. *)
Lemma cell_disk env c nb nb' :
  In c (all_cells env) -> c nb = inr nb' ->
  disk nb' = disk nb
  \/ exists f, disk nb' = fs_write (disk nb) (file_name (today env)) f.
Proof.
  intros Hc H. unfold all_cells in Hc. simpl in Hc.
  destruct Hc as [<- | [<- | [<- | [<- | [<- | [<- | [<- | [<- | [<- | []]]]]]]]]].
  - apply cell_2_inr in H as (? & _ & ->). now left.
  - apply cell_4_inr in H as (? & ? & ? & ? & _ & _ & _ & _ & ->). now left.
  - apply cell_5_inr in H as (? & ? & _ & _ & _ & _ & _ & _ & _ & ->). now left.
  - apply cell_6_inr in H as (? & ? & _ & -> & _ & ->). right. eexists.
    reflexivity.
  - apply cell_8_inr in H as (? & ? & _ & _ & ->). now left.
  - apply cell_10_inr in H as (? & ? & _ & _ & ->). now left.
  - apply cell_11_frame in H as (_ & _ & _ & _ & ->). now left.
  - apply show_expo_inr in H as (? & ? & _ & _ & ->). now left.
  - apply show_expo_inr in H as (? & ? & _ & _ & ->). now left.
Qed.

Lemma fs_lookup_write_other disk name f path :
  name <> path -> fs_lookup (fs_write disk name f) path = fs_lookup disk path.
Proof.
  intros Hne. unfold fs_write. cbn [fs_lookup].
  destruct (String.eqb_spec name path); [contradiction | reflexivity].
Qed.

(** X3.  Of all files, a run touches only the file named after the day:
    after any number of cells every other path holds what it held at the
    start. *)
Theorem only_the_dated_file :
  forall env n nb path,
    run_cells (firstn n (all_cells env)) (initial env) = inr nb ->
    path <> file_name (today env) ->
    fs_lookup (disk nb) path = fs_lookup (files env) path.
Proof.
  intros env n nb path Hrun Hpath.
  apply (run_cells_invariant
           (fun nb => fs_lookup (disk nb) path = fs_lookup (files env) path)
           (firstn n (all_cells env)))
    with (nb := initial env); [| reflexivity | exact Hrun].
  intros c x y Hc Hx Hy.
  destruct (cell_disk env c x y (incl_firstn n _ c Hc) Hy) as [-> | (f & ->)];
    [exact Hx |].
  rewrite fs_lookup_write_other by congruence. exact Hx.
Qed.

Lemma only_the_dated_file_witness :
  exists nb,
    run_cells (all_cells LATER_ENV) (initial LATER_ENV) = inr nb
    /\ fs_lookup (disk nb) "klifs_ids.20200901.csv.zip"
       = Some (snd EARLIER_FILE).
Proof.
  assert (H : exists nb,
             run_cells (firstn 9 (all_cells LATER_ENV)) (initial LATER_ENV)
             = inr nb)
    by (eexists; vm_compute; reflexivity).
  destruct H as (nb & H). exists nb. split; [exact H |].
  rewrite (only_the_dated_file LATER_ENV 9 nb "klifs_ids.20200901.csv.zip" H);
    [reflexivity | discriminate].
Defined.

(** ** The day in the file name *)

Lemma append_inj_length (a1 a2 x y : string) :
  String.length a1 = String.length a2 ->
  (a1 ++ x)%string = (a2 ++ y)%string -> a1 = a2 /\ x = y.
Proof.
  revert a2; induction a1 as [| c a1 IH]; intros [| d a2]; simpl;
    try discriminate; auto.
  intros Hl [= -> H]. destruct (IH a2 ltac:(lia) H) as [-> ->]. auto.
Qed.

Lemma append_inj_suffix (x y s : string) :
  (x ++ s)%string = (y ++ s)%string -> x = y.
Proof.
  intros H. apply (append_inj_length x y s s); [| exact H].
  apply (f_equal String.length) in H. rewrite !length_append in H. lia.
Qed.

Lemma two_digits_read (m : Z) :
  0 <= m <= 99 -> str_to_int64 (zfill 2 (str_of_int m)) = Some m.
Proof.
  intros Hm.
  assert (H : (fun z => match str_to_int64 (zfill 2 (str_of_int z)) with
                        | Some v => v =? z
                        | None => false
                        end) m = true).
  { apply (range_forallb
             (fun z => match str_to_int64 (zfill 2 (str_of_int z)) with
                       | Some v => v =? z
                       | None => false
                       end) 0 100); [vm_compute; reflexivity | lia]. }
  cbv beta in H. destruct (str_to_int64 (zfill 2 (str_of_int m))); [| discriminate].
  apply Z.eqb_eq in H. now subst.
Qed.

Lemma stamp_inj (d1 d2 : date) :
  current d1 -> current d2 -> strftime_Ymd d1 = strftime_Ymd d2 -> d1 = d2.
Proof.
  intros (Hy1 & Hm1 & Hd1) (Hy2 & Hm2 & Hd2) H.
  unfold strftime_Ymd in H.
  destruct (digits_wide_inv _ _ (year_four_digits _ Hy1)) as [Ly1 _].
  destruct (digits_wide_inv _ _ (year_four_digits _ Hy2)) as [Ly2 _].
  destruct (digits_wide_inv _ _ (two_digits (month d1) ltac:(lia))) as [Lm1 _].
  destruct (digits_wide_inv _ _ (two_digits (month d2) ltac:(lia))) as [Lm2 _].
  apply append_inj_length in H as [Hy H]; [| congruence].
  apply append_inj_length in H as [Hm Hd]; [| congruence].
  assert (Ey : Some (year d1) = Some (year d2)).
  { rewrite <- (str_to_int64_str_of_int (year d1)),
            <- (str_to_int64_str_of_int (year d2)), Hy; auto;
      unfold in_int64, INT64_MIN, INT64_MAX;
      apply andb_true_iff; split; apply Z.leb_le; lia. }
  assert (Em : Some (month d1) = Some (month d2)).
  { rewrite <- (two_digits_read (month d1)), <- (two_digits_read (month d2)), Hm;
      auto; lia. }
  assert (Ed : Some (day d1) = Some (day d2)).
  { rewrite <- (two_digits_read (day d1)), <- (two_digits_read (day d2)), Hd;
      auto; lia. }
  destruct d1, d2. simpl in *. congruence.
Qed.

(** X4.  The file name tells the day: the saves of two current dates have
    the same name only when the dates are the same.  So a save leaves the
    file of every other day as it is. *)
Theorem file_name_tells_the_day :
  (forall d1 d2,
      current d1 -> current d2 -> file_name d1 = file_name d2 -> d1 = d2)
  /\ (forall env nb nb' d,
        current (today env) -> current d -> d <> today env ->
        cell_6 env nb = inr nb' ->
        filename nb' = Some (file_name (today env))
        /\ fs_lookup (disk nb') (file_name d) = fs_lookup (disk nb) (file_name d)).
Proof.
  assert (Hinj : forall d1 d2,
             current d1 -> current d2 -> file_name d1 = file_name d2 -> d1 = d2).
  { intros d1 d2 H1 H2 H. unfold file_name in H.
    apply (append_inj_length "klifs_ids." "klifs_ids.") in H as [_ H];
      [| reflexivity].
    apply append_inj_suffix in H. now apply stamp_inj. }
  split; [exact Hinj |].
  intros env nb nb' d Hc Hd Hne Hsave.
  apply cell_6_inr in Hsave as (df & name & _ & -> & _ & ->).
  cbn [filename disk]. split; [reflexivity |].
  apply fs_lookup_write_other.
  intros E. apply Hne. symmetry. now apply Hinj.
Qed.

Lemma file_name_tells_the_day_witness :
  exists nb',
    cell_6 LATER_ENV
      (mkNotebook None (Some EXAMPLE_TABLE) None None None (files LATER_ENV) [])
    = inr nb'
    /\ filename nb' = Some "klifs_ids.20201002.csv.zip"
    /\ fs_lookup (disk nb') "klifs_ids.20200901.csv.zip"
       = Some (snd EARLIER_FILE).
Proof.
  destruct (cell_6 LATER_ENV
              (mkNotebook None (Some EXAMPLE_TABLE) None None None
                 (files LATER_ENV) [])) as [e | nb'] eqn:E;
    [vm_compute in E; discriminate |].
  exists nb'. split; [reflexivity |].
  assert (H1 : current (today LATER_ENV)) by (unfold current; simpl; lia).
  assert (H2 : current (mkDate 2020 9 1)) by (unfold current; simpl; lia).
  assert (H3 : mkDate 2020 9 1 <> today LATER_ENV) by discriminate.
  destruct (proj2 file_name_tells_the_day LATER_ENV _ nb' (mkDate 2020 9 1)
              H1 H2 H3 E) as [Hname Hfile].
  split; [exact Hname | exact Hfile].
Defined.

(** ** What the structure check's answer means *)

Lemma filter_two_positions {A} (f : A -> bool) (l : list A) i j a b :
  (i < j)%nat ->
  nth_error l i = Some a -> nth_error l j = Some b ->
  f a = true -> f b = true -> (2 <= length (filter f l))%nat.
Proof.
  revert i j; induction l as [| x l IH]; intros i j Hij Hi Hj Ha Hb.
  - destruct i; discriminate.
  - destruct j as [| j]; [lia |]. simpl in Hj.
    destruct i as [| i]; simpl in Hi.
    + injection Hi as ->. simpl. rewrite Ha. simpl.
      assert (Hin : In b (filter f l))
        by (apply filter_In; split; [eapply nth_error_In; eauto | exact Hb]).
      destruct (filter f l); [destruct Hin | simpl; lia].
    + simpl. specialize (IH i j ltac:(lia) Hi Hj Ha Hb).
      destruct (f x); simpl; lia.
Qed.

Lemma filter_length_two {A} (f : A -> bool) (l : list A) :
  (2 <= length (filter f l))%nat ->
  exists i j a b,
    (i < j)%nat /\ nth_error l i = Some a /\ nth_error l j = Some b
    /\ f a = true /\ f b = true.
Proof.
  induction l as [| x l IH]; simpl; [lia |].
  destruct (f x) eqn:Hx; simpl; intros H.
  - destruct (filter f l) as [| b t] eqn:E; [simpl in H; lia |].
    assert (Hin : In b (filter f l)) by (rewrite E; now left).
    apply filter_In in Hin as [Hin Hb].
    destruct (In_nth_error _ _ Hin) as (j & Hj).
    exists 0%nat, (S j), x, b. repeat split; auto. lia.
  - destruct (IH H) as (i & j & a & b & Hij & Hi & Hj & Ha & Hb).
    exists (S i), (S j), a, b. repeat split; auto. lia.
Qed.

Lemma structure_key_of (df : DataFrame) (r : row) :
  columns df = ID_COLUMNS -> key_of STRUCTURE_KEY df r = structure_key r.
Proof. intros Hc. unfold key_of. rewrite Hc. reflexivity. Qed.

(** X5.  On a table with the seven ID columns, the structure check ends
    with the line that all is good exactly when no two rows of the table
    agree in PDB ID, alternate model and chain (all three present): then a
    structure, given by the three, has one row and so one structure ID. *)
Theorem all_good_means_unambiguous :
  forall nb nb' df,
    structures_all nb = Some df ->
    columns df = ID_COLUMNS ->
    cell_5 nb = inr nb' ->
    (output nb'
     = output nb
       ++ [Text "Sanity check: Are there multiple structure KLIFS IDs for one KLIFS structure?";
           Text "All good!"]
     <->
     forall i j r1 r2,
       nth_error (rows df) i = Some r1 ->
       nth_error (rows df) j = Some r2 ->
       complete (structure_key r1) = true ->
       structure_key r1 = structure_key r2 ->
       i = j).
Proof.
  intros nb nb' df Hdf Hcols Hrun.
  destruct (groupby_structure_key df Hcols) as (s & Hs).
  pose proof (larger_than_one_spec STRUCTURE_KEY df s) as Hspec.
  unfold cell_5 in Hrun. rewrite Hdf in Hrun. cbn [var bind ret] in Hrun.
  rewrite Hs in Hrun. cbn [bind ret] in Hrun. injection Hrun as <-.
  cbn [output].
  assert (Hcount : forall k,
             group_count STRUCTURE_KEY df k
             = length (filter (fun r => key_eqb (structure_key r) k) (rows df))).
  { intros k. unfold group_count. f_equal. apply filter_ext.
    intros r. now rewrite (structure_key_of df r Hcols). }
  split.
  - intros Hout. apply app_inv_head in Hout. injection Hout as Hrep.
    assert (Hnone : larger_than_one s = []).
    { destruct (larger_than_one s); [reflexivity | discriminate]. }
    assert (Hone : forall i j r1 r2,
               (i < j)%nat ->
               nth_error (rows df) i = Some r1 ->
               nth_error (rows df) j = Some r2 ->
               complete (structure_key r1) = true ->
               structure_key r1 = structure_key r2 -> False).
    { intros i j r1 r2 Hij H1 H2 Hc Hk.
      assert (Hin : In (structure_key r1,
                        group_count STRUCTURE_KEY df (structure_key r1))
                       (larger_than_one s)).
      { apply (Hspec _ _ Hs). repeat split; auto.
        rewrite Hcount.
        apply (filter_two_positions _ _ i j r1 r2); auto.
        - apply key_eqb_refl.
        - rewrite <- Hk. apply key_eqb_refl. }
      rewrite Hnone in Hin. destruct Hin. }
    intros i j r1 r2 H1 H2 Hc Hk.
    destruct (Nat.lt_trichotomy i j) as [Hij | [Hij | Hij]]; [| exact Hij |].
    + exfalso. eapply (Hone i j); eauto.
    + exfalso. eapply (Hone j i r2 r1); eauto; congruence.
  - intros Huniq. do 3 f_equal.
    destruct (larger_than_one s) as [| [k n] l] eqn:El; [reflexivity |].
    exfalso.
    assert (Hin : In (k, n) ((k, n) :: l)) by now left.
    apply (Hspec k n Hs) in Hin as (Hk & -> & Hn).
    rewrite Hcount in Hn.
    destruct (filter_length_two _ _ Hn) as (i & j & a & b & Hij & Hi & Hj & Ha & Hb).
    apply key_eqb_eq in Ha, Hb.
    assert (i = j); [| lia].
    apply (Huniq i j a b); auto; congruence.
Qed.

Lemma all_good_means_unambiguous_witness :
  exists nb',
    cell_5 DOUBLED_NOTEBOOK = inr nb'
    /\ output nb'
       <> [Text "Sanity check: Are there multiple structure KLIFS IDs for one KLIFS structure?";
           Text "All good!"]
    /\ structure_key (7670, [CInt 1; CStr "3dko"; CStr "A"; CStr "A";
                             CStr "EphA7"; CInt 415; CStr "IHZ"])
       = structure_key (12000, [CInt 11999; CStr "3dko"; CStr "A"; CStr "A";
                                CStr "EphA7"; CInt 415; CStr "IHZ"]).
Proof.
  destruct (cell_5 DOUBLED_NOTEBOOK) as [e | nb'] eqn:E;
    [vm_compute in E; discriminate |].
  exists nb'. split; [reflexivity |]. split; [| reflexivity].
  intros Hout.
  pose proof (proj1 (all_good_means_unambiguous DOUBLED_NOTEBOOK nb'
                       DOUBLED_TABLE eq_refl eq_refl E) Hout
                0%nat 2%nat _ _ eq_refl eq_refl eq_refl eq_refl) as H.
  discriminate H.
Defined.

(** ** The report of the ligand check *)

Lemma shared_expo_mask (df : DataFrame) (p : nat) (s : sizes_t) :
  locate_unique (columns df) "ligand.expo_id" = inr p ->
  groupby_size ["ligand.expo_id"] df = inr s ->
  filter (fun r => isin (sizes_index (larger_than_one s)) (key_at p r)) (rows df)
  = filter (shared_expo df p) (rows df).
Proof.
  intros Hp Hs. apply filter_ext_in. intros r Hr.
  pose proof (ambiguous_spec df p s Hp Hs r Hr) as Hm.
  unfold shared_expo.
  destruct (isin _ _) eqn:E.
  - destruct (proj1 Hm eq_refl) as [Hna Hlt].
    apply Nat.ltb_lt in Hlt. rewrite Hlt.
    destruct (key_at p r); try reflexivity. contradiction.
  - destruct (isna (key_at p r)) eqn:Ena; [reflexivity |].
    destruct (Nat.ltb_spec 1 (group_count ["ligand.expo_id"] df [key_at p r]));
      [| reflexivity].
    assert (Hcontra : false = true); [| discriminate].
    apply Hm. split; [| assumption]. intros E'. now rewrite E' in Ena.
Qed.

(** The ligand check when some expo ID is shared: what it shows. *)
Lemma ligand_report nb df p q s :
  ligands_all nb = Some df ->
  locate_unique (columns df) "ligand.expo_id" = inr p ->
  locate_unique (columns df) "ligand.klifs_id" = inr q ->
  forallb is_text_or_nan (map (key_at p) (rows df)) = true ->
  groupby_size ["ligand.expo_id"] df = inr s ->
  larger_than_one s <> [] ->
  exists shown,
    sort_values "ligand.expo_id"
      (mkDataFrame ["ligand.klifs_id"; "ligand.expo_id"]
         (map (ligand_ids q p) (filter (shared_expo df p) (rows df))))
    = inr shown
    /\ cell_11 nb
       = inr (mkNotebook (remote nb) (structures_all nb) (Some s) (filename nb)
                (ligands_all nb) (disk nb)
                (output nb
                 ++ [Text "Sanity check: Are there multiple ligand KLIFS IDs for one ligand PDB?";
                     Frame shown;
                     Text "These PDB IDs need to be check manually!"])).
Proof.
  intros Hdf Hp Hq Htext Hs Hne.
  set (ids := mkDataFrame ["ligand.klifs_id"; "ligand.expo_id"]
                (map (ligand_ids q p) (filter (shared_expo df p) (rows df)))).
  assert (Hsorted : exists shown, sort_values "ligand.expo_id" ids = inr shown).
  { assert (Hloc : locate_unique (columns ids) "ligand.expo_id" = inr 1%nat)
      by reflexivity.
    unfold sort_values. rewrite Hloc. cbn [bind].
    destruct (key_kind_of_text (map (key_at 1) (rows ids))) as (k & Hk).
    - apply forallb_forall. intros c Hc.
      apply in_map_iff in Hc as (r' & <- & Hr').
      unfold ids in Hr'. cbn [rows] in Hr'.
      apply in_map_iff in Hr' as (r & <- & Hr).
      apply filter_In in Hr as [Hr _].
      rewrite forallb_forall in Htext. apply Htext.
      change (In (key_at p r) (map (key_at p) (rows df))). now apply in_map.
    - rewrite Hk. cbn [bind]. eauto. }
  destruct Hsorted as (shown & Hshown).
  exists shown. split; [exact Hshown |].
  unfold cell_11. rewrite Hdf. cbn [var bind ret]. rewrite Hs. cbn [bind ret].
  destruct (larger_than_one s) as [| kn l] eqn:El; [contradiction |].
  cbn [length Nat.ltb Nat.leb]. rewrite Hp. cbn [bind ret].
  rewrite <- El.
  assert (Hids : getitem_columns ["ligand.klifs_id"; "ligand.expo_id"]
                   (getitem_mask
                      (fun r => isin (sizes_index (larger_than_one s)) (key_at p r))
                      df)
                 = inr ids).
  { unfold getitem_columns, getitem_mask. cbn [columns rows mapM].
    unfold locate.
    rewrite (locate_unique_inr _ _ _ Hp), (locate_unique_inr _ _ _ Hq).
    cbn [bind ret concat app map]. unfold ids.
    pose proof (positions_nth "ligand.expo_id" (columns df) p) as Ep.
    pose proof (positions_nth "ligand.klifs_id" (columns df) q) as Eq.
    rewrite (locate_unique_inr _ _ _ Hp) in Ep.
    rewrite (locate_unique_inr _ _ _ Hq) in Eq.
    rewrite (nth_error_nth _ _ _ (Ep (or_introl eq_refl))).
    rewrite (nth_error_nth _ _ _ (Eq (or_introl eq_refl))).
    rewrite (shared_expo_mask df p s Hp Hs). reflexivity. }
  rewrite Hids. cbn [bind ret]. rewrite Hshown. reflexivity.
Qed.

Lemma groupby_expo (df : DataFrame) (p : nat) :
  locate_unique (columns df) "ligand.expo_id" = inr p ->
  exists s, groupby_size ["ligand.expo_id"] df = inr s.
Proof.
  intros Hp. unfold groupby_size. cbn [mapM]. rewrite Hp. cbn [bind ret].
  eauto.
Qed.

(** The two ways in which the ligand check ends. *)
Lemma cell_11_cases nb df p q :
  ligands_all nb = Some df ->
  locate_unique (columns df) "ligand.expo_id" = inr p ->
  locate_unique (columns df) "ligand.klifs_id" = inr q ->
  forallb is_text_or_nan (map (key_at p) (rows df)) = true ->
  exists s,
    groupby_size ["ligand.expo_id"] df = inr s
    /\ ((larger_than_one s = []
         /\ cell_11 nb
            = inr (mkNotebook (remote nb) (structures_all nb) (Some s)
                     (filename nb) (ligands_all nb) (disk nb)
                     (output nb
                      ++ [Text "Sanity check: Are there multiple ligand KLIFS IDs for one ligand PDB?";
                          Text "All good!"])))
        \/ (larger_than_one s <> []
            /\ exists shown,
                sort_values "ligand.expo_id"
                  (mkDataFrame ["ligand.klifs_id"; "ligand.expo_id"]
                     (map (ligand_ids q p)
                          (filter (shared_expo df p) (rows df))))
                = inr shown
                /\ cell_11 nb
                   = inr (mkNotebook (remote nb) (structures_all nb) (Some s)
                            (filename nb) (ligands_all nb) (disk nb)
                            (output nb
                             ++ [Text "Sanity check: Are there multiple ligand KLIFS IDs for one ligand PDB?";
                                 Frame shown;
                                 Text "These PDB IDs need to be check manually!"])))).
Proof.
  intros Hdf Hp Hq Htext.
  destruct (groupby_expo df p Hp) as (s & Hs).
  exists s. split; [exact Hs |].
  destruct (larger_than_one s) as [| kn l] eqn:El.
  - left. split; [reflexivity |].
    unfold cell_11. rewrite Hdf. cbn [var bind ret]. rewrite Hs.
    cbn [bind ret]. rewrite El. reflexivity.
  - right. split; [discriminate |].
    destruct (ligand_report nb df p q s Hdf Hp Hq Htext Hs) as (shown & H1 & H2).
    + rewrite El. discriminate.
    + exists shown. auto.
Qed.

Lemma Permutation_filter_length {A} (f : A -> bool) (l l' : list A) :
  Permutation l l' -> length (filter f l) = length (filter f l').
Proof.
  induction 1 as [| x l l' _ IH | x y l | l l' l'' _ IH1 _ IH2]; simpl.
  - reflexivity.
  - destruct (f x); simpl; congruence.
  - destruct (f x), (f y); reflexivity.
  - congruence.
Qed.

Lemma filter_map_swap {A B} (g : B -> bool) (h : A -> B) (l : list A) :
  filter g (map h l) = map h (filter (fun x => g (h x)) l).
Proof.
  induction l as [| x l IH]; simpl; [reflexivity |].
  destruct (g (h x)); simpl; congruence.
Qed.

Lemma filter_filter {A} (f g : A -> bool) (l : list A) :
  filter g (filter f l) = filter (fun x => f x && g x) l.
Proof.
  induction l as [| x l IH]; simpl; [reflexivity |].
  destruct (f x); simpl; [destruct (g x); simpl; congruence | exact IH].
Qed.

Lemma filter_none {A} (f : A -> bool) (l : list A) :
  (forall x, In x l -> f x = false) -> filter f l = [].
Proof.
  induction l as [| x l IH]; simpl; intros H; [reflexivity |].
  rewrite (H x (or_introl eq_refl)). apply IH. intros y Hy. apply H. now right.
Qed.

Lemma expo_count (df : DataFrame) (p : nat) (c : cell) :
  locate_unique (columns df) "ligand.expo_id" = inr p ->
  group_count ["ligand.expo_id"] df [c]
  = length (filter (fun r => cell_eqb (key_at p r) c) (rows df)).
Proof.
  intros Hp. unfold group_count. f_equal. apply filter_ext. intros r.
  rewrite (expo_key df p Hp). unfold key_eqb. simpl.
  now rewrite andb_true_r.
Qed.

(** X6.  When the ligand check finds an expo ID that several rows share,
    its table holds the pair of ligand ID and expo ID of every row with a
    shared expo ID, each as often as the row occurs and no other: for a
    shared expo ID as many pairs as the ligands table has rows with it,
    for any other value none. *)
Theorem ligand_report_counts :
  forall nb nb' df p q,
    ligands_all nb = Some df ->
    locate_unique (columns df) "ligand.expo_id" = inr p ->
    locate_unique (columns df) "ligand.klifs_id" = inr q ->
    forallb is_text_or_nan (map (key_at p) (rows df)) = true ->
    (exists k, complete k = true
               /\ (1 < group_count ["ligand.expo_id"] df k)%nat) ->
    cell_11 nb = inr nb' ->
    exists shown,
      output nb'
      = output nb
        ++ [Text "Sanity check: Are there multiple ligand KLIFS IDs for one ligand PDB?";
            Frame shown;
            Text "These PDB IDs need to be check manually!"]
      /\ Permutation (rows shown)
           (map (ligand_ids q p) (filter (shared_expo df p) (rows df)))
      /\ forall c,
          length (filter (fun r' => cell_eqb (key_at 1 r') c) (rows shown))
          = if negb (isna c)
               && (1 <? group_count ["ligand.expo_id"] df [c])%nat
            then group_count ["ligand.expo_id"] df [c]
            else 0%nat.
Proof.
  intros nb nb' df p q Hdf Hp Hq Htext (k & Hk & Hlt) Hrun.
  destruct (cell_11_cases nb df p q Hdf Hp Hq Htext)
    as (s & Hs & [[Hnone _] | [_ (shown & Hsort & Hcell)]]).
  { exfalso.
    assert (Hin : In (k, group_count ["ligand.expo_id"] df k)
                     (larger_than_one s))
      by (apply (larger_than_one_spec _ _ _ _ _ Hs); auto).
    rewrite Hnone in Hin. destruct Hin. }
  rewrite Hcell in Hrun. injection Hrun as <-. cbn [output].
  exists shown. split; [reflexivity |].
  pose proof (sort_values_perm _ _ _ Hsort) as Hperm. cbn [rows] in Hperm.
  split; [exact Hperm |].
  intros c. rewrite (Permutation_filter_length _ _ _ Hperm).
  rewrite filter_map_swap, length_map, filter_filter.
  rewrite (expo_count df p c Hp).
  destruct (negb (isna c)
            && (1 <? length (filter (fun r => cell_eqb (key_at p r) c)
                               (rows df)))%nat) eqn:Hc.
  - f_equal. apply filter_ext. intros r.
    change (key_at 1 (ligand_ids q p r)) with (key_at p r).
    destruct (cell_eqb (key_at p r) c) eqn:E; [| apply andb_false_r].
    apply cell_eqb_eq in E. unfold shared_expo.
    rewrite (expo_count df p _ Hp), E, Hc. reflexivity.
  - rewrite filter_none; [reflexivity |]. intros r _.
    change (key_at 1 (ligand_ids q p r)) with (key_at p r).
    destruct (cell_eqb (key_at p r) c) eqn:E; [| apply andb_false_r].
    apply cell_eqb_eq in E. unfold shared_expo.
    rewrite (expo_count df p _ Hp), E, Hc. reflexivity.
Qed.

Lemma ligand_report_counts_witness :
  exists nb' shown,
    cell_11 LIGAND_NOTEBOOK = inr nb'
    /\ output nb'
       = [Text "Sanity check: Are there multiple ligand KLIFS IDs for one ligand PDB?";
          Frame shown;
          Text "These PDB IDs need to be check manually!"]
    /\ length (filter (fun r' => cell_eqb (key_at 1 r') (CStr "6VL"))
                 (rows shown)) = 2%nat
    /\ length (filter (fun r' => cell_eqb (key_at 1 r') (CStr "IHZ"))
                 (rows shown)) = 0%nat.
Proof.
  destruct (cell_11 LIGAND_NOTEBOOK) as [e | nb'] eqn:E;
    [vm_compute in E; discriminate |].
  assert (H1 : ligands_all LIGAND_NOTEBOOK = Some EXAMPLE_LIGANDS)
    by reflexivity.
  assert (H2 : locate_unique (columns EXAMPLE_LIGANDS) "ligand.expo_id"
               = inr 1%nat) by reflexivity.
  assert (H3 : locate_unique (columns EXAMPLE_LIGANDS) "ligand.klifs_id"
               = inr 0%nat) by reflexivity.
  assert (H4 : forallb is_text_or_nan
                 (map (key_at 1) (rows EXAMPLE_LIGANDS)) = true)
    by reflexivity.
  assert (H5 : exists k, complete k = true
                 /\ (1 < group_count ["ligand.expo_id"] EXAMPLE_LIGANDS k)%nat).
  { exists [CStr "6VL"]. split; [reflexivity | vm_compute; lia]. }
  destruct (ligand_report_counts LIGAND_NOTEBOOK nb' EXAMPLE_LIGANDS 1 0
              H1 H2 H3 H4 H5 E) as (shown & Hout & _ & Hcount).
  exists nb', shown. split; [reflexivity |]. split; [exact Hout |].
  split; [exact (Hcount (CStr "6VL")) | exact (Hcount (CStr "IHZ"))].
Defined.

(** ** Rows of one expo ID stand together *)

Lemma key_leb_antisym_text (a b : cell) :
  is_text_or_nan a = true -> is_text_or_nan b = true ->
  key_leb a b = true -> key_leb b a = true ->
  a <> CNaN -> b <> CNaN -> a = b.
Proof.
  destruct a, b; simpl; try discriminate; try congruence.
  intros _ _ H1 H2 _ _. f_equal.
  apply String.leb_antisym; assumption.
Qed.

Lemma shared_rows_keys (df : DataFrame) (p q : nat) (rs : list row) :
  forallb is_text_or_nan (map (key_at p) (rows df)) = true ->
  Permutation rs (map (ligand_ids q p) (filter (shared_expo df p) (rows df))) ->
  forall r', In r' rs ->
    is_text_or_nan (key_at 1 r') = true /\ key_at 1 r' <> CNaN.
Proof.
  intros Htext Hperm r' Hin.
  apply (Permutation_in _ Hperm) in Hin.
  apply in_map_iff in Hin as (r & <- & Hr).
  apply filter_In in Hr as [Hr Hsh].
  change (key_at 1 (ligand_ids q p r)) with (key_at p r).
  split.
  - rewrite forallb_forall in Htext. apply Htext. now apply in_map.
  - unfold shared_expo in Hsh. apply andb_prop in Hsh as [Hna _].
    intros E. rewrite E in Hna. discriminate.
Qed.

(** X7.  In the table of the ligand check the rows of one expo ID stand
    together: a row between two rows of the same expo ID has that expo ID
    too. *)
Theorem shared_expo_rows_together :
  forall nb nb' df p q shown,
    ligands_all nb = Some df ->
    locate_unique (columns df) "ligand.expo_id" = inr p ->
    locate_unique (columns df) "ligand.klifs_id" = inr q ->
    forallb is_text_or_nan (map (key_at p) (rows df)) = true ->
    cell_11 nb = inr nb' ->
    output nb'
    = output nb
      ++ [Text "Sanity check: Are there multiple ligand KLIFS IDs for one ligand PDB?";
          Frame shown;
          Text "These PDB IDs need to be check manually!"] ->
    forall i j k ri rj rk,
      (i < j)%nat -> (j < k)%nat ->
      nth_error (rows shown) i = Some ri ->
      nth_error (rows shown) j = Some rj ->
      nth_error (rows shown) k = Some rk ->
      key_at 1 ri = key_at 1 rk ->
      key_at 1 rj = key_at 1 ri.
Proof.
  intros nb nb' df p q shown Hdf Hp Hq Htext Hrun Hout
         i j k ri rj rk Hij Hjk Hi Hj Hk Hik.
  destruct (cell_11_cases nb df p q Hdf Hp Hq Htext)
    as (s & Hs & [[_ Hcell] | [_ (shown0 & Hsort & Hcell)]]);
    rewrite Hcell in Hrun; injection Hrun as <-; cbn [output] in Hout;
    apply app_inv_head in Hout; [discriminate |].
  injection Hout as ->.
  pose proof (sort_values_perm _ _ _ Hsort) as Hperm. cbn [rows] in Hperm.
  destruct (sort_values_ascending _ _ _ Hsort) as (p' & Hp' & Hsorted).
  apply sort_values_inr in Hsort as (_ & _ & Hcols & _ & _).
  cbn [columns] in Hcols. rewrite Hcols in Hp'. injection Hp' as <-.
  pose proof (shared_rows_keys df p q _ Htext Hperm) as Hkeys.
  destruct (Hkeys ri (nth_error_In _ _ Hi)) as [Ti Ni].
  destruct (Hkeys rj (nth_error_In _ _ Hj)) as [Tj Nj].
  pose proof (StronglySorted_nth _ _ Hsorted i j ri rj Hij Hi Hj) as Lij.
  pose proof (StronglySorted_nth _ _ Hsorted j k rj rk Hjk Hj Hk) as Ljk.
  unfold row_leb in Lij, Ljk. rewrite <- Hik in Ljk.
  symmetry. apply key_leb_antisym_text; assumption.
Qed.

Lemma shared_expo_rows_together_witness :
  exists nb' shown,
    cell_11 LIGAND_NOTEBOOK = inr nb'
    /\ output nb'
       = [Text "Sanity check: Are there multiple ligand KLIFS IDs for one ligand PDB?";
          Frame shown;
          Text "These PDB IDs need to be check manually!"]
    /\ forall i j k ri rj rk,
        (i < j)%nat -> (j < k)%nat ->
        nth_error (rows shown) i = Some ri ->
        nth_error (rows shown) j = Some rj ->
        nth_error (rows shown) k = Some rk ->
        key_at 1 ri = key_at 1 rk ->
        key_at 1 rj = key_at 1 ri.
Proof.
  destruct (cell_11 LIGAND_NOTEBOOK) as [e | nb'] eqn:E;
    [vm_compute in E; discriminate |].
  pose (shown := mkDataFrame ["ligand.klifs_id"; "ligand.expo_id"]
                   [ (2713, [CInt 3015; CStr "6VL"]);
                     (2759, [CInt 3065; CStr "6VL"]);
                     (64, [CInt 65; CStr "7KC"]);
                     (2881, [CInt 2967; CStr "7KC"]) ]).
  assert (Hout : output nb'
                 = output LIGAND_NOTEBOOK
                   ++ [Text "Sanity check: Are there multiple ligand KLIFS IDs for one ligand PDB?";
                       Frame shown;
                       Text "These PDB IDs need to be check manually!"]).
  { vm_compute in E. injection E as <-. reflexivity. }
  exists nb', shown. split; [reflexivity |]. split; [exact Hout |].
  exact (shared_expo_rows_together LIGAND_NOTEBOOK nb' EXAMPLE_LIGANDS 1 0
           shown eq_refl eq_refl eq_refl eq_refl E Hout).
Defined.

(** ** A ligands table without ligand IDs *)

(** X8.  The ligand check reads the column of the ligand IDs only when
    some expo ID is shared.  On a ligands table that lacks this column the
    check prints that all is good when no expo ID is shared, and raises
    KeyError for the label when one is. *)
Theorem ligand_ids_read_when_shared :
  forall nb df p,
    ligands_all nb = Some df ->
    locate_unique (columns df) "ligand.expo_id" = inr p ->
    ~ In "ligand.klifs_id" (columns df) ->
    ((forall k, complete k = true ->
                (group_count ["ligand.expo_id"] df k <= 1)%nat) ->
     exists nb',
       cell_11 nb = inr nb'
       /\ output nb'
          = output nb
            ++ [Text "Sanity check: Are there multiple ligand KLIFS IDs for one ligand PDB?";
                Text "All good!"])
    /\ ((exists k, complete k = true
                   /\ (1 < group_count ["ligand.expo_id"] df k)%nat) ->
        cell_11 nb = inl (KeyError "ligand.klifs_id")).
Proof.
  intros nb df p Hdf Hp Hmiss.
  destruct (groupby_expo df p Hp) as (s & Hs).
  unfold cell_11. rewrite Hdf. cbn [var bind ret]. rewrite Hs. cbn [bind ret].
  split.
  - intros Hnone.
    destruct (larger_than_one s) as [| [k n] l] eqn:El.
    + cbn [length Nat.ltb Nat.leb bind ret]. eexists. split; reflexivity.
    + exfalso.
      assert (Hin : In (k, n) (larger_than_one s))
        by (rewrite El; now left).
      apply (larger_than_one_spec _ _ _ _ _ Hs) in Hin as (Hk & -> & Hn).
      specialize (Hnone k Hk). lia.
  - intros (k & Hk & Hlt).
    assert (Hin : In (k, group_count ["ligand.expo_id"] df k)
                     (larger_than_one s))
      by (apply (larger_than_one_spec _ _ _ _ _ Hs); auto).
    destruct (larger_than_one s) as [| kn l] eqn:El; [destruct Hin |].
    cbn [length Nat.ltb Nat.leb bind ret]. rewrite Hp. cbn [bind ret].
    unfold getitem_columns. cbn [columns getitem_mask mapM].
    unfold locate at 1. unfold positions.
    rewrite (positions_from_absent 0 _ _ Hmiss). reflexivity.
Qed.

Lemma ligand_ids_read_when_shared_witness :
  cell_11 (mkNotebook None None None None (Some LIGANDS_WITHOUT_IDS) [] [])
  = inl (KeyError "ligand.klifs_id").
Proof.
  apply (ligand_ids_read_when_shared
           (mkNotebook None None None None (Some LIGANDS_WITHOUT_IDS) [] [])
           LIGANDS_WITHOUT_IDS 0 eq_refl eq_refl).
  - simpl. intros [H | [H | []]]; discriminate.
  - exists [CStr "6VL"]. split; [reflexivity | vm_compute; lia].
Defined.

(** ** What the load cell reads *)







(** ** Running all cells from any state of the kernel *)

(** X11.  Running all cells gives the same result whatever the variables
    held before, whatever was on the disk and whatever was printed: from
    any two states the two runs raise the same exception, or end with the
    same variables, the same new output and the same file of the day.
    Every variable that a cell reads has been assigned by a cell before
    it, and the file that is loaded is the one just saved. *)
Theorem run_forgets_the_past :
  forall env nb1 nb2,
    same_outcome (output nb1) (output nb2) (file_name (today env))
      (run_cells (all_cells env) nb1) (run_cells (all_cells env) nb2).
Proof.
  intros env nb1 nb2.
  unfold all_cells, cells. cbn [app run_cells].
  unfold cell_2. destruct (setup_remote env) as [e | r];
    cbn [bind ret]; [exact eq_refl |].
  unfold cell_4. cbn [remote var bind ret].
  destruct (all_structures r) as [e | fetched];
    cbn [bind ret]; [exact eq_refl |].
  destruct (getitem_columns ID_COLUMNS fetched) as [e | projected];
    cbn [bind ret]; [exact eq_refl |].
  destruct (sort_values "structure.klifs_id" projected) as [e | sorted];
    cbn [bind ret]; [exact eq_refl |].
  unfold cell_5. cbn [structures_all var bind ret].
  destruct (groupby_size STRUCTURE_KEY sorted) as [e | s];
    cbn [bind ret]; [exact eq_refl |].
  unfold cell_6, to_csv.
  cbn [structures_all remote sizes filename ligands_all disk output
       var bind ret].
  fold (file_name (today env)).
  destruct (os_open env (file_name (today env))) as [e |];
    cbn [bind ret raise]; [exact eq_refl |].
  unfold cell_8.
  cbn [structures_all remote sizes filename ligands_all disk output
       var bind ret].
  unfold read_csv. rewrite !fs_lookup_write.
  rewrite (filename_is_zip (strftime_Ymd (today env))
           : ends_with ".zip" (file_name (today env)) = true).
  destruct (read_csv_text (to_csv_text sorted)) as [e | loaded];
    cbn [bind ret]; [exact eq_refl |].
  unfold cell_10.
  cbn [structures_all remote sizes filename ligands_all disk output
       var bind ret].
  destruct (all_ligands r) as [e | ligands];
    cbn [bind ret]; [exact eq_refl |].
  unfold cell_11.
  cbn [structures_all remote sizes filename ligands_all disk output
       var bind ret].
  destruct (groupby_size ["ligand.expo_id"] ligands) as [e | s'];
    cbn [bind ret]; [exact eq_refl |].
  match goal with
  | |- context [bind (if ?b then ?x else ?y) _] =>
      destruct (if b then x else y) as [e | report]
  end; cbn [bind ret]; [exact eq_refl |].
  unfold cell_12, cell_14, show_expo.
  cbn [structures_all remote sizes filename ligands_all disk output
       var bind ret].
  destruct (getitem_equals "ligand.expo_id" (CStr "6VL") sorted)
    as [e | shown1]; cbn [bind ret]; [exact eq_refl |].
  cbn [structures_all remote sizes filename ligands_all disk output
       var bind ret].
  destruct (getitem_equals "ligand.expo_id" (CStr "7KC") sorted)
    as [e | shown2]; cbn [bind ret]; [exact eq_refl |].
  cbn [same_outcome disk output].
  split; [unfold same_variables; cbn; repeat split; reflexivity |].
  split; [cbn [disk]; now rewrite !fs_lookup_write |].
  cbn [output]. rewrite <- !app_assoc. eexists. split; reflexivity.
Qed.

(** ** A run that completes *)

Lemma getitem_columns_present (labels : list string) (df : DataFrame) :
  incl labels (columns df) ->
  exists out, getitem_columns labels df = inr out.
Proof.
  intros Hin. unfold getitem_columns.
  assert (H : exists pss, mapM (locate (columns df)) labels = inr pss).
  { induction labels as [| l ls IH]; [now exists [] |].
    destruct IH as (pss & Hpss).
    { intros x Hx. apply Hin. now right. }
    cbn [mapM]. unfold locate at 1.
    pose proof (positions_from_found 0 l (columns df)
                  (Hin l (or_introl eq_refl))) as Hne.
    fold (positions l (columns df)) in Hne.
    destruct (positions l (columns df)) as [| p ps]; [congruence |].
    cbn [bind ret]. rewrite Hpss. cbn [bind ret]. eauto. }
  destruct H as (pss & ->). cbn [bind ret]. eauto.
Qed.

Lemma take_row_plain (ps : list nat) (r : row) :
  Forall (fun c => plain_cell c = true) (snd r) ->
  Forall (fun c => plain_cell c = true) (snd (take_row ps r)).
Proof.
  intros H. unfold take_row, take_cells. cbn [snd].
  apply Forall_map. apply Forall_forall. intros p _.
  destruct (Nat.lt_ge_cases p (length (snd r))) as [Hlt | Hge].
  - rewrite Forall_forall in H. apply H. now apply nth_In.
  - now rewrite nth_overflow.
Qed.

Lemma expo_position :
  locate_unique ID_COLUMNS "ligand.expo_id" = inr 6%nat.
Proof. reflexivity. Qed.

(** The projected and sorted table of a fetched table whose labels are
    distinct and whose structure IDs are numbers. *)
Lemma fetched_sorted (fetched : DataFrame) (p0 : nat) :
  NoDup (columns fetched) ->
  incl ID_COLUMNS (columns fetched) ->
  locate_unique (columns fetched) "structure.klifs_id" = inr p0 ->
  forallb is_int (map (key_at p0) (rows fetched)) = true ->
  plain_cells fetched ->
  exists projected sorted,
    getitem_columns ID_COLUMNS fetched = inr projected
    /\ sort_values "structure.klifs_id" projected = inr sorted
    /\ columns sorted = ID_COLUMNS
    /\ well_formed sorted
    /\ plain_cells sorted.
Proof.
  intros Hnd Hin Hp0 Hint Hplain.
  destruct (getitem_columns_present ID_COLUMNS fetched Hin)
    as (projected & Hproj).
  destruct (getitem_columns_nodup _ _ _ Hnd Hproj) as [Hcols Hwf].
  destruct (getitem_columns_inr _ _ _ Hproj) as (pss & Hpss & _ & Hrows).
  assert (Hhd : exists rest, concat pss = p0 :: rest).
  { unfold ID_COLUMNS in Hpss. cbn [mapM] in Hpss. inv_bind Hpss.
    inv_bind Hpss. injection Hpss as <-.
    apply locate_inr in Ha as [-> _].
    rewrite (locate_unique_inr _ _ _ Hp0). cbn [concat app]. eauto. }
  destruct Hhd as (rest & Hhd).
  assert (Hkeys : forallb is_int (map (key_at 0) (rows projected)) = true).
  { rewrite Hrows, map_map. rewrite forallb_forall in Hint |- *.
    intros c Hc. apply in_map_iff in Hc as (r & <- & Hr).
    unfold key_at, take_row, take_cells. cbn [snd]. rewrite Hhd.
    cbn [map nth]. apply Hint. apply (in_map (key_at p0)). exact Hr. }
  assert (Hsort : exists sorted,
             sort_values "structure.klifs_id" projected = inr sorted
             /\ columns sorted = columns projected
             /\ rows sorted = sort_by (row_leb 0) (rows projected)).
  { unfold sort_values. rewrite Hcols.
    change (locate_unique ID_COLUMNS "structure.klifs_id")
      with (@inr exn nat 0%nat).
    cbn [bind ret]. unfold key_kind_of. rewrite Hkeys. cbn [bind ret].
    eexists. split; [reflexivity |]. split; reflexivity. }
  destruct Hsort as (sorted & Hsort & Hscols & Hsrows).
  exists projected, sorted. split; [exact Hproj |]. split; [exact Hsort |].
  split; [congruence |].
  split; [exact (sort_values_well_formed _ _ _ Hwf Hsort) |].
  unfold plain_cells. rewrite Hsrows.
  apply (Permutation_Forall (Permutation_sym (sort_by_perm _ _))).
  rewrite Hrows. apply Forall_map.
  eapply Forall_impl; [| exact Hplain].
  intros r Hr. now apply take_row_plain.
Qed.

(** X12.  The run of all cells completes when the collaborators do their
    part: the session is set up and answers both listings; the structures
    listing has distinct labels, the seven ID labels among them, numbers as
    structure IDs and no control character in its text; the ligands
    listing has each of its two ID labels once and text, or nothing, as
    expo IDs; and the file of the day can be opened for writing.  Then no
    cell raises, and at the end the structures table has the seven ID
    columns, the file of the day holds its text, and the ligands table is
    the listing. *)
Theorem run_completes :
  forall env r fetched ligands p0 p q,
    setup_remote env = inr r ->
    all_structures r = inr fetched ->
    all_ligands r = inr ligands ->
    NoDup (columns fetched) ->
    incl ID_COLUMNS (columns fetched) ->
    locate_unique (columns fetched) "structure.klifs_id" = inr p0 ->
    forallb is_int (map (key_at p0) (rows fetched)) = true ->
    plain_cells fetched ->
    locate_unique (columns ligands) "ligand.expo_id" = inr p ->
    locate_unique (columns ligands) "ligand.klifs_id" = inr q ->
    forallb is_text_or_nan (map (key_at p) (rows ligands)) = true ->
    os_open env (file_name (today env)) = None ->
    exists nb df,
      run_cells (all_cells env) (initial env) = inr nb
      /\ structures_all nb = Some df
      /\ columns df = ID_COLUMNS
      /\ length (rows df) = length (rows fetched)
      /\ filename nb = Some (file_name (today env))
      /\ fs_lookup (disk nb) (file_name (today env))
         = Some (ZipArchive [(file_name (today env), to_csv_text df)])
      /\ ligands_all nb = Some ligands.
Proof.
  intros env r fetched ligands p0 p q
         Hsetup Hfetch Hlig Hnd Hin Hp0 Hint Hplain Hp Hq Htext Hopen.
  destruct (fetched_sorted fetched p0 Hnd Hin Hp0 Hint Hplain)
    as (projected & sorted & Hproj & Hsort & Hcols & Hwf & Hpl).
  destruct (groupby_structure_key sorted Hcols) as (s & Hs).
  assert (Hw : (2 <= length (columns sorted))%nat)
    by (rewrite Hcols; simpl; lia).
  assert (Hlabels : Forall (fun l => bare_cr l = false) (columns sorted))
    by (rewrite Hcols; repeat constructor).
  pose proof (read_back sorted Hw Hlabels Hwf
                (clean_no_bare_cr sorted (plain_clean sorted Hpl)))
    as Hread.
  assert (Hlen : length (rows sorted) = length (rows fetched)).
  { rewrite (Permutation_length (sort_values_perm _ _ _ Hsort)).
    destruct (getitem_columns_inr _ _ _ Hproj) as (pss & _ & _ & ->).
    apply length_map. }
  unfold all_cells, cells. cbn [app run_cells].
  unfold cell_2. rewrite Hsetup. cbn [bind ret].
  unfold cell_4, initial. cbn [remote var bind ret].
  rewrite Hfetch. cbn [bind ret]. rewrite Hproj. cbn [bind ret].
  rewrite Hsort. cbn [bind ret].
  unfold cell_5. cbn [structures_all var bind ret]. rewrite Hs.
  cbn [bind ret].
  unfold cell_6, to_csv.
  cbn [structures_all remote sizes filename ligands_all disk output
       var bind ret].
  fold (file_name (today env)). rewrite Hopen. cbn [bind ret].
  unfold cell_8.
  cbn [structures_all remote sizes filename ligands_all disk output
       var bind ret].
  unfold read_csv. rewrite fs_lookup_write.
  rewrite (filename_is_zip (strftime_Ymd (today env))
           : ends_with ".zip" (file_name (today env)) = true).
  rewrite Hread. cbn [bind ret].
  unfold cell_10.
  cbn [structures_all remote sizes filename ligands_all disk output
       var bind ret].
  rewrite Hlig. cbn [bind ret].
  match goal with
  | |- context [cell_11 ?N] =>
      destruct (cell_11_cases N ligands p q eq_refl Hp Hq Htext)
        as (s' & _ & [[_ H11] | [_ (shown & _ & H11)]]);
      rewrite H11; clear H11
  end;
    cbn [bind ret];
    unfold cell_12, cell_14, show_expo;
    cbn [structures_all remote sizes filename ligands_all disk output
         var bind ret];
    unfold getitem_equals; rewrite Hcols, expo_position; cbn [bind ret];
    cbn [structures_all remote sizes filename ligands_all disk output
         var bind ret];
    rewrite Hcols, expo_position; cbn [bind ret];
    (eexists _, sorted; split; [reflexivity |];
     cbn [structures_all filename ligands_all disk];
     repeat (split; [reflexivity || assumption |]);
     split; [apply fs_lookup_write | reflexivity]).
Qed.

Lemma run_completes_witness :
  exists nb df,
    run_cells (all_cells EXAMPLE_ENV) (initial EXAMPLE_ENV) = inr nb
    /\ structures_all nb = Some df
    /\ columns df = ID_COLUMNS
    /\ length (rows df) = length (rows EXAMPLE_STRUCTURES)
    /\ filename nb = Some (file_name (today EXAMPLE_ENV))
    /\ fs_lookup (disk nb) (file_name (today EXAMPLE_ENV))
       = Some (ZipArchive [(file_name (today EXAMPLE_ENV), to_csv_text df)])
    /\ ligands_all nb = Some EXAMPLE_LIGANDS.
Proof.
  apply (run_completes EXAMPLE_ENV EXAMPLE_REMOTE EXAMPLE_STRUCTURES
           EXAMPLE_LIGANDS 0 1 0); try reflexivity.
  - repeat constructor; simpl; intuition discriminate.
  - intros l Hl. simpl in Hl |- *. intuition.
  - repeat constructor.
Defined.
